(** * Tensor operations and streaming state of the TypeScript transformer

    A shallow embedding of the tensor utilities, the streaming state, the
    positional embedding, the layers, the streaming transformer shell, the
    projected transformer, the placeholder transformers of the server and
    of the client and the messages of the protocol, followed by the
    properties proved about them.

    Conventions of the embedding.
    - A typed array ([Float32Array], [Int32Array]) is a [list] of numbers.
      Reading outside the array gives [undefined], which every use in this
      code turns into [NaN]; writing outside the array is ignored.
    - Shapes, loop counters and indices are integers ([Z]).  The source
      computes them with doubles, which are exact on the integers met here.
    - The numbers held by tensors are an abstract type with the operations
      the source applies to them: nothing is assumed about rounding.  The
      conversion done by a store into a [Float32Array] is the operation
      [fround].  What is stated of exact integers is stated under
      [ExactIntegers], and run on the integer model [num], in which the
      rounding of a store is computed.
    - A typed array has at most [maxLength] elements, the limit of the
      engine; running out of memory below that limit is not followed.
    - A thrown [Error] is the outcome [Throw]; the errors are told apart by
      the site that throws them.  A call that throws ends the run: the
      state it leaves behind is not followed.
    - The mutable fields of an object are threaded through the calls: a
      forward call returns its output together with the updated shell. *)

From Stdlib Require Import ZArith Lia.
From Stdlib.Strings Require Import Byte.
From stdpp Require Import base list strings.

Open Scope Z_scope.

(** ** Numbers *)

(** The operations of JavaScript numbers used by the source. *)
Class JsNumber (A : Type) : Type := {
  of_Z : Z -> A;          (* an integer literal or loop counter as a number *)
  NaN : A;                (* what [undefined] becomes in arithmetic and stores *)
  nadd : A -> A -> A;     (* a + b *)
  nmul : A -> A -> A;     (* a * b *)
  ndiv : A -> A -> A;     (* a / b *)
  npow : A -> A -> A;     (* Math.pow(a, b) *)
  nsin : A -> A;          (* Math.sin(a) *)
  ncos : A -> A;          (* Math.cos(a) *)
  fround : A -> A;        (* conversion of a store into a Float32Array *)
  truthy : A -> bool      (* a number as a condition: false for 0 and NaN *)
}.

(** Two facts of the arithmetic of doubles, for the statements that are
    about integers: a sum of integers of magnitude at most [2^53] that is
    itself of magnitude at most [2^53] is exact, and a store into a
    [Float32Array] keeps an integer of magnitude at most [2^24]. *)
Class ExactIntegers (A : Type) `{JsNumber A} : Prop := {
  nadd_exact : forall a b : Z,
    Z.abs a <= 2 ^ 53 -> Z.abs b <= 2 ^ 53 -> Z.abs (a + b) <= 2 ^ 53 ->
    nadd (of_Z a) (of_Z b) = of_Z (a + b);
  fround_exact : forall z : Z,
    Z.abs z <= 2 ^ 24 -> fround (of_Z z) = of_Z z
}.

(** ** The engine *)

(** The one limit of the JavaScript engine that the source meets: the
    largest length of a typed array.  The constructor of a typed array
    throws a [RangeError] for a length above it, as it does for a negative
    length.  The limit differs between engines; none is below one. *)
Class JsEngine : Type := {
  maxLength : positive
}.

(** ** Outcomes *)

(** The places where the source throws. *)
Inductive error : Type :=
| OnlyOneDimensionInferred   (* "Only one dimension can be inferred" *)
| CannotReshape              (* "Cannot reshape tensor ..." *)
| TransposeOnly3D            (* "Transpose currently only supports 3D tensors" *)
| TransposeNotImplemented    (* "Transpose dims ... not implemented" *)
| SameSizeForAddition        (* "Tensors must have same size for addition" *)
| ShapesMustMatch            (* "Tensor shapes must match for addition" *)
| InvalidPositionalEmbedding (* "Invalid positional embedding: ..." *)
| InvalidArrayLength.        (* RangeError of a typed-array constructor *)

(** The error kinds of the specification. *)
Inductive kind : Type :=
| InvalidShape
| ShapeMismatch
| UnsupportedTranspose
| InvalidConfiguration.

Definition kind_of (e : error) : kind :=
  match e with
  | OnlyOneDimensionInferred | CannotReshape
  | SameSizeForAddition | ShapesMustMatch => ShapeMismatch
  | TransposeOnly3D | TransposeNotImplemented => UnsupportedTranspose
  | InvalidPositionalEmbedding => InvalidConfiguration
  | InvalidArrayLength => InvalidShape
  end.

(** The outcome of a call.  [NonInteger] stands for a run in which a
    dimension stops being an integer (a fractional quotient in [view], or a
    dimension missing from a shape that is too short): the embedding does
    not follow such a run further. *)
Inductive result (T : Type) : Type :=
| Ret (v : T)
| Throw (e : error)
| NonInteger.

Arguments Ret {T} v.
Arguments Throw {T} e.
Arguments NonInteger {T}.

Definition bind {T U : Type} (r : result T) (k : T -> result U) : result U :=
  match r with
  | Ret v => k v
  | Throw e => Throw e
  | NonInteger => NonInteger
  end.

Notation "'let*' x ':=' r 'in' k" := (bind r (fun x => k))
  (at level 10, x name, r at level 100, k at level 200).

(** ** Loops *)

(** The counters [0, 1, ..., n-1] of [for (let i = 0; i < n; i++)]. *)
Definition range (n : Z) : list Z := Z.of_nat <$> seq 0%nat (Z.to_nat n).

(** [for (let i = 0; i < n; i++) body] on a state [s]. *)
Definition for_ {St : Type} (n : Z) (body : Z -> St -> St) (s : St) : St :=
  fold_left (fun s i => body i s) (range n) s.

(** The number of rounds of [for (let d = 0; d < n; d += 2)]. *)
Definition half_up (n : Z) : Z := (n + 1) / 2.

(** [shape.reduce((acc, dim) => acc * dim, 1)]. *)
Definition product (shape : list Z) : Z := fold_left Z.mul shape 1.

(** [Math.ceil(a / b)] for integers [a] and [b <> 0]. *)
Definition ceilDiv (a b : Z) : Z := - ((- a) / b).

(** The integer that a store into an [Int32Array] makes of the integer [v]. *)
Definition wrapInt32 (v : Z) : Z := (v + 2 ^ 31) mod 2 ^ 32 - 2 ^ 31.

(** ** Typed arrays and tensors *)

Section Tensors.
Context {A : Type} `{JsNumber A} `{JsEngine}.

(** [arr[i]] as it is used in arithmetic or stored again. *)
Definition get (arr : list A) (i : Z) : A :=
  if 0 <=? i then default NaN (arr !! Z.to_nat i) else NaN.

(** [arr[i] = v], for a value that is already of the array's type. *)
Definition set (arr : list A) (i : Z) (v : A) : list A :=
  if 0 <=? i then <[Z.to_nat i := v]> arr else arr.

(** [new Float32Array(size)] for an integer [size]: a [RangeError] for a
    negative length and for a length above the limit of the engine. *)
Definition newArray (size : Z) : result (list A) :=
  if (size <? 0) || (Z.pos maxLength <? size) then Throw InvalidArrayLength
  else Ret (replicate (Z.to_nat size) (of_Z 0)).

(** [new Float32Array(n)] for the length [n] of an existing array, which
    is within the limit of the engine. *)
Definition newArrayOfLength (n : nat) : list A := replicate n (of_Z 0).

Record Tensor : Type := mkTensor {
  data : list A;
  shape : list Z;
  device : option string;
  dtype : option string
}.

(** [device || "cpu"]. *)
Definition orCpu (device : option string) : string :=
  match device with
  | Some d => if String.eqb d "" then "cpu" else d
  | None => "cpu"
  end.

(** The tensor [t] with its buffer replaced by [arr] (a write through
    [t.data] leaves the other fields as they are). *)
Definition withData (t : Tensor) (arr : list A) : Tensor :=
  {| data := arr; shape := shape t; device := device t; dtype := dtype t |}.

End Tensors.

Arguments Tensor A : clear implicits.

(** ** The tensor utilities of the transliterated transformer *)

Module TensorUtils.
Section Defs.
Context {A : Type} `{JsNumber A} `{JsEngine}.

Definition zeros (shape : list Z) (device : option string) : result (Tensor A) :=
  let size := product shape in
  let* arr := newArray size in
  Ret {| data := arr; shape := shape;
         device := Some (orCpu device); dtype := Some "float32" |}.

Definition arange (end_ : Z) (device : option string) : result (Tensor A) :=
  let* arr := newArray end_ in
  let arr := for_ end_ (fun i arr => set arr i (fround (of_Z i))) arr in
  Ret {| data := arr; shape := [end_];
         device := Some (orCpu device); dtype := Some "float32" |}.

(** The first loop of [view]: the index of the inferred dimension ([-1] when
    there is none) and the product of the other dimensions. *)
Fixpoint scanShape (newShape : list Z) (i inferDim knownSize : Z)
  : result (Z * Z) :=
  match newShape with
  | [] => Ret (inferDim, knownSize)
  | d :: rest =>
      if d =? -1 then
        if negb (inferDim =? -1) then Throw OnlyOneDimensionInferred
        else scanShape rest (i + 1) i knownSize
      else scanShape rest (i + 1) inferDim (knownSize * d)
  end.

(** [resolvedShape[inferDim] = actualSize / knownSize].  A zero [knownSize]
    gives an infinite or undefined quotient, and the product of the resolved
    shape, which then holds both a zero and that quotient, is [NaN]: the
    size test below it throws.  A quotient that is not an integer leaves the
    embedding. *)
Definition resolveShape (newShape : list Z) (inferDim knownSize actualSize : Z)
  : result (list Z) :=
  if negb (inferDim =? -1) then
    if knownSize =? 0 then Throw CannotReshape
    else if actualSize mod knownSize =? 0
         then Ret (<[Z.to_nat inferDim := actualSize / knownSize]> newShape)
         else NonInteger
  else Ret newShape.

(** [TensorUtils.view(tensor, ...newShape)]: the result shares the buffer. *)
Definition view (tensor : Tensor A) (newShape : list Z) : result (Tensor A) :=
  let* scanned := scanShape newShape 0 (-1) 1 in
  let inferDim := fst scanned in
  let knownSize := snd scanned in
  let actualSize := Z.of_nat (length (data tensor)) in
  let* resolvedShape := resolveShape newShape inferDim knownSize actualSize in
  let expectedSize := product resolvedShape in
  if negb (expectedSize =? actualSize) then Throw CannotReshape
  else Ret {| data := data tensor; shape := resolvedShape;
              device := device tensor; dtype := dtype tensor |}.

(** The two flat indices of the element [(b, t, c)] in [transpose]. *)
Definition srcIdx (T C b t c : Z) : Z := b * T * C + t * C + c.
Definition dstIdx (T C b t c : Z) : Z := b * C * T + c * T + t.

Definition transpose (tensor : Tensor A) (dim0 dim1 : Z) : result (Tensor A) :=
  match shape tensor with
  | [B; T; C] =>
      if ((dim0 =? 1) && (dim1 =? 2)) || ((dim0 =? 2) && (dim1 =? 1)) then
        let newData : list A := newArrayOfLength (length (data tensor)) in
        let newData :=
          for_ B (fun b => for_ T (fun t => for_ C (fun c newData =>
            if (dim0 =? 1) && (dim1 =? 2)
            then set newData (dstIdx T C b t c) (get (data tensor) (srcIdx T C b t c))
            else set newData (srcIdx T C b t c) (get (data tensor) (dstIdx T C b t c)))))
          newData in
        Ret {| data := newData;
               shape := if (dim0 =? 1) && (dim1 =? 2) then [B; C; T] else [B; T; C];
               device := device tensor; dtype := dtype tensor |}
      else Throw TransposeNotImplemented
  | _ => Throw TransposeOnly3D
  end.

Definition add (a b : Tensor A) : result (Tensor A) :=
  if negb (length (data a) =? length (data b))%nat then Throw SameSizeForAddition
  else
    let n := Z.of_nat (length (data a)) in
    let result : list A := newArrayOfLength (length (data a)) in
    let result :=
      for_ n (fun i result =>
        set result i (fround (nadd (get (data a) i) (get (data b) i)))) result in
    Ret {| data := result; shape := shape a;
           device := device a; dtype := dtype a |}.

Definition scale (tensor : Tensor A) (scalar : A) : Tensor A :=
  let n := Z.of_nat (length (data tensor)) in
  let result : list A := newArrayOfLength (length (data tensor)) in
  let result :=
    for_ n (fun i result =>
      set result i (fround (nmul (get (data tensor) i) scalar))) result in
  {| data := result; shape := shape tensor;
     device := device tensor; dtype := dtype tensor |}.

End Defs.
End TensorUtils.

(** ** The tensor utilities of the server *)

Module ServerTensorUtils.
Section Defs.
Context {A : Type} `{JsNumber A} `{JsEngine}.

(** The three array kinds differ in the conversion of a store only; a fresh
    array is all zero for each. *)
Definition zeros (shape : list Z) (dtype device : string) : result (Tensor A) :=
  let size := product shape in
  let* arr := newArray size in
  Ret {| data := arr; shape := shape;
         device := Some device; dtype := Some dtype |}.

Definition reshape (tensor : Tensor A) (newShape : list Z) : result (Tensor A) :=
  let expectedSize := product newShape in
  let actualSize := Z.of_nat (length (data tensor)) in
  if negb (expectedSize =? actualSize) then Throw CannotReshape
  else Ret {| data := data tensor; shape := newShape;
              device := device tensor; dtype := dtype tensor |}.

Definition add (a b : Tensor A) : result (Tensor A) :=
  if negb (length (data a) =? length (data b))%nat then Throw SameSizeForAddition
  else
    let n := Z.of_nat (length (data a)) in
    let result : list A := newArrayOfLength (length (data a)) in
    let result :=
      for_ n (fun i result =>
        set result i (fround (nadd (get (data a) i) (get (data b) i)))) result in
    Ret {| data := result; shape := shape a;
           device := device a; dtype := dtype a |}.

(** The number stored for the integer [v] in an array of the kind chosen by
    [switch (dtype)]: an [Int32Array] wraps it, a [Float64Array] holds it as
    it is, and a [Float32Array] rounds it. *)
Definition storeInteger (dtype : string) (v : Z) : A :=
  if String.eqb dtype "int32" then of_Z (wrapInt32 v)
  else if String.eqb dtype "float64" then of_Z v
  else fround (of_Z v).

(** [arange(start, stop, step = 1, dtype = 'float32', device = 'cpu')] on
    integers.  With [step] zero the length is infinite, which the array
    constructor rejects, unless [stop] is [start]: the length is then [NaN]
    and so is the shape. *)
Definition arange (start stop : Z) (step : option Z)
    (dtype device : option string) : result (Tensor A) :=
  let step := default 1 step in
  let dtype := default "float32" dtype in
  let device := default "cpu" device in
  if step =? 0 then
    if stop - start =? 0 then NonInteger else Throw InvalidArrayLength
  else
    let length := ceilDiv (stop - start) step in
    let* data := newArray length in
    let data :=
      for_ length (fun i data =>
        set data i (storeInteger dtype (start + i * step))) data in
    Ret {| data := data; shape := [length];
           device := Some device; dtype := Some dtype |}.

Definition scale (tensor : Tensor A) (scalar : A) : Tensor A :=
  let n := Z.of_nat (length (data tensor)) in
  let result : list A := newArrayOfLength (length (data tensor)) in
  let result :=
    for_ n (fun i result =>
      set result i (fround (nmul (get (data tensor) i) scalar))) result in
  {| data := result; shape := shape tensor;
     device := device tensor; dtype := dtype tensor |}.

End Defs.
End ServerTensorUtils.

(** ** The tensor utilities of the client *)

Module WebTensorUtils.
Section Defs.
Context {A : Type} `{JsNumber A} `{JsEngine}.

Definition zeros (shape : list Z) (dtype : string) : result (Tensor A) :=
  let size := product shape in
  let* arr := newArray size in
  Ret {| data := arr; shape := shape;
         device := Some "cpu"; dtype := Some dtype |}.

(** [a.shape.length !== b.shape.length || !a.shape.every((dim, i) => dim === b.shape[i])]. *)
Definition shapesDiffer (sa sb : list Z) : bool :=
  negb (length sa =? length sb)%nat
  || negb (forallb (fun p => match sb !! (fst p) with
                             | Some d => snd p =? d
                             | None => false
                             end) (imap (fun i d => (i, d)) sa)).

Definition add (a b : Tensor A) : result (Tensor A) :=
  if shapesDiffer (shape a) (shape b) then Throw ShapesMustMatch
  else
    let n := Z.of_nat (length (data a)) in
    let result : list A := newArrayOfLength (length (data a)) in
    let result :=
      for_ n (fun i result =>
        set result i (fround (nadd (get (data a) i) (get (data b) i)))) result in
    Ret {| data := result; shape := shape a;
           device := device a; dtype := Some "float32" |}.

Definition reshape (tensor : Tensor A) (newShape : list Z) : result (Tensor A) :=
  let totalElements := Z.of_nat (length (data tensor)) in
  let newTotalElements := product newShape in
  if negb (totalElements =? newTotalElements) then Throw CannotReshape
  else Ret {| data := data tensor; shape := newShape;
              device := device tensor; dtype := dtype tensor |}.

(** [arange(start, end, step = 1, dtype = "float32")] on integers; on an
    integer [Math.round] changes nothing. *)
Definition arange (start end_ : Z) (step : option Z) (dtype : option string)
  : result (Tensor A) :=
  let step := default 1 step in
  let dtype := default "float32" dtype in
  if step =? 0 then
    if end_ - start =? 0 then NonInteger else Throw InvalidArrayLength
  else
    let size := ceilDiv (end_ - start) step in
    let* data := newArray size in
    let data :=
      if String.eqb dtype "int32"
      then for_ size (fun i data =>
             set data i (of_Z (wrapInt32 (start + i * step)))) data
      else for_ size (fun i data =>
             set data i (fround (of_Z (start + i * step)))) data in
    Ret {| data := data; shape := [size];
           device := Some "cpu"; dtype := Some dtype |}.

Definition scale (tensor : Tensor A) (scalar : A) : Tensor A :=
  let n := Z.of_nat (length (data tensor)) in
  let result : list A := newArrayOfLength (length (data tensor)) in
  let result :=
    for_ n (fun i result =>
      set result i (fround (nmul (get (data tensor) i) scalar))) result in
  {| data := result; shape := shape tensor;
     device := device tensor; dtype := Some "float32" |}.

End Defs.
End WebTensorUtils.

(** ** Streaming states *)

(** The loop shared by the three [reset] methods:
    [for (let i = 0; i < mask.length && i < n; i++) if (mask[i]) arr[i] = 0]. *)
Definition resetWhere {A : Type} `{JsNumber A}
    (mask : list bool) (n : Z) (arr : list A) : list A :=
  for_ (Z.min (Z.of_nat (length mask)) n) (fun i arr =>
    if default false (mask !! Z.to_nat i) then set arr i (of_Z 0) else arr) arr.

(** [arr.fill(0)]. *)
Definition fillZero {A : Type} `{JsNumber A} (arr : list A) : list A :=
  replicate (length arr) (of_Z 0).

(** The outcome of a call that JavaScript lets through although the type
    of the method excludes it: the call returns, or it throws a [TypeError]
    on reading a property of [undefined]. *)
Inductive called (T : Type) : Type :=
| Returned (v : T)
| TypeError.

Arguments Returned {T} v.
Arguments TypeError {T}.

(** [TransformerState] of the transliterated transformer. *)
Module TransformerState.
Section Defs.
Context {A : Type} `{JsNumber A} `{JsEngine}.

Record t : Type := mk {
  batchSize : Z;
  device : string;
  offsets : Tensor A;
  execMask : option (list bool)
}.

(** [new TransformerState(batchSize, device = "cpu", offsets?)]. *)
Definition new (batchSize : Z) (device : option string)
    (offsets : option (Tensor A)) : result t :=
  let device := default "cpu" device in
  let* offsets :=
    match offsets with
    | Some o => Ret o
    | None => TensorUtils.zeros [batchSize] (Some device)
    end in
  Ret {| batchSize := batchSize; device := device;
         offsets := offsets; execMask := None |}.

(** The buffer of [offsets] replaced by [arr]. *)
Definition withOffsets (st : t) (arr : list A) : t :=
  {| batchSize := batchSize st; device := device st;
     offsets := withData (offsets st) arr;
     execMask := execMask st |}.

(** [reset(resetMask)]: the mask is not optional here. *)
Definition reset (st : t) (resetMask : list bool) : t :=
  withOffsets st
    (resetWhere resetMask (Z.of_nat (length (data (offsets st))))
       (data (offsets st))).

(** The call as it runs, with the mask given or left out.  There is no
    branch for a missing mask: [resetMask] is then [undefined], and the
    first test of the loop, which reads [resetMask.length], throws before
    any offset is written. *)
Definition resetCall (st : t) (resetMask : option (list bool)) : called t :=
  match resetMask with
  | Some resetMask => Returned (reset st resetMask)
  | None => TypeError
  end.

End Defs.
Arguments t A : clear implicits.
End TransformerState.

(** [NodeStreamingState] of the server. *)
Module NodeStreamingState.
Section Defs.
Context {A : Type} `{JsNumber A} `{JsEngine}.

Record t : Type := mk {
  batchSize : Z;
  offsets : Tensor A;
  execMask : option (list bool)
}.

(** [new NodeStreamingState(batchSize, device = 'cpu')]. *)
Definition new (batchSize : Z) (device : option string) : result t :=
  let* offsets := ServerTensorUtils.zeros [batchSize] "int32" (default "cpu" device) in
  Ret {| batchSize := batchSize; offsets := offsets; execMask := None |}.

Definition withOffsets (st : t) (arr : list A) : t :=
  {| batchSize := batchSize st;
     offsets := withData (offsets st) arr;
     execMask := execMask st |}.

(** [reset(resetMask?)]. *)
Definition reset (st : t) (resetMask : option (list bool)) : t :=
  match resetMask with
  | None => withOffsets st (fillZero (data (offsets st)))
  | Some resetMask =>
      withOffsets st
        (resetWhere resetMask (Z.of_nat (length (data (offsets st))))
           (data (offsets st)))
  end.

End Defs.
Arguments t A : clear implicits.
End NodeStreamingState.

(** [WebStreamingState] of the client: the offsets are a private
    [Float32Array], and the bound of the loop is [batchSize]. *)
Module WebStreamingState.
Section Defs.
Context {A : Type} `{JsNumber A} `{JsEngine}.

Record t : Type := mk {
  batchSize : Z;
  device : string;
  _offsets : list A
}.

(** [new WebStreamingState(batchSize, device = "cpu")]. *)
Definition new (batchSize : Z) (device : option string) : result t :=
  let* arr := newArray batchSize in
  Ret {| batchSize := batchSize; device := default "cpu" device;
         _offsets := arr |}.

(** The getter [offsets]. *)
Definition offsets (st : t) : Tensor A :=
  mkTensor (_offsets st) [batchSize st] (Some (device st)) (Some "float32").

(** [reset(mask?)]. *)
Definition reset (st : t) (mask : option (list bool)) : t :=
  match mask with
  | None =>
      {| batchSize := batchSize st; device := device st;
         _offsets := fillZero (_offsets st) |}
  | Some mask =>
      {| batchSize := batchSize st; device := device st;
         _offsets := resetWhere mask (batchSize st) (_offsets st) |}
  end.

End Defs.
Arguments t A : clear implicits.
End WebStreamingState.

(** ** Positional embedding *)

Module PositionalEmbedding.
Section Defs.
Context {A : Type} `{JsNumber A} `{JsEngine}.

(** [pos / Math.pow(maxPeriod, d / dim)]. *)
Definition angle (pos maxPeriod : A) (d dim : Z) : A :=
  ndiv pos (npow maxPeriod (ndiv (of_Z d) (of_Z dim))).

(** The body of the loop on [d], which advances by two: the round [j] has
    [d = 2 * j]. *)
Definition sinCosRound (pos maxPeriod : A) (seqLen dim b t j : Z)
    (edata : list A) : list A :=
  let d := 2 * j in
  let angle := angle pos maxPeriod d dim in
  let idx := b * seqLen * dim + t * dim in
  let edata := set edata (idx + d) (fround (nsin angle)) in
  if d + 1 <? dim
  then set edata (idx + d + 1) (fround (ncos angle))
  else edata.

(** [createSinEmbedding(positions, dim, maxPeriod = 10000)]. *)
Definition createSinEmbedding (positions : Tensor A) (dim : Z)
    (maxPeriod : option A) : result (Tensor A) :=
  let maxPeriod := default (of_Z 10000) maxPeriod in
  match shape positions with
  | batchSize :: seqLen :: _ =>
      let* embeddings := TensorUtils.zeros [batchSize; seqLen; dim] None in
      let edata :=
        for_ batchSize (fun b => for_ seqLen (fun t edata =>
          let pos := get (data positions) (b * seqLen + t) in
          for_ (half_up dim) (sinCosRound pos maxPeriod seqLen dim b t) edata))
        (data embeddings) in
      Ret (withData embeddings edata)
  | _ => NonInteger
  end.

End Defs.
End PositionalEmbedding.

(** ** Layers *)

Module Linear.
Section Defs.
Context {A : Type} `{JsNumber A} `{JsEngine}.

Record t : Type := mk {
  weight : Tensor A;
  bias : option (Tensor A);
  inFeatures : Z;
  outFeatures : Z
}.

(** [new Linear(inFeatures, outFeatures, bias = true)].  The weights are
    drawn with [Math.random]: [draw i] is the value
    [(Math.random() - 0.5) * 2 * scale] of round [i], whatever it is. *)
Definition new (inFeatures outFeatures : Z) (bias : option bool)
    (draw : Z -> A) : result t :=
  let* weightData := newArray (inFeatures * outFeatures) in
  let weightData :=
    for_ (Z.of_nat (length weightData)) (fun i weightData =>
      set weightData i (fround (draw i))) weightData in
  let weight := mkTensor weightData [outFeatures; inFeatures]
                  (Some "cpu") (Some "float32") in
  let* bias :=
    if default true bias
    then let* b := TensorUtils.zeros [outFeatures] None in Ret (Some b)
    else Ret None in
  Ret {| weight := weight; bias := bias;
         inFeatures := inFeatures; outFeatures := outFeatures |}.

Definition forward (l : t) (x : Tensor A) : result (Tensor A) :=
  let inputShape := shape x in
  let batchSize := product (removelast inputShape) in
  let* result := TensorUtils.zeros (removelast inputShape ++ [outFeatures l]) None in
  let rdata :=
    for_ batchSize (fun b => for_ (outFeatures l) (fun out rdata =>
      let sum :=
        for_ (inFeatures l) (fun inp sum =>
          let xIdx := b * inFeatures l + inp in
          let wIdx := out * inFeatures l + inp in
          nadd sum (nmul (get (data x) xIdx) (get (data (weight l)) wIdx)))
        (of_Z 0) in
      let sum :=
        match bias l with
        | Some bias => nadd sum (get (data bias) out)
        | None => sum
        end in
      set rdata (b * outFeatures l + out) (fround sum)))
    (data result) in
  Ret (withData result rdata).

End Defs.
Arguments t A : clear implicits.
End Linear.

Module Identity.
Section Defs.
Context {A : Type} `{JsNumber A} `{JsEngine}.

(** The class has no field. *)
Inductive t : Type := mk.

(** A copy of [x]: a new buffer with the same elements. *)
Definition forward (l : t) (x : Tensor A) : Tensor A :=
  {| data := data x; shape := shape x; device := device x; dtype := dtype x |}.

End Defs.
End Identity.

(** ** The streaming transformer shell *)

(** [for (const layer of layers) x = layer.forward(x)], and the same loop
    with a forward that may throw. *)
Fixpoint mapM {T U : Type} (f : T -> result U) (l : list T) : result (list U) :=
  match l with
  | [] => Ret []
  | a :: l =>
      let* b := f a in
      let* bs := mapM f l in
      Ret (b :: bs)
  end.

Module StreamingTransformer.
Section Defs.
Context {A : Type} `{JsNumber A} `{JsEngine}.

(** The argument of the constructor; [None] is a key left out. *)
Record options : Type := mkOptions {
  o_dModel : Z;
  o_numHeads : option Z;
  o_numLayers : option Z;
  o_dimFeedforward : option (Z + list Z);
  o_causal : option bool;
  o_context : option Z;
  o_positionalEmbedding : option string;
  o_maxPeriod : option A;
  o_positionalScale : option A;
  o_checkpointing : option bool
}.

Record t : Type := mk {
  dModel : Z;
  numHeads : option Z;
  numLayers : option Z;
  dimFeedforward : Z + list Z;
  causal : bool;
  context : option Z;
  positionalEmbedding : string;
  maxPeriod : A;
  positionalScale : A;
  checkpointing : bool;
  layers : list Identity.t;
  streamingState : option (TransformerState.t A)
}.

(** [value || fallback] on an optional number. *)
Definition orNumber (value : option A) (fallback : A) : A :=
  match value with
  | Some v => if truthy v then v else fallback
  | None => fallback
  end.

Definition validEmbeddings : list string := ["sin"; "rope"; "sin_rope"; "none"].

Definition new (o : options) : result t :=
  let dimFeedforward :=
    match o_dimFeedforward o with
    | Some (inl 0) | None => inl 2048
    | Some v => v
    end in
  let positionalEmbedding :=
    match o_positionalEmbedding o with
    | Some s => if String.eqb s "" then "sin" else s
    | None => "sin"
    end in
  if negb (existsb (String.eqb positionalEmbedding) validEmbeddings)
  then Throw InvalidPositionalEmbedding
  else
    Ret {| dModel := o_dModel o;
           numHeads := o_numHeads o;
           numLayers := o_numLayers o;
           dimFeedforward := dimFeedforward;
           causal := default false (o_causal o);
           context := o_context o;
           positionalEmbedding := positionalEmbedding;
           maxPeriod := orNumber (o_maxPeriod o) (of_Z 10000);
           positionalScale := orNumber (o_positionalScale o) (of_Z 1);
           checkpointing := default false (o_checkpointing o);
           layers := for_ (default 0 (o_numLayers o))
                       (fun _ layers => layers ++ [Identity.mk]) [];
           streamingState := None |}.

Definition initStreamingState (tr : t) (batchSize : Z)
  : result (TransformerState.t A) :=
  TransformerState.new batchSize (Some "cpu") None.

(** The shell with a streaming state attached
    ([transformer.streamingState = state]). *)
Definition attach (tr : t) (state : option (TransformerState.t A)) : t :=
  {| dModel := dModel tr; numHeads := numHeads tr; numLayers := numLayers tr;
     dimFeedforward := dimFeedforward tr; causal := causal tr;
     context := context tr; positionalEmbedding := positionalEmbedding tr;
     maxPeriod := maxPeriod tr; positionalScale := positionalScale tr;
     checkpointing := checkpointing tr; layers := layers tr;
     streamingState := state |}.

(** The variable [offsets] of [forward]. *)
Definition baseOffsets (state : option (TransformerState.t A)) (x : Tensor A)
  : result (Tensor A) :=
  match state with
  | None => TensorUtils.zeros [1] (device x)
  | Some state => Ret (TransformerState.offsets state)
  end.

(** The body shared by the two position loops of [forward]:
    [arr[b * T + t] = t + offsets.data[Math.min(b, offsets.data.length - 1)]]. *)
Definition fillPositions (B T : Z) (offsets : Tensor A) (arr : list A) : list A :=
  for_ B (fun b => for_ T (fun t arr =>
    let offsetIdx := Z.min b (Z.of_nat (length (data offsets)) - 1) in
    set arr (b * T + t) (fround (nadd (of_Z t) (get (data offsets) offsetIdx)))))
  arr.

(** The tensor [expandedPositions] of [forward]. *)
Definition expandedPositions (B T : Z) (offsets : Tensor A)
    (device : option string) : result (Tensor A) :=
  let* expanded := TensorUtils.zeros [B; T] device in
  Ret (withData expanded (fillPositions B T offsets (data expanded))).

(** The update of the offsets that ends [forward]. *)
Definition advance (state : TransformerState.t A) (T : Z) : TransformerState.t A :=
  let offsets := data (TransformerState.offsets state) in
  TransformerState.withOffsets state
    (for_ (Z.of_nat (length offsets)) (fun i offsets =>
       if match TransformerState.execMask state with
          | None => true
          | Some execMask => default false (execMask !! Z.to_nat i)
          end
       then set offsets i (fround (nadd (get offsets i) (of_Z T)))
       else offsets) offsets).

(** [positionalEmbedding === "sin" || positionalEmbedding === "sin_rope"]. *)
Definition sinusoidal (tr : t) : bool :=
  String.eqb (positionalEmbedding tr) "sin"
  || String.eqb (positionalEmbedding tr) "sin_rope".

(** [if (state) { ... }]: the state left by a call on a chunk of [T] steps. *)
Definition advanced (tr : t) (T : Z) : option (TransformerState.t A) :=
  match streamingState tr with
  | Some state => Some (advance state T)
  | None => None
  end.

Definition forward (tr : t) (x : Tensor A) : result (Tensor A * t) :=
  match shape x with
  | B :: T :: C :: _ =>
      let dtypeInput := dtype x in
      let state := streamingState tr in
      let* offsets := baseOffsets state x in
      let* x :=
        if sinusoidal tr
        then
          let* positions := TensorUtils.arange T (device x) in
          let* positionsReshaped := TensorUtils.view positions [1; T; 1] in
          let positionsReshaped :=
            withData positionsReshaped
              (fillPositions B T offsets (data positionsReshaped)) in
          let* expandedPositions := expandedPositions B T offsets (device x) in
          let* posEmb :=
            PositionalEmbedding.createSinEmbedding expandedPositions C
              (Some (maxPeriod tr)) in
          let scaledPosEmb := TensorUtils.scale posEmb (positionalScale tr) in
          TensorUtils.add x scaledPosEmb
        else Ret x in
      let x := fold_left (fun x layer => Identity.forward layer x) (layers tr) x in
      Ret ({| data := data x; shape := shape x;
              device := device x; dtype := dtypeInput |},
           attach tr (advanced tr T))
  | _ => NonInteger
  end.

End Defs.
Arguments options A : clear implicits.
Arguments t A : clear implicits.
End StreamingTransformer.

(** ** The projected transformer *)

Module ProjectedTransformer.
Section Defs.
Context {A : Type} `{JsNumber A} `{JsEngine}.

(** [transformerOptions]: the keys spread over [{ dModel }]. *)
Record transformerOptions : Type := mkTransformerOptions {
  to_dModel : option Z;
  to_numHeads : option Z;
  to_numLayers : option Z;
  to_dimFeedforward : option (Z + list Z);
  to_causal : option bool;
  to_context : option Z;
  to_positionalEmbedding : option string;
  to_maxPeriod : option A;
  to_positionalScale : option A;
  to_checkpointing : option bool
}.

(** [transformerOptions = {}]. *)
Definition noOptions : transformerOptions :=
  mkTransformerOptions None None None None None None None None None None.

Record options : Type := mkOptions {
  o_inputDimension : Z;
  o_outputDimensions : list Z;
  o_dModel : Z;
  o_convLayout : option bool;
  o_transformerOptions : option transformerOptions
}.

Record t : Type := mk {
  transformer : StreamingTransformer.t A;
  inputProj : option (Linear.t A);
  outputProjs : list (Linear.t A + Identity.t);
  convLayout : bool
}.

(** [{ dModel, ...transformerOptions }]. *)
Definition spread (dModel : Z) (o : transformerOptions)
  : StreamingTransformer.options A :=
  StreamingTransformer.mkOptions
    (default dModel (to_dModel o)) (to_numHeads o) (to_numLayers o)
    (to_dimFeedforward o) (to_causal o) (to_context o)
    (to_positionalEmbedding o) (to_maxPeriod o) (to_positionalScale o)
    (to_checkpointing o).

(** One round of the loop that fills [outputProjs]. *)
Definition outputProj (dModel : Z) (draws : nat -> Z -> A)
    (entry : nat * Z) : result (Linear.t A + Identity.t) :=
  let outputDimension := snd entry in
  if dModel =? outputDimension then Ret (inr Identity.mk)
  else
    let* l := Linear.new dModel outputDimension (Some false)
                (draws (S (fst entry))) in
    Ret (inl l).

(** The constructor.  [draws 0] are the random draws of the input
    projection and [draws (S j)] those of the output projection [j]. *)
Definition new (o : options) (draws : nat -> Z -> A) : result t :=
  let inputDimension := o_inputDimension o in
  let outputDimensions := o_outputDimensions o in
  let dModel := o_dModel o in
  let convLayout := default false (o_convLayout o) in
  let transformerOptions := default noOptions (o_transformerOptions o) in
  let* transformer := StreamingTransformer.new (spread dModel transformerOptions) in
  let* inputProj :=
    if negb (dModel =? inputDimension)
    then let* l := Linear.new inputDimension dModel (Some false) (draws 0%nat) in
         Ret (Some l)
    else Ret None in
  let* outputProjs :=
    mapM (outputProj dModel draws) (imap (fun j d => (j, d)) outputDimensions) in
  Ret {| transformer := transformer; inputProj := inputProj;
         outputProjs := outputProjs; convLayout := convLayout |}.

(** The assignment [pt.transformer.streamingState = state] on the public
    fields of a projected transformer. *)
Definition withState (pt : t) (state : option (TransformerState.t A)) : t :=
  {| transformer := StreamingTransformer.attach (transformer pt) state;
     inputProj := inputProj pt; outputProjs := outputProjs pt;
     convLayout := convLayout pt |}.

(** [outputProj.forward(z)] for either kind of projection. *)
Definition projForward (p : Linear.t A + Identity.t) (z : Tensor A)
  : result (Tensor A) :=
  match p with
  | inl l => Linear.forward l z
  | inr i => Ret (Identity.forward i z)
  end.

(** The tensor handed to the shell by [forward]. *)
Definition shellInput (pt : t) (x : Tensor A) : result (Tensor A) :=
  let* x := if convLayout pt then TensorUtils.transpose x 1 2 else Ret x in
  match inputProj pt with
  | Some p => Linear.forward p x
  | None => Ret x
  end.

(** One round of the output loop of [forward]. *)
Definition outputRound (convLayout : bool) (z : Tensor A)
    (outputProj : Linear.t A + Identity.t) : result (Tensor A) :=
  let* y := projForward outputProj z in
  if convLayout then TensorUtils.transpose y 1 2 else Ret y.

Definition forward (pt : t) (x : Tensor A) : result (list (Tensor A) * t) :=
  let* x := shellInput pt x in
  let* zt := StreamingTransformer.forward (transformer pt) x in
  let z := fst zt in
  let* ys := mapM (outputRound (convLayout pt) z) (outputProjs pt) in
  Ret (ys, {| transformer := snd zt; inputProj := inputProj pt;
              outputProjs := outputProjs pt; convLayout := convLayout pt |}).

End Defs.
Arguments transformerOptions A : clear implicits.
Arguments options A : clear implicits.
Arguments t A : clear implicits.
End ProjectedTransformer.

(** ** The placeholder transformers of the server and of the client *)

(** The outcome of a call that needs a prior [initialize()]: it throws
    "Transformer not initialized. Call initialize() first." without it. *)
Inductive guarded (T : Type) : Type :=
| Forwarded (v : T)
| NotInitialized.

Arguments Forwarded {T} v.
Arguments NotInitialized {T}.

(** The literal [0.1]: the double nearest to one tenth, which is also the
    quotient of 1 by 10. *)
Definition tenth {A : Type} `{JsNumber A} : A := ndiv (of_Z 1) (of_Z 10).

Module NodeTransformer.
Section Defs.
Context {A : Type} `{JsNumber A} `{JsEngine}.

(** [ServerTransformerConfig]. *)
Record config : Type := mkConfig {
  modelSize : string;
  task : string;
  device : string;
  precision : string;
  maxContextLength : option Z;
  batchSize : option Z
}.

Record t : Type := mk {
  config_ : config;
  initialized : bool
}.

Definition new (c : config) : t := {| config_ := c; initialized := false |}.

(** [await initialize()]: once the timer has fired the flag is set; a
    transformer that is initialized already is left as it is. *)
Definition initialize (tr : t) : t :=
  if initialized tr then tr
  else {| config_ := config_ tr; initialized := true |}.

Definition getModelDimension (tr : t) : Z :=
  if String.eqb (modelSize (config_ tr)) "small" then 128
  else if String.eqb (modelSize (config_ tr)) "base" then 256
  else if String.eqb (modelSize (config_ tr)) "large" then 512
  else 256.

Definition forward (tr : t) (input : Tensor A) : guarded (Tensor A) :=
  if negb (initialized tr) then NotInitialized
  else
    let outputData : list A := newArrayOfLength (length (data input)) in
    let outputData :=
      for_ (Z.of_nat (length (data input))) (fun i outputData =>
        set outputData i
          (fround (nadd (get (data input) i)
                     (nmul (nsin (nmul (of_Z i) tenth)) tenth)))) outputData in
    Forwarded (withData input outputData).

Definition createStreamingState (tr : t) (batchSize : Z)
  : result (NodeStreamingState.t A) :=
  NodeStreamingState.new batchSize (Some (device (config_ tr))).

Definition dispose (tr : t) : t :=
  {| config_ := config_ tr; initialized := false |}.

(** [createServerTransformer(config)]. *)
Definition createServerTransformer (c : config) : t := initialize (new c).

End Defs.
End NodeTransformer.

Module WebTransformer.
Section Defs.
Context {A : Type} `{JsNumber A} `{JsEngine}.

(** [TransformerConfig]. *)
Record config : Type := mkConfig {
  modelSize : string;
  task : string;
  device : option string;
  precision : option string
}.

Record t : Type := mk {
  config_ : config;
  initialized : bool
}.

(** What [initialize] finds in the browser: no [gpu] key in [navigator], a
    request for an adapter that resolves (with an adapter or with none), or
    a request that fails. *)
Inductive navigator : Type :=
| NoGpu
| AdapterRequest (adapter : bool)
| RequestFails.

Definition new (c : config) : t := {| config_ := c; initialized := false |}.

(** [this.config.device = "cpu"]. *)
Definition fallBackToCpu (c : config) : config :=
  {| modelSize := modelSize c; task := task c;
     device := Some "cpu"; precision := precision c |}.

(** [await initialize()]. *)
Definition initialize (nav : navigator) (tr : t) : t :=
  if initialized tr then tr
  else
    let c := config_ tr in
    let c :=
      match device c, nav with
      | Some d, AdapterRequest adapter =>
          if String.eqb d "gpu" then (if adapter then c else fallBackToCpu c)
          else c
      | Some d, RequestFails =>
          if String.eqb d "gpu" then fallBackToCpu c else c
      | _, _ => c
      end in
    {| config_ := c; initialized := true |}.

Definition forward (tr : t) (input : Tensor A) : guarded (Tensor A) :=
  if negb (initialized tr) then NotInitialized
  else
    let outputData : list A := newArrayOfLength (length (data input)) in
    let outputData :=
      for_ (Z.of_nat (length (data input))) (fun i outputData =>
        set outputData i (fround (nmul (get (data input) i) (of_Z 1))))
        outputData in
    Forwarded (withData input outputData).

(** [this.config.device || "cpu"]. *)
Definition createStreamingState (tr : t) (batchSize : Z)
  : result (WebStreamingState.t A) :=
  WebStreamingState.new batchSize (Some (orCpu (device (config_ tr)))).

(** [createTransformer(config)]. *)
Definition createTransformer (nav : navigator) (c : config) : t :=
  initialize nav (new c).

End Defs.
End WebTransformer.

(** ** The messages of the protocol *)

Module Protocol.
Section Defs.

(** The strings of JavaScript and [new TextEncoder().encode]. *)
Context {Text : Type} (textEncode : Text -> list byte).

Inductive MessageType : Type := AUDIO | TEXT | METADATA.

(** The value of a member of the enumeration, as stored in a [Uint8Array]. *)
Definition code (type : MessageType) : byte :=
  match type with
  | AUDIO => x01
  | TEXT => x02
  | METADATA => x03
  end.

(** [encodeMessage(type, data)] for [data] a [Uint8Array] or a string. *)
Definition encodeMessage (type : MessageType) (data : list byte + Text)
  : list byte :=
  match data with
  | inr text => code type :: textEncode text
  | inl bytes => code type :: bytes
  end.

(** The outcome of [decodeMessage]: the first byte, read as a message type
    without a check, and the rest; or the throw of 'Empty message'. *)
Inductive decoded : Type :=
| Decoded (type : byte) (payload : list byte)
| EmptyMessage.

Definition decodeMessage (data : list byte) : decoded :=
  match data with
  | [] => EmptyMessage
  | type :: payload => Decoded type payload
  end.

(** [createServerInfoMessage()], for the string [serverInfoJson] that
    [JSON.stringify] makes of the server's description. *)
Definition createServerInfoMessage (serverInfoJson : Text) : list byte :=
  encodeMessage METADATA (inr serverInfoJson).

End Defs.
End Protocol.

(** ** A term model of the numbers

    Numbers as unevaluated expressions: the interface of [JsNumber] with
    nothing identified.  It serves to run the definitions on concrete
    tensors.  An expression that is not a literal counts as non-zero. *)

Inductive term : Type :=
| TInt (z : Z)
| TNaN
| TAdd (a b : term)
| TMul (a b : term)
| TDiv (a b : term)
| TPow (a b : term)
| TSin (a : term)
| TCos (a : term)
| TRound (a : term).

#[global] Instance term_number : JsNumber term := {|
  of_Z := TInt;
  NaN := TNaN;
  nadd := TAdd;
  nmul := TMul;
  ndiv := TDiv;
  npow := TPow;
  nsin := TSin;
  ncos := TCos;
  fround := TRound;
  truthy := fun a => match a with
                     | TInt z => negb (z =? 0)
                     | TNaN => false
                     | _ => true
                     end
|}.

(** ** An integer model of the numbers

    The integers that a double holds exactly, with the rounding of a store
    into a [Float32Array] computed on them.  Every other number but [NaN]
    (a fraction, an infinity, a result that was rounded) is collapsed into
    [Other], which nothing is concluded from; as a condition it is taken
    as non-zero, and no run below tests one. *)

Inductive num : Type :=
| Int (z : Z)
| NotANumber
| Other.

(** The integer [z] as a double: followed while its magnitude is at most
    [2^53]. *)
Definition int (z : Z) : num := if Z.abs z <=? 2 ^ 53 then Int z else Other.

(** The float nearest to the integer [z], ties to the even significand:
    below [2^24] every integer is a float; from [2^e] to [2^(e+1)] the
    floats are the multiples of [2^(e-23)]. *)
Definition roundFloat32 (z : Z) : Z :=
  let m := Z.abs z in
  if m <? 2 ^ 24 then z
  else
    let ulp := 2 ^ (Z.log2 m - 23) in
    let q := m / ulp in
    let r := m mod ulp in
    let nearest :=
      if 2 * r <? ulp then q * ulp
      else if ulp <? 2 * r then (q + 1) * ulp
      else if Z.even q then q * ulp else (q + 1) * ulp in
    Z.sgn z * nearest.

#[global] Instance num_number : JsNumber num := {|
  of_Z := int;
  NaN := NotANumber;
  nadd := fun a b => match a, b with
                     | Int x, Int y => int (x + y)
                     | NotANumber, _ | _, NotANumber => NotANumber
                     | _, _ => Other
                     end;
  nmul := fun a b => match a, b with
                     | Int x, Int y => int (x * y)
                     | NotANumber, _ | _, NotANumber => NotANumber
                     | _, _ => Other
                     end;
  ndiv := fun a b => match a, b with
                     | Int x, Int y =>
                         if (negb (y =? 0)) && (x mod y =? 0) then int (x / y)
                         else if (x =? 0) && (y =? 0) then NotANumber
                         else Other
                     | NotANumber, _ | _, NotANumber => NotANumber
                     | _, _ => Other
                     end;
  npow := fun a b => match a, b with
                     | _, Int 0 => Int 1
                     | NotANumber, _ | _, NotANumber => NotANumber
                     | _, _ => Other
                     end;
  nsin := fun a => match a with
                   | Int 0 => Int 0
                   | NotANumber => NotANumber
                   | _ => Other
                   end;
  ncos := fun a => match a with
                   | Int 0 => Int 1
                   | NotANumber => NotANumber
                   | _ => Other
                   end;
  fround := fun a => match a with
                     | Int x => Int (roundFloat32 x)
                     | NotANumber => NotANumber
                     | Other => Other
                     end;
  truthy := fun a => match a with
                     | Int z => negb (z =? 0)
                     | NotANumber => false
                     | Other => true
                     end
|}.

(** The engine of the runs: typed arrays of up to [2^32 - 1] elements. *)
#[global] Instance sampleEngine : JsEngine := {| maxLength := 4294967295 |}.

(** ** Well-formed tensors and states *)

(** The invariant of the data model: dimensions that are not negative and
    a buffer as long as their product. *)
Definition wellFormed {A : Type} (t : Tensor A) : Prop :=
  Forall (fun d => 0 <= d) (shape t)
  /\ Z.of_nat (length (data t)) = product (shape t).

(** ** Vocabulary of the properties *)

(** [inRange n z] is [0 <= z < n]. *)
Definition inRange (n z : Z) : bool := (0 <=? z) && (z <? n).

Section Vocabulary.
Context {A : Type} `{JsNumber A} `{JsEngine}.

(** The engine creates a typed array of [n] elements, for [n] that is not
    negative. *)
Definition fits (n : Z) : Prop := n <= Z.pos maxLength.

(** The engine creates the arrays that a forward call of the shell asks
    for on an input of shape [[B, T, C]]: the [T] positions, the [B * T]
    expanded positions and the [B * T * C] elements of the embedding. *)
Definition shellFits (B T C : Z) : Prop :=
  fits T /\ fits (B * T) /\ fits (B * T * C).

(** [patched cond val l l'] says that [l'] is [l] with the element at each
    index [k] selected by [cond] overwritten by [val k]. *)
Definition patched (cond : nat -> bool) (val : nat -> A) (l l' : list A) : Prop :=
  forall k, l' !! k = if cond k then (fun _ => val k) <$> (l !! k) else l !! k.

(** The elementwise sum of [a] and [b], as one of the [add] functions
    returns it: the shape of [a], and at each index of [a] the rounded sum
    of the two elements. *)
Definition isSum (a b r : Tensor A) : Prop :=
  shape r = shape a
  /\ length (data r) = length (data a)
  /\ forall k x, data a !! k = Some x ->
       data r !! k = Some (fround (nadd x (get (data b) (Z.of_nat k)))).

(** The value of the embedding at the flat index [k]: a sine in the even
    slots of a row, the cosine of the same angle in the odd slot after it. *)
Definition sinCosAt (pdata : list A) (maxPeriod : A) (D : Z) (k : nat) : A :=
  let d := Z.of_nat k mod D in
  let pos := get pdata (Z.of_nat k / D) in
  if Z.even d
  then fround (nsin (PositionalEmbedding.angle pos maxPeriod d D))
  else fround (ncos (PositionalEmbedding.angle pos maxPeriod (d - 1) D)).

(** The position written at the flat index [k] of a [[B, T]] tensor. *)
Definition positionAt (T : Z) (offsets : Tensor A) (k : nat) : A :=
  fround (nadd (of_Z (Z.of_nat k mod T))
            (get (data offsets)
               (Z.min (Z.of_nat k / T) (Z.of_nat (length (data offsets)) - 1)))).

(** Whether the row [i] is advanced:
    [!state.execMask || state.execMask[i]]. *)
Definition executes (execMask : option (list bool)) (i : nat) : bool :=
  match execMask with
  | None => true
  | Some execMask => default false (execMask !! i)
  end.

(** The projection built for the output width [w]: the identity when [w]
    is the width of the model, a linear map from the model to [w]
    otherwise. *)
Definition projectionFor (dModel w : Z) (p : Linear.t A + Identity.t) : Prop :=
  match p with
  | inr _ => w = dModel
  | inl l => w <> dModel /\ Linear.inFeatures l = dModel
             /\ Linear.outFeatures l = w
  end.

End Vocabulary.

(** ** Vocabulary of the further properties *)

Section FurtherVocabulary.
Context {A : Type} `{JsNumber A} `{JsEngine}.

(** The elements of a scaled tensor. *)
Definition isScaled (tensor : Tensor A) (scalar : A) (r : Tensor A) : Prop :=
  shape r = shape tensor /\ device r = device tensor
  /\ length (data r) = length (data tensor)
  /\ forall k x, data tensor !! k = Some x ->
       data r !! k = Some (fround (nmul x scalar)).



(** The value that [forward] stores for the row [b] and the output [out],
    before the rounding of the store: the products are summed from the
    left, starting from zero, and the bias comes last. *)
Definition dotRow (l : Linear.t A) (x : Tensor A) (b out : Z) : A :=
  let sum :=
    for_ (Linear.inFeatures l) (fun inp sum =>
      nadd sum (nmul (get (data x) (b * Linear.inFeatures l + inp))
                  (get (data (Linear.weight l))
                     (out * Linear.inFeatures l + inp))))
      (of_Z 0) in
  match Linear.bias l with
  | Some bias => nadd sum (get (data bias) out)
  | None => sum
  end.

(** What a placeholder [forward] returns for [input]: a float32 buffer of
    the same length whose element [k] is [f k x] rounded, for the element
    [x] of the input, under the shape, the device and the declared element
    type of the input. *)
Definition isMapped (f : nat -> A -> A) (input out : Tensor A) : Prop :=
  shape out = shape input /\ device out = device input
  /\ dtype out = dtype input
  /\ length (data out) = length (data input)
  /\ forall k x, data input !! k = Some x ->
       data out !! k = Some (fround (f k x)).

End FurtherVocabulary.

(** ** Sample inputs

    The inputs on which the properties are run, over the term model of the
    numbers. *)

Definition sampleTensor : Tensor term :=
  mkTensor (TInt <$> [1; 2; 3; 4; 5; 6; 7; 8; 9; 10; 11; 12]) [2; 2; 3]
    (Some "cpu") (Some "float32").

(** The state of the test of the source: offsets 5, 10 and 15. *)
Definition sampleNodeState : NodeStreamingState.t term :=
  NodeStreamingState.mk 3
    (mkTensor [TInt 5; TInt 10; TInt 15] [3] (Some "cpu") (Some "int32")) None.

Definition samplePositions : Tensor term :=
  mkTensor [TInt 0; TInt 1] [1; 2] None None.

(** A shell with the default sinusoidal embedding and one layer, and a
    state of two rows of which the second is masked out. *)
Definition sampleShell : StreamingTransformer.t term :=
  StreamingTransformer.mk 2 (Some 1) (Some 1) (inl 2048) false None "sin"
    (TInt 10000) (TInt 1) false [Identity.mk] None.

Definition sampleState : TransformerState.t term :=
  TransformerState.mk 2 "cpu"
    (mkTensor [TInt 5; TInt 7] [2] (Some "cpu") (Some "float32"))
    (Some [true; false]).

Definition sampleChunk : Tensor term :=
  mkTensor (TInt <$> [1; 2; 3; 4; 5; 6; 7; 8; 9; 10; 11; 12]) [3; 2; 2]
    (Some "cpu") (Some "float32").

(** The end-to-end example: input width 6, output widths 4 and 8, model
    width 4, on an input of shape [[2, 3, 6]]. *)
Definition sampleOptions : ProjectedTransformer.options term :=
  ProjectedTransformer.mkOptions 6 [4; 8] 4 (Some false)
    (Some (ProjectedTransformer.mkTransformerOptions None (Some 2) (Some 1)
             None None None None None None None)).

Definition sampleDraws (projection : nat) (i : Z) : term :=
  TInt (Z.of_nat projection * 100 + i).

Definition sampleProjected : ProjectedTransformer.t term :=
  Eval vm_compute in
    match ProjectedTransformer.new sampleOptions sampleDraws with
    | Ret pt => pt
    | _ => ProjectedTransformer.mk sampleShell None [] false
    end.

Definition sampleInput : Tensor term :=
  mkTensor (TInt <$> range 36) [2; 3; 6] (Some "cpu") (Some "float32").

(** A linear layer of three inputs and two outputs, with a bias. *)
Definition sampleLinear : Linear.t term :=
  Linear.mk
    (mkTensor (TInt <$> [1; 2; 3; 4; 5; 6]) [2; 3] (Some "cpu") (Some "float32"))
    (Some (mkTensor [TInt 10; TInt 20] [2] (Some "cpu") (Some "float32")))
    3 2.




(** The same shell, state and chunk over the integer model of the numbers,
    and a state that has consumed [2^24] steps, with chunks of one, two and
    three steps for it. *)
Definition numShell : StreamingTransformer.t num :=
  StreamingTransformer.mk 2 (Some 1) (Some 1) (inl 2048) false None "sin"
    (Int 10000) (Int 1) false [Identity.mk] None.

Definition numState : TransformerState.t num :=
  TransformerState.mk 2 "cpu"
    (mkTensor [Int 5; Int 7] [2] (Some "cpu") (Some "float32"))
    (Some [true; false]).

Definition numChunk : Tensor num :=
  mkTensor (Int <$> [1; 2; 3; 4; 5; 6; 7; 8; 9; 10; 11; 12]) [3; 2; 2]
    (Some "cpu") (Some "float32").

Definition longState : TransformerState.t num :=
  TransformerState.mk 1 "cpu"
    (mkTensor [Int 16777216] [1] (Some "cpu") (Some "float32")) None.

Definition oneStep : Tensor num :=
  mkTensor [Int 1; Int 2] [1; 1; 2] (Some "cpu") (Some "float32").

Definition twoSteps : Tensor num :=
  mkTensor [Int 1; Int 2; Int 3; Int 4] [1; 2; 2] (Some "cpu") (Some "float32").

Definition threeSteps : Tensor num :=
  mkTensor [Int 1; Int 2; Int 3; Int 4; Int 5; Int 6] [1; 3; 2]
    (Some "cpu") (Some "float32").

(** A closed bound [fits n] or [shellFits B T C] at the engine of the
    runs. *)
Ltac fitting := unfold shellFits, fits; cbn; repeat split; lia.

(** A closed membership [x ∉ [a; b; ...]] among integers. *)
Ltac absent :=
  let Hin := fresh "Hin" in
  intros Hin;
  repeat (apply elem_of_cons in Hin as [Hin|Hin]; [discriminate Hin|]);
  apply elem_of_nil in Hin; exact Hin.

(** * Properties *)

(** The integer model adds and stores exactly within the bounds of
    [ExactIntegers]. *)
Lemma roundFloat32_exact z : Z.abs z <= 2 ^ 24 -> roundFloat32 z = z.
Proof.
  intros Hz. unfold roundFloat32. cbv zeta.
  destruct (Z.abs z <? 2 ^ 24) eqn:E; [done|].
  apply Z.ltb_ge in E.
  assert (z = 2 ^ 24 \/ z = - 2 ^ 24) as [-> | ->] by lia; reflexivity.
Qed.

Lemma num_exact : ExactIntegers num.
Proof.
  split.
  - intros a b Ha Hb Hab. cbn. unfold int.
    destruct (Z.leb_spec (Z.abs a) (2 ^ 53)); [|lia].
    destruct (Z.leb_spec (Z.abs b) (2 ^ 53)); [|lia].
    reflexivity.
  - intros z Hz. cbn. unfold int.
    destruct (Z.leb_spec (Z.abs z) (2 ^ 53)); [|lia].
    by rewrite roundFloat32_exact.
Qed.

(** ** Loops *)

Lemma range_length n : length (range n) = Z.to_nat n.
Proof. unfold range. by rewrite length_fmap, length_seq. Qed.

Lemma range_succ n : 0 <= n -> range (n + 1) = range n ++ [n].
Proof.
  intros Hn. unfold range.
  replace (Z.to_nat (n + 1)) with (S (Z.to_nat n)) by lia.
  rewrite seq_S, fmap_app. simpl. f_equal. f_equal. lia.
Qed.

Lemma for_nonpos {St : Type} n (body : Z -> St -> St) s :
  n <= 0 -> for_ n body s = s.
Proof.
  intros Hn. unfold for_, range.
  replace (Z.to_nat n) with 0%nat by lia. done.
Qed.

Lemma for_succ {St : Type} n (body : Z -> St -> St) s :
  0 <= n -> for_ (n + 1) body s = body n (for_ n body s).
Proof.
  intros Hn. unfold for_. rewrite range_succ by done.
  by rewrite fold_left_app.
Qed.

(** The rule of a loop invariant. *)
Lemma for_invariant {St : Type} (P : Z -> St -> Prop) n (body : Z -> St -> St) s :
  P 0 s ->
  (forall i s, 0 <= i < n -> P i s -> P (i + 1) (body i s)) ->
  P (Z.max 0 n) (for_ n body s).
Proof.
  intros H0 Hstep.
  destruct (Z.le_gt_cases n 0) as [Hn|Hn].
  { rewrite for_nonpos by done. by replace (Z.max 0 n) with 0 by lia. }
  replace (Z.max 0 n) with n by lia.
  assert (forall m : nat, Z.of_nat m <= n ->
            P (Z.of_nat m) (for_ (Z.of_nat m) body s)) as Hm.
  { induction m as [|m IH]; intros Hle.
    - by rewrite for_nonpos.
    - replace (Z.of_nat (S m)) with (Z.of_nat m + 1) by lia.
      rewrite for_succ by lia. apply Hstep; [lia|]. apply IH. lia. }
  specialize (Hm (Z.to_nat n)). rewrite Z2Nat.id in Hm by lia. apply Hm. lia.
Qed.

(** Two loops with the same body on the counters they run through. *)
Lemma for_ext {St : Type} n (body body' : Z -> St -> St) s :
  (forall i s, 0 <= i < n -> body i s = body' i s) ->
  for_ n body s = for_ n body' s.
Proof.
  intros Hb.
  destruct (Z.le_gt_cases n 0) as [Hn|Hn].
  { by rewrite !for_nonpos. }
  pose proof (for_invariant (fun i r => r = for_ i body' s) n body s) as Hinv.
  replace (Z.max 0 n) with n in Hinv by lia. apply Hinv.
  - by rewrite for_nonpos.
  - intros i r Hi ->. rewrite for_succ by lia. by rewrite Hb.
Qed.

(** ** Writes into a typed array

    Every loop of the source that fills a buffer is a patch, each index
    being written by one round. *)

Section Patches.
Context {A : Type} `{JsNumber A} `{JsEngine}.

Lemma patched_length cond val (l l' : list A) :
  patched cond val l l' -> length l' = length l.
Proof.
  intros Hp.
  assert (forall k, is_Some (l' !! k) <-> is_Some (l !! k)) as Hk.
  { intros k. rewrite (Hp k). destruct (cond k); [|done].
    by rewrite fmap_is_Some. }
  apply Nat.le_antisymm.
  - destruct (decide (length l' <= length l)%nat) as [|Hn]; [done|].
    assert (is_Some (l' !! length l)) as Hs by (apply lookup_lt_is_Some; lia).
    apply Hk, lookup_lt_is_Some in Hs. lia.
  - destruct (decide (length l <= length l')%nat) as [|Hn]; [done|].
    assert (is_Some (l !! length l')) as Hs by (apply lookup_lt_is_Some; lia).
    apply Hk, lookup_lt_is_Some in Hs. lia.
Qed.

Lemma patched_refl val (l : list A) : patched (fun _ => false) val l l.
Proof. by intros k. Qed.

Lemma patched_ext cond cond' val val' (l l' : list A) :
  (forall k, (k < length l)%nat -> cond k = cond' k) ->
  (forall k, cond k = true -> val k = val' k) ->
  patched cond val l l' -> patched cond' val' l l'.
Proof.
  intros Hc Hv Hp k. rewrite (Hp k).
  destruct (decide (k < length l)%nat) as [Hk|Hk].
  - rewrite <- (Hc k Hk). destruct (cond k) eqn:E; [|done].
    by rewrite (Hv k E).
  - rewrite (lookup_ge_None_2 l k) by lia. by destruct (cond k), (cond' k).
Qed.

Lemma patched_comp c1 c2 val (l l1 l2 : list A) :
  patched c1 val l l1 -> patched c2 val l1 l2 ->
  patched (fun k => c1 k || c2 k) val l l2.
Proof.
  intros H1 H2 k. rewrite (H2 k), (H1 k).
  destruct (c1 k), (c2 k); simpl; try done.
  by destruct (l !! k).
Qed.

Lemma patched_set val (l : list A) i v :
  (0 <= i -> v = val (Z.to_nat i)) ->
  patched (fun k => Z.of_nat k =? i) val l (set l i v).
Proof.
  intros Hv k. unfold set.
  destruct (Z.leb_spec 0 i) as [Hi|Hi].
  - destruct (Z.eqb_spec (Z.of_nat k) i) as [Hk|Hk].
    + replace (Z.to_nat i) with k by lia.
      rewrite Hv by done. replace (Z.to_nat i) with k by lia.
      destruct (decide (k < length l)%nat).
      * rewrite list_lookup_insert_eq by done.
        by destruct (lookup_lt_is_Some_2 l k) as [? ->].
      * rewrite list_insert_ge by lia. by rewrite lookup_ge_None_2 by lia.
    + rewrite list_lookup_insert_ne by lia. done.
  - destruct (Z.eqb_spec (Z.of_nat k) i); [lia|done].
Qed.

(** A loop whose round [i] writes the indices [k] with [sel k = i] (among
    those allowed by [P]) writes, after [n] rounds, those with
    [0 <= sel k < n]. *)
Lemma patched_for n (body : Z -> list A -> list A) (sel : nat -> Z)
    (P : nat -> bool) val :
  (forall i l, 0 <= i < n ->
     patched (fun k => (sel k =? i) && P k) val l (body i l)) ->
  forall l, patched (fun k => (0 <=? sel k) && (sel k <? n) && P k) val l
              (for_ n body l).
Proof.
  intros Hbody l.
  pose proof (for_invariant
    (fun i r => patched (fun k => (0 <=? sel k) && (sel k <? i) && P k) val l r)
    n body l) as Hinv.
  assert (patched (fun k => (0 <=? sel k) && (sel k <? Z.max 0 n) && P k) val l
            (for_ n body l)) as Hmax.
  { apply Hinv.
    - eapply patched_ext; [| |apply patched_refl]; [|done].
      intros k _. simpl. destruct (Z.leb_spec 0 (sel k)), (Z.ltb_spec (sel k) 0);
        simpl; try done; lia.
    - intros i r Hi Hr.
      eapply patched_ext; [| |exact (patched_comp _ _ _ _ _ _ Hr (Hbody i r Hi))].
      + intros k _. simpl.
        destruct (Z.leb_spec 0 (sel k)), (Z.ltb_spec (sel k) i),
          (Z.ltb_spec (sel k) (i + 1)), (Z.eqb_spec (sel k) i), (P k);
          simpl; try done; lia.
      + done. }
  eapply patched_ext; [| |exact Hmax]; [|done].
  intros k _. simpl.
  destruct (Z.leb_spec 0 (sel k)), (Z.ltb_spec (sel k) n),
    (Z.ltb_spec (sel k) (Z.max 0 n)); simpl; try done; lia.
Qed.

End Patches.

(** ** Row-major indices *)

Lemma inRange_true n z : inRange n z = true <-> 0 <= z < n.
Proof. unfold inRange. rewrite andb_true_iff, Z.leb_le, Z.ltb_lt. done. Qed.

(** The digits of a flat index in the mixed radix [(T, C)]. *)
Lemma radix_decode T C k b t c :
  0 <= t < T -> 0 <= c < C ->
  k = (b * T + t) * C + c <->
  k / C / T = b /\ (k / C) mod T = t /\ k mod C = c.
Proof.
  intros Ht Hc. split.
  - intros ->.
    assert (((b * T + t) * C + c) / C = b * T + t) as Hq.
    { symmetry. apply (Z.div_unique _ _ _ c); lia. }
    assert (((b * T + t) * C + c) mod C = c) as Hr.
    { symmetry. apply (Z.mod_unique _ _ (b * T + t)); lia. }
    rewrite Hq, Hr. repeat split.
    + symmetry. apply (Z.div_unique _ _ _ t); lia.
    + symmetry. apply (Z.mod_unique _ _ b); lia.
  - intros (Hb & Ht' & Hc').
    pose proof (Z.div_mod k C ltac:(lia)) as H1.
    pose proof (Z.div_mod (k / C) T ltac:(lia)) as H2.
    rewrite Hb, Ht' in H2. rewrite Hc' in H1. rewrite H2 in H1. lia.
Qed.

Lemma radix_decode_bool T C k b t c :
  0 <= t < T -> 0 <= c < C ->
  (k =? (b * T + t) * C + c)
  = (k / C / T =? b) && ((k / C) mod T =? t) && (k mod C =? c).
Proof.
  intros Ht Hc. apply eq_true_iff_eq.
  rewrite !andb_true_iff, !Z.eqb_eq, radix_decode by done. tauto.
Qed.

(** Every index below [B * T * C] has its three digits in range. *)
Lemma radix_inRange B T C k :
  0 <= k < B * T * C -> 0 <= B -> 0 <= T -> 0 <= C ->
  0 <= k / C / T < B /\ 0 <= (k / C) mod T < T /\ 0 <= k mod C < C.
Proof.
  intros Hk HB HT HC.
  assert (0 < C) by nia. assert (0 < T) by nia.
  pose proof (Z.mod_pos_bound k C ltac:(lia)).
  pose proof (Z.mod_pos_bound (k / C) T ltac:(lia)).
  assert (0 <= k / C) by (apply Z.div_pos; lia).
  assert (0 <= k / C / T) by (apply Z.div_pos; lia).
  repeat split; try lia.
  apply Z.div_lt_upper_bound; [lia|].
  apply Z.div_lt_upper_bound; [lia|]. nia.
Qed.

Section NestedLoops.
Context {A : Type} `{JsNumber A} `{JsEngine}.

(** Two nested loops of patches. *)
Lemma patched_for2 B T (inner : Z -> Z -> list A -> list A)
    (sb st : nat -> Z) (P : nat -> bool) val :
  (forall b t l, 0 <= b < B -> 0 <= t < T ->
     patched (fun k => (sb k =? b) && (st k =? t) && P k) val l (inner b t l)) ->
  forall l,
    patched (fun k => inRange B (sb k) && inRange T (st k) && P k) val l
      (for_ B (fun b => for_ T (fun t => inner b t)) l).
Proof.
  intros Hin l.
  eapply patched_ext;
    [| |apply (patched_for B _ sb (fun k => inRange T (st k) && P k) val)].
  - intros k _. cbv beta. unfold inRange. by rewrite <- !andb_assoc.
  - done.
  - intros b l' Hb.
    eapply patched_ext;
      [| |apply (patched_for T _ st (fun k => (sb k =? b) && P k) val)].
    + intros k _. cbv beta. unfold inRange.
      destruct (sb k =? b), (0 <=? st k), (st k <? T), (P k); done.
    + done.
    + intros t l'' Ht.
      eapply patched_ext; [| |apply (Hin b t l'' Hb Ht)]; [|done].
      intros k _. cbv beta. destruct (sb k =? b), (st k =? t), (P k); done.
Qed.

(** Three nested loops whose body is one write at the index [idx b t c],
    where [db], [dt] and [dc] recover the counters from the index. *)
Lemma patched_for3 B T C (idx : Z -> Z -> Z -> Z) (V : Z -> Z -> Z -> A)
    (db dt dc : nat -> Z) :
  (forall k b t c, 0 <= b < B -> 0 <= t < T -> 0 <= c < C ->
     (Z.of_nat k =? idx b t c) = (db k =? b) && (dt k =? t) && (dc k =? c)) ->
  forall l,
    patched (fun k => inRange B (db k) && inRange T (dt k) && inRange C (dc k))
      (fun k => V (db k) (dt k) (dc k)) l
      (for_ B (fun b => for_ T (fun t => for_ C (fun c newData =>
         set newData (idx b t c) (V b t c)))) l).
Proof.
  intros Hidx l.
  apply (patched_for2 B T
    (fun b t => for_ C (fun c newData => set newData (idx b t c) (V b t c)))
    db dt (fun k => inRange C (dc k))).
  intros b t l' Hb Ht.
  eapply patched_ext;
    [| |apply (patched_for C _ dc (fun k => (db k =? b) && (dt k =? t))
                 (fun k => V (db k) (dt k) (dc k)))].
  - intros k _. cbv beta. unfold inRange.
    destruct (db k =? b), (dt k =? t), (0 <=? dc k), (dc k <? C); done.
  - done.
  - intros c l'' Hc.
    eapply patched_ext; [| |apply (patched_set _ l'' (idx b t c) (V b t c))].
    + intros k _. cbv beta. rewrite (Hidx k b t c) by done.
      destruct (db k =? b), (dt k =? t), (dc k =? c); done.
    + done.
    + intros Hpos.
      pose proof (Hidx (Z.to_nat (idx b t c)) b t c Hb Ht Hc) as Hk.
      rewrite Z2Nat.id in Hk by done. rewrite Z.eqb_refl in Hk.
      symmetry in Hk. rewrite !andb_true_iff, !Z.eqb_eq in Hk.
      destruct Hk as [[-> ->] ->]. done.
Qed.

End NestedLoops.

(** ** Transposition *)

Section TransposeFacts.
Context {A : Type} `{JsNumber A} `{JsEngine}.

(** The buffer written by [transpose(tensor, 1, 2)] on dimensions
    [(B, T, C)]: the element at [dstIdx] is read at [srcIdx]. *)
Lemma transpose_12 (tensor : Tensor A) B T C :
  shape tensor = [B; T; C] ->
  exists newData,
    TensorUtils.transpose tensor 1 2
    = Ret (mkTensor newData [B; C; T] (device tensor) (dtype tensor))
    /\ patched
         (fun k => inRange B (Z.of_nat k / T / C)
                   && inRange T (Z.of_nat k mod T)
                   && inRange C ((Z.of_nat k / T) mod C))
         (fun k => get (data tensor)
                     (TensorUtils.srcIdx T C (Z.of_nat k / T / C)
                        (Z.of_nat k mod T) ((Z.of_nat k / T) mod C)))
         (newArrayOfLength (length (data tensor))) newData.
Proof.
  intros Hs. unfold TensorUtils.transpose. rewrite Hs. cbn [Z.eqb Pos.eqb andb orb].
  eexists. split; [reflexivity|].
  apply (patched_for3 B T C (TensorUtils.dstIdx T C)
           (fun b t c => get (data tensor) (TensorUtils.srcIdx T C b t c))
           (fun k => Z.of_nat k / T / C) (fun k => Z.of_nat k mod T)
           (fun k => (Z.of_nat k / T) mod C)).
  intros k b t c Hb Ht Hc. unfold TensorUtils.dstIdx.
  replace (b * C * T + c * T + t) with ((b * C + c) * T + t) by ring.
  rewrite radix_decode_bool by done.
  destruct (Z.of_nat k / T / C =? b), ((Z.of_nat k / T) mod C =? c),
    (Z.of_nat k mod T =? t); done.
Qed.

(** The buffer written by [transpose(tensor, 2, 1)]: the element at
    [srcIdx] is read at [dstIdx]. *)
Lemma transpose_21 (tensor : Tensor A) B T C :
  shape tensor = [B; T; C] ->
  exists newData,
    TensorUtils.transpose tensor 2 1
    = Ret (mkTensor newData [B; T; C] (device tensor) (dtype tensor))
    /\ patched
         (fun k => inRange B (Z.of_nat k / C / T)
                   && inRange T ((Z.of_nat k / C) mod T)
                   && inRange C (Z.of_nat k mod C))
         (fun k => get (data tensor)
                     (TensorUtils.dstIdx T C (Z.of_nat k / C / T)
                        ((Z.of_nat k / C) mod T) (Z.of_nat k mod C)))
         (newArrayOfLength (length (data tensor))) newData.
Proof.
  intros Hs. unfold TensorUtils.transpose. rewrite Hs. cbn [Z.eqb Pos.eqb andb orb].
  eexists. split; [reflexivity|].
  apply (patched_for3 B T C (TensorUtils.srcIdx T C)
           (fun b t c => get (data tensor) (TensorUtils.dstIdx T C b t c))
           (fun k => Z.of_nat k / C / T) (fun k => (Z.of_nat k / C) mod T)
           (fun k => Z.of_nat k mod C)).
  intros k b t c Hb Ht Hc. unfold TensorUtils.srcIdx.
  replace (b * T * C + t * C + c) with ((b * T + t) * C + c) by ring.
  by rewrite radix_decode_bool.
Qed.

End TransposeFacts.

Section FullPatches.
Context {A : Type} `{JsNumber A} `{JsEngine}.

(** A fresh array every index of which is written. *)
Lemma patched_full cond val n (l' : list A) :
  patched cond val (newArrayOfLength n) l' ->
  (forall k, (k < n)%nat -> cond k = true) ->
  length l' = n /\ forall k, (k < n)%nat -> l' !! k = Some (val k).
Proof.
  intros Hp Hc. split.
  - rewrite (patched_length _ _ _ _ Hp). apply length_replicate.
  - intros k Hk. rewrite (Hp k), (Hc k Hk).
    unfold newArrayOfLength. by rewrite lookup_replicate_2.
Qed.

Lemma get_patched_full cond val n (l' : list A) z :
  patched cond val (newArrayOfLength n) l' ->
  (forall k, (k < n)%nat -> cond k = true) ->
  0 <= z < Z.of_nat n ->
  get l' z = val (Z.to_nat z).
Proof.
  intros Hp Hc Hz. destruct (patched_full _ _ _ _ Hp Hc) as [_ Hl].
  unfold get. destruct (Z.leb_spec 0 z); [|lia].
  rewrite Hl by lia. done.
Qed.

Lemma get_lookup (l : list A) k x : l !! k = Some x -> get l (Z.of_nat k) = x.
Proof.
  intros Hk. unfold get. destruct (Z.leb_spec 0 (Z.of_nat k)); [|lia].
  by rewrite Nat2Z.id, Hk.
Qed.

(** Two lists that agree below their common length are equal. *)
Lemma list_eq_below (l l' : list A) :
  length l' = length l ->
  (forall k x, l !! k = Some x -> l' !! k = Some x) ->
  l' = l.
Proof.
  intros Hlen Hk. apply list_eq. intros k.
  destruct (l !! k) as [x|] eqn:E.
  - by apply Hk.
  - apply lookup_ge_None. apply lookup_ge_None in E. lia.
Qed.

End FullPatches.

Lemma product_3 B T C : product [B; T; C] = B * T * C.
Proof. unfold product. simpl. lia. Qed.

Lemma shape_3 (shape : list Z) :
  length shape = 3%nat -> exists B T C, shape = [B; T; C].
Proof.
  destruct shape as [|B [|T [|C [|? ?]]]]; try done. intros _. by exists B, T, C.
Qed.

(** The two flat indices and their digits. *)
Lemma srcIdx_digits T C b t c :
  0 <= t < T -> 0 <= c < C ->
  TensorUtils.srcIdx T C b t c / C / T = b
  /\ (TensorUtils.srcIdx T C b t c / C) mod T = t
  /\ TensorUtils.srcIdx T C b t c mod C = c.
Proof.
  intros Ht Hc. apply radix_decode; [done..|]. unfold TensorUtils.srcIdx. ring.
Qed.

Lemma dstIdx_digits T C b t c :
  0 <= t < T -> 0 <= c < C ->
  TensorUtils.dstIdx T C b t c / T / C = b
  /\ (TensorUtils.dstIdx T C b t c / T) mod C = c
  /\ TensorUtils.dstIdx T C b t c mod T = t.
Proof.
  intros Ht Hc. apply radix_decode; [done..|]. unfold TensorUtils.dstIdx. ring.
Qed.

Lemma srcIdx_of_digits T C k :
  0 < T -> 0 < C ->
  TensorUtils.srcIdx T C (k / C / T) ((k / C) mod T) (k mod C) = k.
Proof.
  intros HT HC. symmetry.
  transitivity ((k / C / T * T + (k / C) mod T) * C + k mod C).
  - apply radix_decode; [apply Z.mod_pos_bound; lia..|done].
  - unfold TensorUtils.srcIdx. ring.
Qed.

Lemma dstIdx_of_digits T C k :
  0 < T -> 0 < C ->
  TensorUtils.dstIdx T C (k / T / C) (k mod T) ((k / T) mod C) = k.
Proof.
  intros HT HC. symmetry.
  transitivity ((k / T / C * C + (k / T) mod C) * T + k mod T).
  - apply radix_decode; [apply Z.mod_pos_bound; lia..|done].
  - unfold TensorUtils.dstIdx. ring.
Qed.

Lemma srcIdx_bound B T C b t c :
  0 <= b < B -> 0 <= t < T -> 0 <= c < C ->
  0 <= TensorUtils.srcIdx T C b t c < B * T * C.
Proof.
  intros Hb Ht Hc. unfold TensorUtils.srcIdx.
  assert (b * T + t + 1 <= B * T) by nia.
  assert ((b * T + t + 1) * C <= B * T * C) by (apply Z.mul_le_mono_nonneg_r; lia).
  assert (0 <= b * T) by nia. assert (0 <= b * T * C) by nia.
  assert (0 <= t * C) by nia.
  split; [lia|]. 
  replace (b * T * C + t * C + c) with ((b * T + t + 1) * C - C + c) by ring. lia.
Qed.

Lemma dstIdx_bound B T C b t c :
  0 <= b < B -> 0 <= t < T -> 0 <= c < C ->
  0 <= TensorUtils.dstIdx T C b t c < B * T * C.
Proof.
  intros Hb Ht Hc. unfold TensorUtils.dstIdx.
  assert (b * C + c + 1 <= B * C) by nia.
  assert ((b * C + c + 1) * T <= B * C * T) by (apply Z.mul_le_mono_nonneg_r; lia).
  assert (0 <= b * C) by nia. assert (0 <= b * C * T) by nia.
  assert (0 <= c * T) by nia.
  split; [lia|].
  replace (b * C * T + c * T + t) with ((b * C + c + 1) * T - T + t) by ring.
  replace (B * T * C) with (B * C * T) by ring. lia.
Qed.

Section Inverse.
Context {A : Type} `{JsNumber A} `{JsEngine}.

(** Two full rewritings of a buffer, the second reading where the first
    wrote, give the buffer back. *)
Lemma patches_inverse n (d l1 l2 : list A) c1 c2 (f1 f2 : nat -> Z) :
  length d = n ->
  patched c1 (fun k => get d (f1 k)) (newArrayOfLength n) l1 ->
  patched c2 (fun k => get l1 (f2 k)) (newArrayOfLength n) l2 ->
  (forall k, (k < n)%nat ->
     c1 k = true /\ c2 k = true /\ 0 <= f2 k < Z.of_nat n
     /\ f1 (Z.to_nat (f2 k)) = Z.of_nat k) ->
  l2 = d.
Proof.
  intros Hd H1 H2 Hk.
  destruct (patched_full _ _ _ _ H2 (fun k Hlt => proj1 (proj2 (Hk k Hlt))))
    as [Hlen2 Hl2].
  apply list_eq_below; [lia|].
  intros k x Hx.
  assert (k < n)%nat as Hlt by (apply lookup_lt_Some in Hx; lia).
  destruct (Hk k Hlt) as (_ & _ & Hf2 & Hf1).
  rewrite Hl2 by done. f_equal.
  rewrite (get_patched_full _ _ _ _ _ H1 (fun k Hlt => proj1 (Hk k Hlt)) Hf2).
  rewrite Hf1. by apply get_lookup.
Qed.

End Inverse.

Section TransposeTheorems.
Context {A : Type} `{JsNumber A} `{JsEngine}.

Lemma wellFormed_3 (t : Tensor A) B T C :
  wellFormed t -> shape t = [B; T; C] ->
  0 <= B /\ 0 <= T /\ 0 <= C /\ Z.of_nat (length (data t)) = B * T * C.
Proof.
  intros [Hpos Hlen] Hs. rewrite Hs in Hpos, Hlen. rewrite product_3 in Hlen.
  inversion Hpos as [|? ? HB Hpos1]; subst.
  inversion Hpos1 as [|? ? HT Hpos2]; subst.
  inversion Hpos2 as [|? ? HC _]; subst. done.
Qed.

(** The side conditions of [patches_inverse] for [transpose(_, 1, 2)]
    followed by the rewriting that reads at [dstIdx]. *)
Lemma inverse_12_then_21 B T C (k n : nat) :
  0 <= B -> 0 <= T -> 0 <= C -> Z.of_nat n = B * T * C -> (k < n)%nat ->
  inRange B (Z.of_nat k / T / C) && inRange T (Z.of_nat k mod T)
    && inRange C ((Z.of_nat k / T) mod C) = true
  /\ inRange B (Z.of_nat k / C / T) && inRange T ((Z.of_nat k / C) mod T)
       && inRange C (Z.of_nat k mod C) = true
  /\ 0 <= TensorUtils.dstIdx T C (Z.of_nat k / C / T)
            ((Z.of_nat k / C) mod T) (Z.of_nat k mod C) < Z.of_nat n
  /\ (let k' := Z.of_nat (Z.to_nat
                  (TensorUtils.dstIdx T C (Z.of_nat k / C / T)
                     ((Z.of_nat k / C) mod T) (Z.of_nat k mod C))) in
      TensorUtils.srcIdx T C (k' / T / C) (k' mod T) ((k' / T) mod C))
     = Z.of_nat k.
Proof.
  intros HB HT HC Hn Hk.
  assert (0 <= Z.of_nat k < B * T * C) as Hk1 by lia.
  assert (0 <= Z.of_nat k < B * C * T) as Hk2 by lia.
  destruct (radix_inRange B T C _ Hk1 HB HT HC) as (Hb & Ht & Hc).
  destruct (radix_inRange B C T _ Hk2 HB HC HT) as (Hb' & Hc' & Ht').
  pose proof (dstIdx_bound B T C _ _ _ Hb Ht Hc) as Hd.
  destruct (dstIdx_digits T C (Z.of_nat k / C / T) _ _ Ht Hc) as (E1 & E2 & E3).
  repeat split; try lia.
  - rewrite !andb_true_iff, !inRange_true. done.
  - rewrite !andb_true_iff, !inRange_true. done.
  - cbv zeta. rewrite Z2Nat.id by lia. rewrite E1, E2, E3.
    apply srcIdx_of_digits; lia.
Qed.

(** The same for the rewriting that reads at [dstIdx] followed by
    [transpose(_, 1, 2)]. *)
Lemma inverse_21_then_12 B T C (k n : nat) :
  0 <= B -> 0 <= T -> 0 <= C -> Z.of_nat n = B * T * C -> (k < n)%nat ->
  inRange B (Z.of_nat k / C / T) && inRange T ((Z.of_nat k / C) mod T)
    && inRange C (Z.of_nat k mod C) = true
  /\ inRange B (Z.of_nat k / T / C) && inRange T (Z.of_nat k mod T)
       && inRange C ((Z.of_nat k / T) mod C) = true
  /\ 0 <= TensorUtils.srcIdx T C (Z.of_nat k / T / C)
            (Z.of_nat k mod T) ((Z.of_nat k / T) mod C) < Z.of_nat n
  /\ (let k' := Z.of_nat (Z.to_nat
                  (TensorUtils.srcIdx T C (Z.of_nat k / T / C)
                     (Z.of_nat k mod T) ((Z.of_nat k / T) mod C))) in
      TensorUtils.dstIdx T C (k' / C / T) ((k' / C) mod T) (k' mod C))
     = Z.of_nat k.
Proof.
  intros HB HT HC Hn Hk.
  assert (0 <= Z.of_nat k < B * T * C) as Hk1 by lia.
  assert (0 <= Z.of_nat k < B * C * T) as Hk2 by lia.
  destruct (radix_inRange B T C _ Hk1 HB HT HC) as (Hb & Ht & Hc).
  destruct (radix_inRange B C T _ Hk2 HB HC HT) as (Hb' & Hc' & Ht').
  pose proof (srcIdx_bound B T C _ _ _ Hb' Ht' Hc') as Hd.
  destruct (srcIdx_digits T C (Z.of_nat k / T / C) _ _ Ht' Hc') as (E1 & E2 & E3).
  repeat split; try lia.
  - rewrite !andb_true_iff, !inRange_true. done.
  - rewrite !andb_true_iff, !inRange_true. done.
  - cbv zeta. rewrite Z2Nat.id by lia. rewrite E1, E2, E3.
    apply dstIdx_of_digits; lia.
Qed.

(** C6.  For every well-formed tensor [t] of rank 3, [transpose(t, 1, 2)]
    returns a tensor [u], and [transpose(u, 1, 2)] returns a tensor equal to
    [t]: same buffer contents, same shape, same device and element type. *)
Theorem transpose_round_trip (t : Tensor A) :
  wellFormed t -> length (shape t) = 3%nat ->
  exists u, TensorUtils.transpose t 1 2 = Ret u
            /\ TensorUtils.transpose u 1 2 = Ret t.
Proof.
  intros Hwf Hrank.
  destruct (shape_3 _ Hrank) as (B & T & C & Hs).
  destruct (wellFormed_3 t B T C Hwf Hs) as (HB & HT & HC & Hlen).
  destruct (transpose_12 t B T C Hs) as (d1 & E1 & P1).
  eexists. split; [exact E1|].
  destruct (transpose_12 (mkTensor d1 [B; C; T] (device t) (dtype t)) B C T eq_refl)
    as (d2 & E2 & P2).
  rewrite E2. f_equal. cbn [data device dtype] in *.
  assert (length d1 = length (data t)) as Hl1.
  { rewrite (patched_length _ _ _ _ P1). apply length_replicate. }
  rewrite Hl1 in P2.
  assert (d2 = data t) as ->.
  { eapply (patches_inverse (length (data t)) (data t) d1 d2); [done|exact P1| |].
    - eapply patched_ext; [| |exact P2]; [done|]. intros k _. reflexivity.
    - intros k Hk. cbv beta.
      destruct (inverse_12_then_21 B T C k _ HB HT HC Hlen Hk) as (C1 & C2 & R & I).
      split; [exact C1|]. split.
      { rewrite <- C2.
        destruct (inRange B (Z.of_nat k / C / T)),
          (inRange T ((Z.of_nat k / C) mod T)), (inRange C (Z.of_nat k mod C)); done. }
      unfold TensorUtils.srcIdx, TensorUtils.dstIdx in *. cbv zeta in I.
      split.
      + exact R.
      + exact I. }
  destruct t. cbn in *. by subst.
Qed.

(** C10.  For every tensor [t] of rank 3, [transpose(t, 2, 1)] returns a
    tensor [r] (it does not throw) whose shape is the shape of [t], with
    the device and the element type of [t]; and when [t] is well-formed, of
    shape [[B, T, C]], the buffer of [r] is the buffer of [t] permuted by
    the inverse of the permutation of [transpose(_, 1, 2)] on the same
    dimensions: the element of [r] at the index [b * T * C + i * C + c] is
    the element of [t] at [b * C * T + c * T + i], where
    [transpose(_, 1, 2)] sends the former index to the latter.  So
    transposing [r] by (1, 2) gives back the elements of [t], and the
    elements of [transpose(t, 1, 2)], read under the shape of [t] and
    transposed by (2, 1), give back [t]. *)
Theorem transpose_reversed_axes (t : Tensor A) :
  length (shape t) = 3%nat ->
  exists r,
    TensorUtils.transpose t 2 1 = Ret r
    /\ shape r = shape t
    /\ device r = device t /\ dtype r = dtype t
    /\ length (data r) = length (data t)
    /\ (wellFormed t ->
        (forall B T C, shape t = [B; T; C] ->
           forall b i c, 0 <= b < B -> 0 <= i < T -> 0 <= c < C ->
             get (data r) (b * T * C + i * C + c)
             = get (data t) (b * C * T + c * T + i))
        /\ (exists u, TensorUtils.transpose r 1 2 = Ret u /\ data u = data t)
        /\ (forall u, TensorUtils.transpose t 1 2 = Ret u ->
              TensorUtils.transpose (withData t (data u)) 2 1 = Ret t)).
Proof.
  intros Hrank.
  destruct (shape_3 _ Hrank) as (B & T & C & Hs).
  destruct (transpose_21 t B T C Hs) as (d1 & E1 & P1).
  assert (length d1 = length (data t)) as Hl1.
  { rewrite (patched_length _ _ _ _ P1). apply length_replicate. }
  eexists. split; [exact E1|]. split; [by rewrite Hs|].
  split; [done|]. split; [done|]. split; [done|].
  intros Hwf.
  destruct (wellFormed_3 t B T C Hwf Hs) as (HB & HT & HC & Hlen).
  split; [|split].
  - intros B' T' C' Hs' b i c Hb Hi Hc.
    rewrite Hs in Hs'. injection Hs' as <- <- <-. cbn [data].
    assert (forall k, (k < length (data t))%nat ->
              inRange B (Z.of_nat k / C / T)
              && inRange T ((Z.of_nat k / C) mod T)
              && inRange C (Z.of_nat k mod C) = true) as Hcond.
    { intros k Hk.
      destruct (radix_inRange B T C (Z.of_nat k)) as (H1 & H2 & H3);
        [lia|done..|].
      rewrite !andb_true_iff, !inRange_true. done. }
    pose proof (srcIdx_bound B T C b i c Hb Hi Hc) as Hbd.
    destruct (srcIdx_digits T C b i c Hi Hc) as (D1 & D2 & D3).
    unfold TensorUtils.srcIdx in Hbd, D1, D2, D3.
    rewrite (get_patched_full _ _ _ _ _ P1 Hcond) by lia.
    rewrite Z2Nat.id by lia. by rewrite D1, D2, D3.
  - destruct (transpose_12 (mkTensor d1 [B; T; C] (device t) (dtype t)) B T C eq_refl)
      as (d2 & E2 & P2).
    eexists. split; [exact E2|]. cbn [data] in *. rewrite Hl1 in P2.
    eapply (patches_inverse (length (data t)) (data t) d1 d2); [done|exact P1|exact P2|].
    intros k Hk. cbv beta.
    destruct (inverse_21_then_12 B T C k _ HB HT HC Hlen Hk) as (C1 & C2 & R & I).
    done.
  - intros u Eu.
    destruct (transpose_12 t B T C Hs) as (d1' & E1' & P1').
    rewrite E1' in Eu. injection Eu as <-. cbn [data].
    assert (length d1' = length (data t)) as Hl1'.
    { rewrite (patched_length _ _ _ _ P1'). apply length_replicate. }
    destruct (transpose_21 (withData t d1') B T C Hs) as (d2 & E2 & P2).
    rewrite E2. cbn [withData data device dtype] in *. rewrite Hl1' in P2.
    assert (d2 = data t) as ->.
    { eapply (patches_inverse (length (data t)) (data t) d1' d2);
        [done|exact P1'|exact P2|].
      intros k Hk. cbv beta.
      destruct (inverse_12_then_21 B T C k _ HB HT HC Hlen Hk) as (C1 & C2 & R & I).
      done. }
    destruct t. cbn in *. by subst.
Qed.

End TransposeTheorems.

(** ** Loops over one buffer *)

Section BufferLoops.
Context {A : Type} `{JsNumber A} `{JsEngine}.

Lemma length_set (arr : list A) i v : length (set arr i v) = length arr.
Proof. unfold set. destruct (0 <=? i); [apply length_insert|done]. Qed.

Lemma for_length n (body : Z -> list A -> list A) l :
  (forall i l, 0 <= i < n -> length (body i l) = length l) ->
  length (for_ n body l) = length l.
Proof.
  intros Hb.
  apply (for_invariant (fun _ r => length r = length l)); [done|].
  intros i r Hi Hr. by rewrite Hb.
Qed.

Lemma newArray_nonneg size :
  0 <= size -> fits size ->
  newArray (A := A) size = Ret (newArrayOfLength (Z.to_nat size)).
Proof.
  intros Hs Hf. unfold newArray, fits in *.
  destruct (Z.ltb_spec size 0); [lia|].
  destruct (Z.ltb_spec (Z.pos maxLength) size); [lia|done].
Qed.

Lemma newArray_neg size :
  size < 0 \/ ~ fits size -> newArray (A := A) size = Throw InvalidArrayLength.
Proof.
  intros Hs. unfold newArray, fits in *.
  destruct (Z.ltb_spec size 0); [done|].
  destruct (Z.ltb_spec (Z.pos maxLength) size); [done|lia].
Qed.

(** Whether [new Float32Array(size)] returns. *)
Lemma newArray_cases size :
  (0 <= size /\ fits size
   /\ newArray (A := A) size = Ret (newArrayOfLength (Z.to_nat size)))
  \/ ((size < 0 \/ ~ fits size)
      /\ newArray (A := A) size = Throw InvalidArrayLength).
Proof.
  destruct (Z.lt_ge_cases size 0) as [Hn|Hp].
  { right. split; [by left|]. apply newArray_neg. by left. }
  destruct (Z.le_gt_cases size (Z.pos maxLength)) as [Hf|Hf].
  - left. split; [done|]. split; [done|]. by apply newArray_nonneg.
  - right. assert (~ fits size) by (unfold fits; lia).
    split; [by right|]. apply newArray_neg. by right.
Qed.

Lemma fits_one : fits 1.
Proof. unfold fits. lia. Qed.

(** [for (i = 0; i < n; i++) if (c(i)) arr[i] = g(arr[i])]: every index is
    visited once, so the element read is the original one. *)
Lemma for_update n (c : Z -> bool) (g : A -> A) (l : list A) :
  forall k,
    for_ n (fun i arr => if c i then set arr i (g (get arr i)) else arr) l !! k
    = if inRange n (Z.of_nat k) && c (Z.of_nat k) then g <$> l !! k else l !! k.
Proof.
  pose proof (for_invariant
    (fun i r => forall k,
       r !! k = if inRange i (Z.of_nat k) && c (Z.of_nat k)
                then g <$> l !! k else l !! k)
    n (fun i arr => if c i then set arr i (g (get arr i)) else arr) l) as Hinv.
  assert (forall k,
    for_ n (fun i arr => if c i then set arr i (g (get arr i)) else arr) l !! k
    = if inRange (Z.max 0 n) (Z.of_nat k) && c (Z.of_nat k)
      then g <$> l !! k else l !! k) as Hmax.
  { apply Hinv.
    - intros k. unfold inRange.
      destruct (Z.leb_spec 0 (Z.of_nat k)), (Z.ltb_spec (Z.of_nat k) 0);
        simpl; try done; lia.
    - intros i r Hi Hr k. unfold inRange in *.
      destruct (c i) eqn:Ec.
      + unfold set. destruct (Z.leb_spec 0 i); [|lia].
        destruct (decide (k = Z.to_nat i)) as [->|Hne].
        * rewrite Z2Nat.id by lia. rewrite Ec.
          destruct (Z.leb_spec 0 i), (Z.ltb_spec i (i + 1)); try lia. simpl.
          specialize (Hr (Z.to_nat i)). rewrite Z2Nat.id in Hr by lia.
          destruct (Z.ltb_spec i i); [lia|].
          rewrite andb_false_r in Hr. simpl in Hr.
          destruct (l !! Z.to_nat i) as [x|] eqn:El.
          -- rewrite list_lookup_insert_eq
               by (apply lookup_lt_is_Some; rewrite Hr; eauto).
             unfold get. destruct (Z.leb_spec 0 i); [|lia]. by rewrite Hr.
          -- rewrite list_insert_ge; [by rewrite Hr|].
             apply lookup_ge_None. by rewrite Hr.
        * rewrite list_lookup_insert_ne by done. rewrite Hr.
          destruct (Z.leb_spec 0 (Z.of_nat k)), (Z.ltb_spec (Z.of_nat k) i),
            (Z.ltb_spec (Z.of_nat k) (i + 1)); simpl; try done; lia.
      + rewrite Hr.
        destruct (Z.leb_spec 0 (Z.of_nat k)), (Z.ltb_spec (Z.of_nat k) i),
          (Z.ltb_spec (Z.of_nat k) (i + 1)); simpl; try done; try lia.
        replace (Z.of_nat k) with i by lia. by rewrite Ec. }
  intros k. rewrite Hmax. unfold inRange.
  destruct (Z.leb_spec 0 (Z.of_nat k)), (Z.ltb_spec (Z.of_nat k) n),
    (Z.ltb_spec (Z.of_nat k) (Z.max 0 n)); simpl; try done; lia.
Qed.

(** [for (i = 0; i < n; i++) arr[i] = g(i)] on a fresh array of length [n]. *)
Lemma for_fill (n : nat) (g : Z -> A) :
  let r := for_ (Z.of_nat n) (fun i arr => set arr i (g i)) (newArrayOfLength n) in
  length r = n /\ forall k, (k < n)%nat -> r !! k = Some (g (Z.of_nat k)).
Proof.
  cbv zeta.
  assert (patched (fun k => inRange (Z.of_nat n) (Z.of_nat k))
            (fun k => g (Z.of_nat k)) (newArrayOfLength n)
            (for_ (Z.of_nat n) (fun i arr => set arr i (g i)) (newArrayOfLength n)))
    as Hp.
  { eapply patched_ext;
      [| |apply (patched_for (Z.of_nat n) _ Z.of_nat (fun _ => true)
                   (fun k => g (Z.of_nat k)))].
    - intros k _. cbv beta. unfold inRange. by rewrite andb_true_r.
    - done.
    - intros i l Hi.
      eapply patched_ext; [| |apply (patched_set _ l i (g i))].
      + intros k _. cbv beta. by rewrite andb_true_r.
      + done.
      + intros _. cbv beta. by rewrite Z2Nat.id by lia. }
  apply (patched_full _ _ _ _ Hp).
  intros k Hk. apply inRange_true. lia.
Qed.

End BufferLoops.

(** ** Zero tensors *)

Lemma product_app l1 l2 : product (l1 ++ l2) = product l1 * product l2.
Proof.
  unfold product. rewrite fold_left_app.
  assert (forall l a b, fold_left Z.mul l (a * b) = a * fold_left Z.mul l b) as Hm.
  { induction l as [|x l IH]; intros a b; simpl; [done|].
    rewrite <- IH. f_equal. ring. }
  rewrite <- (Z.mul_1_r (fold_left Z.mul l1 1)) at 1. apply Hm.
Qed.

Lemma product_cons d l : product (d :: l) = d * product l.
Proof. change (d :: l) with ([d] ++ l). rewrite product_app. unfold product. simpl. lia. Qed.

Lemma product_nonneg l : Forall (fun d => 0 <= d) l -> 0 <= product l.
Proof.
  induction 1 as [|d l Hd _ IH]; [done|]. rewrite product_cons. lia.
Qed.

Section ZerosTheorems.
Context {A : Type} `{JsNumber A} `{JsEngine}.

Lemma zeros_nonneg dims device :
  0 <= product dims -> fits (product dims) ->
  TensorUtils.zeros (A := A) dims device
  = Ret (mkTensor (newArrayOfLength (Z.to_nat (product dims))) dims
           (Some (orCpu device)) (Some "float32")).
Proof. intros Hp Hf. unfold TensorUtils.zeros. by rewrite newArray_nonneg. Qed.

(** C8, as the code has it.  [zeros] checks no dimension.  It returns a
    tensor of the requested shape holding [product(shape)] zeros whenever
    that product is a length the array constructor accepts, which includes
    every shape with a zero dimension, and it fails, by the [RangeError] of
    the array constructor, exactly when the product is negative or above
    the limit of the engine.  The same holds of the server's [zeros]. *)
Theorem zeros_outcome (dims : list Z) (device : option string)
    (serverDtype serverDevice : string) :
  match TensorUtils.zeros (A := A) dims device with
  | Ret t => 0 <= product dims <= Z.pos maxLength /\ shape t = dims
             /\ Z.of_nat (length (data t)) = product dims
             /\ Forall (fun x => x = of_Z 0) (data t)
  | Throw e => (product dims < 0 \/ Z.pos maxLength < product dims)
               /\ e = InvalidArrayLength
  | NonInteger => False
  end
  /\ match ServerTensorUtils.zeros (A := A) dims serverDtype serverDevice with
     | Ret t => 0 <= product dims <= Z.pos maxLength /\ shape t = dims
                /\ Z.of_nat (length (data t)) = product dims
                /\ Forall (fun x => x = of_Z 0) (data t)
     | Throw e => (product dims < 0 \/ Z.pos maxLength < product dims)
                  /\ e = InvalidArrayLength
     | NonInteger => False
     end.
Proof.
  unfold TensorUtils.zeros, ServerTensorUtils.zeros, newArray.
  destruct (Z.ltb_spec (product dims) 0) as [Hneg|Hpos]; cbn.
  { split; (split; [by left|done]). }
  destruct (Z.ltb_spec (Z.pos maxLength) (product dims)) as [Hbig|Hfit]; cbn.
  { split; (split; [by right|done]). }
  rewrite length_replicate, Z2Nat.id by done.
  repeat split; try done; apply Forall_forall; intros x Hx;
    by apply elem_of_replicate in Hx as [-> _].
Qed.

End ZerosTheorems.

(** C8, as stated, fails: a zero dimension is accepted, and so are two
    negative dimensions. *)
Lemma zeros_accepts_nonpositive_dimension :
  TensorUtils.zeros (A := term) [0] None
  = Ret (mkTensor [] [0] (Some "cpu") (Some "float32"))
  /\ ServerTensorUtils.zeros (A := term) [2; 0] "float32" "cpu"
     = Ret (mkTensor [] [2; 0] (Some "cpu") (Some "float32"))
  /\ TensorUtils.zeros (A := term) [-1; -2] None
     = Ret (mkTensor [TInt 0; TInt 0] [-1; -2] (Some "cpu") (Some "float32")).
Proof. repeat split. Qed.

(** ** Addition *)

Lemma shapesDiffer_false sa sb :
  WebTensorUtils.shapesDiffer sa sb = false <-> sa = sb.
Proof.
  unfold WebTensorUtils.shapesDiffer.
  rewrite orb_false_iff, !negb_false_iff, Nat.eqb_eq, forallb_forall.
  split.
  - intros [Hlen Hall]. apply (list_eq_same_length _ _ (length sa)); [done..|].
    intros i x y _ Hx Hy.
    specialize (Hall (i, x)). cbn in Hall. rewrite Hy in Hall.
    apply Z.eqb_eq. apply Hall. apply list_elem_of_In.
    by apply (elem_of_lookup_imap_2 (fun i d => (i, d))).
  - intros ->. split; [done|]. intros [i d] Hin. cbn.
    apply list_elem_of_In, elem_of_lookup_imap in Hin as (j & y & Heq & Hj).
    injection Heq as -> ->. rewrite Hj. apply Z.eqb_refl.
Qed.

Section AddTheorems.
Context {A : Type} `{JsNumber A} `{JsEngine}.

Lemma sum_loop (a b : Tensor A) dev dt :
  isSum a b
    (mkTensor
       (for_ (Z.of_nat (length (data a)))
          (fun i result =>
             set result i (fround (nadd (get (data a) i) (get (data b) i))))
          (newArrayOfLength (length (data a))))
       (shape a) dev dt).
Proof.
  destruct (for_fill (length (data a))
              (fun i => fround (nadd (get (data a) i) (get (data b) i))))
    as [Hlen Hk].
  split; [done|]. split; [exact Hlen|].
  intros k x Hx. cbn [data]. rewrite Hk by (by apply lookup_lt_Some in Hx).
  by rewrite (get_lookup _ _ _ Hx).
Qed.

(** C4, as the code has it.  [add] of the transliterated transformer and of
    the server compare the lengths of the two buffers, not the shapes: they
    return the elementwise sum, with the shape of [a], whenever the lengths
    are equal, and throw when they differ.  [add] of the client compares
    the shapes: it returns the sum when they are identical and throws when
    they are not.  On well-formed tensors of shapes [3] and [4] all three
    throw, and the error is a shape mismatch. *)
Theorem add_outcome (a b : Tensor A) :
  match TensorUtils.add a b with
  | Ret r => length (data a) = length (data b) /\ isSum a b r
  | Throw e => length (data a) <> length (data b) /\ e = SameSizeForAddition
  | NonInteger => False
  end
  /\ match ServerTensorUtils.add a b with
     | Ret r => length (data a) = length (data b) /\ isSum a b r
     | Throw e => length (data a) <> length (data b) /\ e = SameSizeForAddition
     | NonInteger => False
     end
  /\ match WebTensorUtils.add a b with
     | Ret r => shape a = shape b /\ isSum a b r
     | Throw e => shape a <> shape b /\ e = ShapesMustMatch
     | NonInteger => False
     end
  /\ (wellFormed a -> wellFormed b -> shape a = [3] -> shape b = [4] ->
      exists e1 e2 e3,
        TensorUtils.add a b = Throw e1 /\ ServerTensorUtils.add a b = Throw e2
        /\ WebTensorUtils.add a b = Throw e3
        /\ kind_of e1 = ShapeMismatch /\ kind_of e2 = ShapeMismatch
        /\ kind_of e3 = ShapeMismatch).
Proof.
  unfold TensorUtils.add, ServerTensorUtils.add, WebTensorUtils.add.
  repeat split.
  - destruct (Nat.eqb_spec (length (data a)) (length (data b))); cbn; [|done].
    split; [done|]. apply sum_loop.
  - destruct (Nat.eqb_spec (length (data a)) (length (data b))); cbn; [|done].
    split; [done|]. apply sum_loop.
  - destruct (WebTensorUtils.shapesDiffer (shape a) (shape b)) eqn:E.
    + split; [|done]. intros Heq. apply shapesDiffer_false in Heq. congruence.
    + split; [by apply shapesDiffer_false|]. apply sum_loop.
  - intros [_ Ha] [_ Hb] Hsa Hsb. rewrite Hsa in Ha. rewrite Hsb in Hb.
    unfold product in Ha, Hb. cbn in Ha, Hb.
    destruct (Nat.eqb_spec (length (data a)) (length (data b))); [lia|].
    rewrite Hsa, Hsb. cbn. by eexists _, _, _.
Qed.

End AddTheorems.

(** C4, as stated, fails: two well-formed tensors of shapes [2, 3] and
    [3, 2] are added without an error, and the sum has the first shape. *)
Lemma add_accepts_different_shapes :
  let a := mkTensor (TInt <$> [1; 2; 3; 4; 5; 6]) [2; 3] None None in
  let b := mkTensor (TInt <$> [10; 20; 30; 40; 50; 60]) [3; 2] None None in
  wellFormed a /\ wellFormed b /\ shape a <> shape b
  /\ TensorUtils.add a b
     = Ret (mkTensor
              ((fun p => TRound (TAdd (TInt (fst p)) (TInt (snd p))))
                 <$> [(1, 10); (2, 20); (3, 30); (4, 40); (5, 50); (6, 60)])
              [2; 3] None None)
  /\ ServerTensorUtils.add a b = TensorUtils.add a b.
Proof.
  cbv zeta. unfold wellFormed. cbn [shape data].
  repeat split; try done; repeat constructor; done.
Qed.

(** ** Reshaping *)

Section ScanShape.

Lemma scanShape_none l i inferDim knownSize :
  (-1) ∉ l ->
  TensorUtils.scanShape l i inferDim knownSize
  = Ret (inferDim, knownSize * product l).
Proof.
  revert i knownSize. induction l as [|d l IH]; intros i knownSize Hl; simpl.
  - unfold product. simpl. by rewrite Z.mul_1_r.
  - apply not_elem_of_cons in Hl as [Hd Hl].
    destruct (Z.eqb_spec d (-1)); [congruence|].
    rewrite IH by done. rewrite product_cons. do 2 f_equal. ring.
Qed.

Lemma scanShape_second l i inferDim knownSize :
  inferDim <> -1 -> (-1) ∈ l ->
  TensorUtils.scanShape l i inferDim knownSize = Throw OnlyOneDimensionInferred.
Proof.
  intros Hinf. revert i knownSize.
  induction l as [|d l IH]; intros i knownSize Hl; simpl.
  - by apply elem_of_nil in Hl.
  - destruct (Z.eqb_spec d (-1)) as [->|Hd].
    + by destruct (Z.eqb_spec inferDim (-1)).
    + apply elem_of_cons in Hl as [Hl|Hl]; [congruence|]. by apply IH.
Qed.

Lemma scanShape_first pre post i knownSize :
  0 <= i -> (-1) ∉ pre ->
  TensorUtils.scanShape (pre ++ -1 :: post) i (-1) knownSize
  = TensorUtils.scanShape post (i + Z.of_nat (length pre) + 1)
      (i + Z.of_nat (length pre)) (knownSize * product pre).
Proof.
  revert i knownSize. induction pre as [|d pre IH]; intros i knownSize Hi Hpre.
  - cbn. unfold product. cbn. by rewrite Z.add_0_r, Z.mul_1_r.
  - apply not_elem_of_cons in Hpre as [Hd Hpre]. cbn [app TensorUtils.scanShape].
    destruct (Z.eqb_spec d (-1)); [congruence|].
    rewrite IH by (done || lia). rewrite product_cons. cbn [length].
    f_equal; [lia|lia|ring].
Qed.

End ScanShape.

Section ReshapeTheorems.
Context {A : Type} `{JsNumber A} `{JsEngine}.

(** C5, as the code has it.  Only [view] of the transliterated transformer
    knows the sentinel [-1]: it throws when two entries are [-1]; with one,
    it resolves that entry to [bufferLength / product(otherDims)] and
    returns a view of the buffer, whenever the other dimensions have a
    non-zero product that divides the length, and throws when that product
    is zero; with none, it returns the view when the product of the shape
    is the length of the buffer and throws when it is not.  [reshape] of the
    server and of the client infer nothing: they return the view exactly
    when the product of the requested shape is the length of the buffer,
    and throw otherwise. *)
Theorem view_and_reshape_outcome (t : Tensor A) :
  let n := Z.of_nat (length (data t)) in
  (forall pre mid post, (-1) ∉ pre ->
     TensorUtils.view t (pre ++ -1 :: mid ++ -1 :: post)
     = Throw OnlyOneDimensionInferred)
  /\ (forall pre post, (-1) ∉ pre -> (-1) ∉ post ->
        let known := product (pre ++ post) in
        (known <> 0 -> n mod known = 0 ->
         TensorUtils.view t (pre ++ -1 :: post)
         = Ret (mkTensor (data t) (pre ++ n / known :: post) (device t) (dtype t)))
        /\ (known = 0 ->
            TensorUtils.view t (pre ++ -1 :: post) = Throw CannotReshape))
  /\ (forall newShape, (-1) ∉ newShape ->
        TensorUtils.view t newShape
        = if product newShape =? n
          then Ret (mkTensor (data t) newShape (device t) (dtype t))
          else Throw CannotReshape)
  /\ (forall newShape,
        ServerTensorUtils.reshape t newShape
        = (if product newShape =? n
           then Ret (mkTensor (data t) newShape (device t) (dtype t))
           else Throw CannotReshape)
        /\ WebTensorUtils.reshape t newShape
           = (if product newShape =? n
              then Ret (mkTensor (data t) newShape (device t) (dtype t))
              else Throw CannotReshape)).
Proof.
  cbv zeta. repeat split.
  - intros pre mid post Hpre. unfold TensorUtils.view.
    rewrite scanShape_first by done.
    rewrite scanShape_second; [done|lia|].
    apply elem_of_app. right. apply elem_of_cons. by left.
  - intros Hk Hmod. unfold TensorUtils.view.
    rewrite scanShape_first, scanShape_none by done. cbn [bind fst snd].
    rewrite product_app in Hk, Hmod.
    unfold TensorUtils.resolveShape.
    replace (0 + Z.of_nat (length pre)) with (Z.of_nat (length pre)) by lia.
    destruct (Z.eqb_spec (Z.of_nat (length pre)) (-1)); [lia|]. cbn [negb].
    replace (1 * product pre * product post) with (product pre * product post)
      by ring.
    destruct (Z.eqb_spec (product pre * product post) 0); [done|].
    rewrite Hmod. cbn [Z.eqb bind].
    rewrite Nat2Z.id, insert_app_r_alt, Nat.sub_diag by done. cbn [insert list_insert].
    rewrite product_app, product_cons, product_app.
    assert (product pre *
              (Z.of_nat (length (data t)) / (product pre * product post)
               * product post) = Z.of_nat (length (data t))) as ->.
    { rewrite (Z_div_exact_full_2 (Z.of_nat (length (data t)))
                 (product pre * product post)) at 2 by done. ring. }
    by rewrite Z.eqb_refl.
  - intros Hk. unfold TensorUtils.view.
    rewrite scanShape_first, scanShape_none by done. cbn [bind fst snd].
    rewrite product_app in Hk.
    unfold TensorUtils.resolveShape.
    replace (0 + Z.of_nat (length pre)) with (Z.of_nat (length pre)) by lia.
    destruct (Z.eqb_spec (Z.of_nat (length pre)) (-1)); [lia|]. cbn [negb].
    replace (1 * product pre * product post) with (product pre * product post)
      by ring.
    by rewrite Hk.
  - intros newShape Hn. unfold TensorUtils.view.
    rewrite scanShape_none by done. cbn [bind fst snd TensorUtils.resolveShape].
    cbn. by destruct (product newShape =? Z.of_nat (length (data t))).
  - unfold ServerTensorUtils.reshape.
    by destruct (product newShape =? Z.of_nat (length (data t))).
  - unfold WebTensorUtils.reshape. rewrite (Z.eqb_sym (Z.of_nat _)).
    by destruct (product newShape =? Z.of_nat (length (data t))).
Qed.

End ReshapeTheorems.

(** C5, as stated, fails for [reshape]: a sentinel is not resolved (a buffer
    of six elements cannot be reshaped to [-1, 3], which [view] resolves to
    [2, 3]), and two sentinels are accepted when their product happens to be
    the length of the buffer. *)
Lemma reshape_infers_nothing :
  let t6 := mkTensor (TInt <$> [1; 2; 3; 4; 5; 6]) [6] None None in
  let t1 := mkTensor [TInt 7] [1] None None in
  ServerTensorUtils.reshape t6 [-1; 3] = Throw CannotReshape
  /\ WebTensorUtils.reshape t6 [-1; 3] = Throw CannotReshape
  /\ TensorUtils.view t6 [-1; 3] = Ret (mkTensor (data t6) [2; 3] None None)
  /\ ServerTensorUtils.reshape t1 [-1; -1]
     = Ret (mkTensor (data t1) [-1; -1] None None)
  /\ WebTensorUtils.reshape t1 [-1; -1]
     = Ret (mkTensor (data t1) [-1; -1] None None).
Proof. repeat split. Qed.

(** ** Positional embedding *)

Lemma div_mod_row q r D k :
  0 <= r < D -> k = q * D + r -> k / D = q /\ k mod D = r.
Proof.
  intros Hr ->. split.
  - symmetry. apply (Z.div_unique _ _ _ r); lia.
  - symmetry. apply (Z.mod_unique _ _ q); lia.
Qed.

Lemma half_up_bound j D : 0 <= j < half_up D <-> 0 <= j /\ 2 * j < D.
Proof.
  unfold half_up.
  pose proof (Z.div_mod (D + 1) 2 ltac:(lia)).
  pose proof (Z.mod_pos_bound (D + 1) 2 ltac:(lia)). lia.
Qed.

Section SinEmbedding.
Context {A : Type} `{JsNumber A} `{JsEngine}.

(** One round of the loop on [d]. *)
Lemma sin_round (pdata : list A) maxPeriod S D b t j (l : list A) :
  0 <= j < half_up D ->
  patched
    (fun k => ((Z.of_nat k mod D) / 2 =? j)
              && ((Z.of_nat k / D =? b * S + t) && (0 <? D)))
    (sinCosAt pdata maxPeriod D) l
    (PositionalEmbedding.sinCosRound (get pdata (b * S + t)) maxPeriod S D b t j l).
Proof.
  intros Hj. apply half_up_bound in Hj as [Hj0 Hj].
  unfold PositionalEmbedding.sinCosRound. cbv zeta.
  assert (forall k r, 0 <= r < D -> Z.of_nat k = b * S * D + t * D + r ->
            Z.of_nat k / D = b * S + t /\ Z.of_nat k mod D = r) as Hrow.
  { intros k r Hr Hk. apply div_mod_row; [done|lia]. }
  assert (forall k, Z.of_nat k / D = b * S + t ->
            Z.of_nat k = b * S * D + t * D + Z.of_nat k mod D) as Hback.
  { intros k Hq. pose proof (Z.div_mod (Z.of_nat k) D ltac:(lia)) as Hdm.
    rewrite Hq in Hdm. lia. }
  assert (forall k, 0 <= Z.of_nat k mod D < D) as Hmod
    by (intros; apply Z.mod_pos_bound; lia).
  assert (patched (fun k => Z.of_nat k =? b * S * D + t * D + 2 * j)
            (sinCosAt pdata maxPeriod D) l
            (set l (b * S * D + t * D + 2 * j)
               (fround (nsin (PositionalEmbedding.angle (get pdata (b * S + t))
                                maxPeriod (2 * j) D))))) as P1.
  { apply patched_set. intros Hpos. unfold sinCosAt. cbv zeta.
    rewrite Z2Nat.id by done.
    destruct (div_mod_row (b * S + t) (2 * j) D (b * S * D + t * D + 2 * j))
      as [-> ->]; [lia|ring|].
    replace (Z.even (2 * j)) with true; [done|].
    symmetry. apply Z.even_spec. by exists j. }
  destruct (Z.ltb_spec (2 * j + 1) D) as [Hodd|Hodd].
  - assert (patched (fun k => Z.of_nat k =? b * S * D + t * D + 2 * j + 1)
              (sinCosAt pdata maxPeriod D)
              (set l (b * S * D + t * D + 2 * j)
                 (fround (nsin (PositionalEmbedding.angle (get pdata (b * S + t))
                                  maxPeriod (2 * j) D))))
              (set (set l (b * S * D + t * D + 2 * j)
                      (fround (nsin (PositionalEmbedding.angle
                                       (get pdata (b * S + t)) maxPeriod (2 * j) D))))
                 (b * S * D + t * D + 2 * j + 1)
                 (fround (ncos (PositionalEmbedding.angle (get pdata (b * S + t))
                                  maxPeriod (2 * j) D))))) as P2.
    { apply patched_set. intros Hpos. unfold sinCosAt. cbv zeta.
      rewrite Z2Nat.id by done.
      destruct (div_mod_row (b * S + t) (2 * j + 1) D
                  (b * S * D + t * D + 2 * j + 1)) as [-> ->]; [lia|ring|].
      replace (Z.even (2 * j + 1)) with false.
      - by replace (2 * j + 1 - 1) with (2 * j) by lia.
      - symmetry. rewrite <- Z.negb_odd.
        apply negb_false_iff, Z.odd_spec. by exists j. }
    eapply patched_ext; [| |exact (patched_comp _ _ _ _ _ _ P1 P2)]; [|done].
    intros k _. cbv beta. apply eq_true_iff_eq.
    rewrite orb_true_iff, !andb_true_iff, !Z.eqb_eq, Z.ltb_lt.
    split.
    + intros [Hk|Hk].
      * destruct (Hrow k (2 * j)) as [-> ->]; [lia..|].
        split; [|lia]. symmetry. apply (Z.div_unique _ _ _ 0); lia.
      * destruct (Hrow k (2 * j + 1)) as [-> ->]; [lia..|].
        split; [|lia]. symmetry. apply (Z.div_unique _ _ _ 1); lia.
    + intros (Hsel & Hq & HD). specialize (Hback k Hq). specialize (Hmod k).
      pose proof (Z.div_mod (Z.of_nat k mod D) 2 ltac:(lia)) as Hdm.
      pose proof (Z.mod_pos_bound (Z.of_nat k mod D) 2 ltac:(lia)).
      rewrite Hsel in Hdm. lia.
  - eapply patched_ext; [| |exact P1]; [|done].
    intros k _. cbv beta. apply eq_true_iff_eq.
    rewrite !andb_true_iff, !Z.eqb_eq, Z.ltb_lt.
    split.
    + intros Hk. destruct (Hrow k (2 * j)) as [-> ->]; [lia..|].
      split; [|lia]. symmetry. apply (Z.div_unique _ _ _ 0); lia.
    + intros (Hsel & Hq & HD). specialize (Hback k Hq). specialize (Hmod k).
      pose proof (Z.div_mod (Z.of_nat k mod D) 2 ltac:(lia)) as Hdm.
      pose proof (Z.mod_pos_bound (Z.of_nat k mod D) 2 ltac:(lia)).
      rewrite Hsel in Hdm. lia.
Qed.

End SinEmbedding.

Section SinEmbeddingWhole.
Context {A : Type} `{JsNumber A} `{JsEngine}.

(** The buffer filled by [createSinEmbedding] on positions of shape
    [[B, S]] and a width [D]. *)
Lemma createSinEmbedding_patched (positions : Tensor A) B S D maxPeriod rest :
  shape positions = B :: S :: rest -> 0 <= B * S * D -> fits (B * S * D) ->
  exists edata,
    PositionalEmbedding.createSinEmbedding positions D maxPeriod
    = Ret (mkTensor edata [B; S; D] (Some "cpu") (Some "float32"))
    /\ patched
         (fun k => inRange B (Z.of_nat k / D / S)
                   && inRange S ((Z.of_nat k / D) mod S) && (0 <? D))
         (sinCosAt (data positions) (default (of_Z 10000) maxPeriod) D)
         (newArrayOfLength (Z.to_nat (B * S * D))) edata.
Proof.
  intros Hs Hsize Hfit. unfold PositionalEmbedding.createSinEmbedding.
  rewrite Hs. rewrite zeros_nonneg by (by rewrite product_3).
  rewrite product_3. cbn [bind withData data shape device dtype orCpu].
  eexists. split; [reflexivity|].
  apply (patched_for2 B S _ (fun k => Z.of_nat k / D / S)
           (fun k => (Z.of_nat k / D) mod S) (fun _ => 0 <? D)).
  intros b t l Hb Ht.
  eapply patched_ext;
    [| |apply (patched_for (half_up D) _ (fun k => (Z.of_nat k mod D) / 2)
                 (fun k => (Z.of_nat k / D =? b * S + t) && (0 <? D))
                 (sinCosAt (data positions) (default (of_Z 10000) maxPeriod) D))].
  - intros k _. cbv beta. apply eq_true_iff_eq.
    rewrite !andb_true_iff, !Z.eqb_eq, !Z.ltb_lt, Z.leb_le.
    split.
    + intros ((_ & _) & Hq & HD). rewrite Hq.
      destruct (div_mod_row b t S (b * S + t)) as [-> ->]; done.
    + intros ((Hqb & Hqt) & HD).
      pose proof (Z.mod_pos_bound (Z.of_nat k) D HD).
      pose proof (Z.div_mod (Z.of_nat k / D) S ltac:(lia)) as Hdm.
      rewrite Hqb, Hqt in Hdm.
      assert (0 <= (Z.of_nat k mod D) / 2 < half_up D) as Hsel.
      { apply half_up_bound.
        pose proof (Z.div_mod (Z.of_nat k mod D) 2 ltac:(lia)).
        pose proof (Z.mod_pos_bound (Z.of_nat k mod D) 2 ltac:(lia)).
        split; [apply Z.div_pos|]; lia. }
      repeat split; [lia..|done].
  - done.
  - intros j l' Hj. apply (sin_round (data positions) _ S D b t j l' Hj).
Qed.

End SinEmbeddingWhole.

Section SinEmbeddingTheorem.
Context {A : Type} `{JsNumber A} `{JsEngine}.

(** C3, as the code has it.  For every well-formed position tensor of
    shape [[batch, time]] and every width [dim] whose embedding the engine
    can hold, [createSinEmbedding] returns a tensor of shape
    [[batch, time, dim]] in which, for each position [p] of the input and
    each even index [d], the element [d] is [sin(p / maxPeriod^(d / dim))]
    and, when [d + 1] is still below [dim], the element [d + 1] is the
    cosine of the same angle, each as stored in a [Float32Array].  Every
    slot of the result is written by one of the two.  When [dim] is odd the
    last slot of a row has the even index [dim - 1]: it holds the sine of
    its own angle, and only the cosine that would follow it is dropped. *)
Theorem createSinEmbedding_elements (positions : Tensor A)
    (batch time dim : Z) (maxPeriod : option A) :
  shape positions = [batch; time] -> wellFormed positions -> 0 <= dim ->
  fits (batch * time * dim) ->
  exists e,
    PositionalEmbedding.createSinEmbedding positions dim maxPeriod = Ret e
    /\ shape e = [batch; time; dim]
    /\ Z.of_nat (length (data e)) = batch * time * dim
    /\ (forall b t d,
          0 <= b < batch -> 0 <= t < time -> 0 <= d < dim -> Z.even d = true ->
          let p := get (data positions) (b * time + t) in
          let angle :=
            ndiv p (npow (default (of_Z 10000) maxPeriod)
                      (ndiv (of_Z d) (of_Z dim))) in
          get (data e) (b * time * dim + t * dim + d) = fround (nsin angle)
          /\ (d + 1 < dim ->
              get (data e) (b * time * dim + t * dim + d + 1)
              = fround (ncos angle)))
    /\ (forall k, Z.of_nat k < batch * time * dim ->
          data e !! k
          = Some (sinCosAt (data positions) (default (of_Z 10000) maxPeriod)
                    dim k))
    /\ (Z.odd dim = true ->
        forall b t, 0 <= b < batch -> 0 <= t < time ->
          let p := get (data positions) (b * time + t) in
          get (data e) (b * time * dim + t * dim + (dim - 1))
          = fround (nsin (ndiv p (npow (default (of_Z 10000) maxPeriod)
                                    (ndiv (of_Z (dim - 1)) (of_Z dim)))))).
Proof.
  intros Hs [Hpos Hlen] HD Hfit. rewrite Hs in Hpos.
  inversion Hpos as [|? ? HB Hpos1]; subst.
  inversion Hpos1 as [|? ? HT _]; subst.
  assert (0 <= batch * time * dim) as Hsize by nia.
  destruct (createSinEmbedding_patched positions batch time dim maxPeriod []
              Hs Hsize Hfit) as (edata & E & P).
  assert (forall k, (k < Z.to_nat (batch * time * dim))%nat ->
            inRange batch (Z.of_nat k / dim / time)
            && inRange time ((Z.of_nat k / dim) mod time) && (0 <? dim) = true)
    as Hcond.
  { intros k Hk.
    destruct (radix_inRange batch time dim (Z.of_nat k)) as (Hb & Ht & Hd);
      [lia|done..|].
    rewrite !andb_true_iff, !inRange_true, Z.ltb_lt. lia. }
  destruct (patched_full _ _ _ _ P Hcond) as [Hl Hall].
  assert (forall b t d,
            0 <= b < batch -> 0 <= t < time -> 0 <= d < dim ->
            get edata (b * time * dim + t * dim + d)
            = sinCosAt (data positions) (default (of_Z 10000) maxPeriod) dim
                (Z.to_nat (b * time * dim + t * dim + d))
            /\ Z.of_nat (Z.to_nat (b * time * dim + t * dim + d)) mod dim = d
            /\ Z.of_nat (Z.to_nat (b * time * dim + t * dim + d)) / dim
               = b * time + t) as Hget.
  { intros b t d Hb Ht Hd.
    pose proof (srcIdx_bound batch time dim b t d Hb Ht Hd) as Hbd.
    unfold TensorUtils.srcIdx in Hbd.
    rewrite (get_patched_full _ _ _ _ _ P Hcond) by lia.
    split; [done|]. rewrite Z2Nat.id by lia.
    destruct (div_mod_row (b * time + t) d dim (b * time * dim + t * dim + d))
      as [-> ->]; [done|ring|done]. }
  eexists. split; [exact E|]. cbn [shape data]. split; [done|].
  split; [lia|]. split; [|split].
  - intros b t d Hb Ht Hd Heven. cbv zeta. split.
    + destruct (Hget b t d Hb Ht Hd) as (-> & Hm & Hq).
      unfold sinCosAt. cbv zeta. by rewrite Hm, Hq, Heven.
    + intros Hd1.
      replace (b * time * dim + t * dim + d + 1)
        with (b * time * dim + t * dim + (d + 1)) by ring.
      destruct (Hget b t (d + 1) Hb Ht ltac:(lia)) as (-> & Hm & Hq).
      unfold sinCosAt. cbv zeta. rewrite Hm, Hq.
      change (d + 1) with (Z.succ d) at 1.
      rewrite Z.even_succ, <- Z.negb_even, Heven. cbn [negb].
      by replace (d + 1 - 1) with d by lia.
  - intros k Hk. apply Hall. lia.
  - intros Hodd b t Hb Ht. cbv zeta.
    assert (0 < dim) as Hpos'.
    { destruct (Z.eq_dec dim 0) as [->|]; [done|lia]. }
    destruct (Hget b t (dim - 1) Hb Ht ltac:(lia)) as (-> & Hm & Hq).
    unfold sinCosAt. cbv zeta. rewrite Hm, Hq.
    replace (Z.even (dim - 1)) with true; [done|].
    replace (dim - 1) with (Z.pred dim) by lia.
    by rewrite Z.even_pred.
Qed.

End SinEmbeddingTheorem.

(** C3, as stated, fails for an odd [dim]: the loop [d = 0, 2, ...] reaches
    the last slot [dim - 1], whose index is even, and stores a sine there,
    so that no slot is left at zero.  With [dim = 3], at the position 1,
    the last slot holds the stored sine of [1 / 10000^(2/3)], about
    0.00215. *)
Lemma odd_dim_last_slot_is_written :
  exists e,
    PositionalEmbedding.createSinEmbedding
      (mkTensor [TInt 1] [1; 1] None None) 3 None = Ret e
    /\ shape e = [1; 1; 3]
    /\ data e
       = [TRound (TSin (TDiv (TInt 1)
                          (TPow (TInt 10000) (TDiv (TInt 0) (TInt 3)))));
          TRound (TCos (TDiv (TInt 1)
                          (TPow (TInt 10000) (TDiv (TInt 0) (TInt 3)))));
          TRound (TSin (TDiv (TInt 1)
                          (TPow (TInt 10000) (TDiv (TInt 2) (TInt 3)))))]
    /\ get (data e) (3 - 1) <> TInt 0.
Proof. eexists. split; [reflexivity|]. repeat split. discriminate. Qed.

(** ** Streaming states *)

Section ResetTheorems.
Context {A : Type} `{JsNumber A} `{JsEngine}.

Lemma resetWhere_lookup (mask : list bool) n (arr : list A) k :
  resetWhere mask n arr !! k
  = if inRange (Z.min (Z.of_nat (length mask)) n) (Z.of_nat k)
       && default false (mask !! k)
    then (fun _ => of_Z 0) <$> arr !! k
    else arr !! k.
Proof.
  unfold resetWhere.
  pose proof (for_update (Z.min (Z.of_nat (length mask)) n)
                (fun i => default false (mask !! Z.to_nat i))
                (fun _ => of_Z 0) arr k) as Hk.
  cbv beta in Hk. by rewrite Nat2Z.id in Hk.
Qed.

(** What a masked reset makes of the offset [o] at index [i]. *)
Lemma resetWhere_selected (mask : list bool) n (arr : list A) i o :
  arr !! i = Some o ->
  (Z.of_nat i < Z.min (Z.of_nat (length mask)) n -> mask !! i = Some true ->
   resetWhere mask n arr !! i = Some (of_Z 0))
  /\ (~ (Z.of_nat i < Z.min (Z.of_nat (length mask)) n /\ mask !! i = Some true) ->
      resetWhere mask n arr !! i = Some o).
Proof.
  intros Ho. rewrite resetWhere_lookup, Ho. split.
  - intros Hi Hm. rewrite Hm. cbn.
    by replace (inRange _ _) with true by (symmetry; apply inRange_true; lia).
  - intros Hn.
    destruct (inRange (Z.min (Z.of_nat (length mask)) n) (Z.of_nat i)) eqn:Ei;
      [|done].
    apply inRange_true in Ei.
    destruct (mask !! i) as [[|]|] eqn:Em; cbn; try done.
    exfalso. apply Hn. split; [lia|done].
Qed.

Lemma fillZero_all (arr : list A) :
  length (fillZero arr) = length arr
  /\ Forall (fun x => x = of_Z 0) (fillZero arr).
Proof.
  unfold fillZero. split; [apply length_replicate|].
  apply Forall_forall. intros x Hx. by apply elem_of_replicate in Hx as [-> _].
Qed.

Lemma product_1 d : product [d] = d.
Proof. unfold product. simpl. lia. Qed.

(** The offsets of a state are as many as its [batchSize]: the constructors
    build them so, and [reset] keeps their number. *)
Lemma NodeStreamingState_new_length batchSize dev (st : NodeStreamingState.t A) :
  NodeStreamingState.new batchSize dev = Ret st ->
  Z.of_nat (length (data (NodeStreamingState.offsets st)))
  = NodeStreamingState.batchSize st.
Proof.
  unfold NodeStreamingState.new, ServerTensorUtils.zeros, newArray.
  rewrite product_1. destruct (Z.ltb_spec batchSize 0); [done|].
  destruct (Z.ltb_spec (Z.pos maxLength) batchSize); [done|].
  cbn. intros [= <-]. cbn. rewrite length_replicate. lia.
Qed.

Lemma TransformerState_new_length batchSize dev (st : TransformerState.t A) :
  TransformerState.new batchSize dev None = Ret st ->
  Z.of_nat (length (data (TransformerState.offsets st)))
  = TransformerState.batchSize st.
Proof.
  unfold TransformerState.new, TensorUtils.zeros, newArray.
  rewrite product_1. destruct (Z.ltb_spec batchSize 0); [done|].
  destruct (Z.ltb_spec (Z.pos maxLength) batchSize); [done|].
  cbn. intros [= <-]. cbn. rewrite length_replicate. lia.
Qed.

Lemma resetWhere_length (mask : list bool) n (arr : list A) :
  length (resetWhere mask n arr) = length arr.
Proof.
  unfold resetWhere. apply for_length. intros i l _.
  destruct (default false (mask !! Z.to_nat i)); [apply length_set|done].
Qed.

Lemma NodeStreamingState_reset_length (st : NodeStreamingState.t A) mask :
  length (data (NodeStreamingState.offsets (NodeStreamingState.reset st mask)))
  = length (data (NodeStreamingState.offsets st))
  /\ NodeStreamingState.batchSize (NodeStreamingState.reset st mask)
     = NodeStreamingState.batchSize st.
Proof.
  destruct mask as [mask|]; cbn; (split; [|done]).
  - apply resetWhere_length.
  - apply length_replicate.
Qed.

Lemma TransformerState_reset_length (st : TransformerState.t A) mask :
  length (data (TransformerState.offsets (TransformerState.reset st mask)))
  = length (data (TransformerState.offsets st))
  /\ TransformerState.batchSize (TransformerState.reset st mask)
     = TransformerState.batchSize st.
Proof. cbn. split; [apply resetWhere_length|done]. Qed.

(** C2, as the code has it.  With the mask omitted, [reset] of the state
    of the server and of the state of the client sets every offset to zero.
    The state of the transliterated transformer has no such path: its mask
    is not optional, and a call without it throws a [TypeError] and writes
    nothing.  With a mask, each of the three sets to zero the offset at
    each index [i] below [min(mask.length, batchSize)] with
    [mask[i] == true], and leaves every other offset as it was, those at or
    beyond [mask.length] included.  The offsets of a state are as many as
    its [batchSize]. *)
Theorem reset_outcome :
  (forall st : NodeStreamingState.t A,
     Z.of_nat (length (data (NodeStreamingState.offsets st)))
     = NodeStreamingState.batchSize st ->
     let after mask :=
       data (NodeStreamingState.offsets (NodeStreamingState.reset st mask)) in
     (length (after None) = length (data (NodeStreamingState.offsets st))
      /\ Forall (fun x => x = of_Z 0) (after None))
     /\ forall mask i o,
          data (NodeStreamingState.offsets st) !! i = Some o ->
          (Z.of_nat i < Z.min (Z.of_nat (length mask)) (NodeStreamingState.batchSize st) ->
           mask !! i = Some true -> after (Some mask) !! i = Some (of_Z 0))
          /\ (~ (Z.of_nat i < Z.min (Z.of_nat (length mask))
                                 (NodeStreamingState.batchSize st)
                 /\ mask !! i = Some true) ->
              after (Some mask) !! i = Some o))
  /\ (forall st : WebStreamingState.t A,
        let after mask :=
          WebStreamingState._offsets (WebStreamingState.reset st mask) in
        (length (after None) = length (WebStreamingState._offsets st)
         /\ Forall (fun x => x = of_Z 0) (after None))
        /\ forall mask i o,
             WebStreamingState._offsets st !! i = Some o ->
             (Z.of_nat i < Z.min (Z.of_nat (length mask)) (WebStreamingState.batchSize st) ->
              mask !! i = Some true -> after (Some mask) !! i = Some (of_Z 0))
             /\ (~ (Z.of_nat i < Z.min (Z.of_nat (length mask))
                                    (WebStreamingState.batchSize st)
                    /\ mask !! i = Some true) ->
                 after (Some mask) !! i = Some o))
  /\ (forall st : TransformerState.t A,
        Z.of_nat (length (data (TransformerState.offsets st)))
        = TransformerState.batchSize st ->
        forall mask i o,
          data (TransformerState.offsets st) !! i = Some o ->
          let after := data (TransformerState.offsets (TransformerState.reset st mask)) in
          (Z.of_nat i < Z.min (Z.of_nat (length mask)) (TransformerState.batchSize st) ->
           mask !! i = Some true -> after !! i = Some (of_Z 0))
          /\ (~ (Z.of_nat i < Z.min (Z.of_nat (length mask))
                                 (TransformerState.batchSize st)
                 /\ mask !! i = Some true) ->
              after !! i = Some o))
  /\ (forall st : TransformerState.t A,
        TransformerState.resetCall st None = TypeError
        /\ forall mask,
             TransformerState.resetCall st (Some mask)
             = Returned (TransformerState.reset st mask)).
Proof.
  split; [|split; [|split]].
  - intros st Hwf. cbv zeta. split; [apply fillZero_all|].
    intros mask i o Ho. cbn. rewrite Hwf. by apply resetWhere_selected.
  - intros st. cbv zeta. split; [apply fillZero_all|].
    intros mask i o Ho. cbn. by apply resetWhere_selected.
  - intros st Hwf mask i o Ho. cbn. rewrite Hwf. by apply resetWhere_selected.
  - done.
Qed.

End ResetTheorems.

(** C2, as stated, fails for the state of the transliterated transformer:
    a call of its [reset] without a mask throws, and the offsets 5 and 7
    of the state stay as they are. *)
Lemma reset_without_mask_throws :
  TransformerState.resetCall sampleState None = TypeError
  /\ data (TransformerState.offsets sampleState) = [TInt 5; TInt 7]
  /\ ~ Forall (fun o => o = TInt 0)
        (data (TransformerState.offsets sampleState)).
Proof.
  split; [reflexivity|]. split; [reflexivity|].
  intros Hall. by inversion Hall.
Qed.

(** ** The shell: positions *)

Section PositionFacts.
Context {A : Type} `{JsNumber A} `{JsEngine}.

Lemma fillPositions_patched B T (offsets : Tensor A) (arr : list A) :
  patched (fun k => inRange B (Z.of_nat k / T) && inRange T (Z.of_nat k mod T))
    (positionAt T offsets) arr
    (StreamingTransformer.fillPositions B T offsets arr).
Proof.
  unfold StreamingTransformer.fillPositions.
  eapply patched_ext;
    [| |apply (patched_for2 B T _ (fun k => Z.of_nat k / T)
                 (fun k => Z.of_nat k mod T) (fun _ => true)
                 (positionAt T offsets))].
  - intros k _. cbv beta. by rewrite andb_true_r.
  - done.
  - intros b t l Hb Ht.
    eapply patched_ext; [| |apply (patched_set (positionAt T offsets) l (b * T + t))].
    + intros k _. cbv beta. rewrite andb_true_r. apply eq_true_iff_eq.
      rewrite andb_true_iff, !Z.eqb_eq. split.
      * intros Hk. by apply (div_mod_row b t T).
      * intros [Hq Hr]. pose proof (Z.div_mod (Z.of_nat k) T ltac:(lia)). lia.
    + done.
    + intros Hpos. unfold positionAt. rewrite Z2Nat.id by done.
      by destruct (div_mod_row b t T (b * T + t)) as [-> ->].
Qed.

Lemma product_2 B T : product [B; T] = B * T.
Proof. unfold product. simpl. lia. Qed.

Lemma expandedPositions_returns B T (offsets : Tensor A) dev :
  0 <= B -> 0 <= T -> fits (B * T) ->
  exists pdata,
    StreamingTransformer.expandedPositions B T offsets dev
    = Ret (mkTensor pdata [B; T] (Some (orCpu dev)) (Some "float32"))
    /\ Z.of_nat (length pdata) = B * T
    /\ forall b t, 0 <= b < B -> 0 <= t < T ->
         get pdata (b * T + t)
         = fround (nadd (of_Z t)
                     (get (data offsets)
                        (Z.min b (Z.of_nat (length (data offsets)) - 1)))).
Proof.
  intros HB HT Hfit. unfold StreamingTransformer.expandedPositions.
  assert (0 <= B * T) as Hsize by nia.
  rewrite zeros_nonneg by (by rewrite product_2). rewrite product_2.
  cbn [bind withData data shape device dtype].
  eexists. split; [reflexivity|].
  pose proof (fillPositions_patched B T offsets
                (newArrayOfLength (Z.to_nat (B * T)))) as P.
  assert (forall k, (k < Z.to_nat (B * T))%nat ->
            inRange B (Z.of_nat k / T) && inRange T (Z.of_nat k mod T) = true)
    as Hcond.
  { intros k Hk. assert (0 < T) by nia.
    rewrite andb_true_iff, !inRange_true.
    pose proof (Z.mod_pos_bound (Z.of_nat k) T ltac:(lia)).
    split; [|done]. split; [apply Z.div_pos; lia|].
    apply Z.div_lt_upper_bound; lia. }
  destruct (patched_full _ _ _ _ P Hcond) as [Hl _].
  split; [lia|].
  intros b t Hb Ht.
  rewrite (get_patched_full _ _ _ _ _ P Hcond) by nia.
  unfold positionAt. rewrite Z2Nat.id by nia.
  by destruct (div_mod_row b t T (b * T + t)) as [-> ->].
Qed.

End PositionFacts.

(** ** The shell: a forward call returns *)

Section ForwardFacts.
Context {A : Type} `{JsNumber A} `{JsEngine}.

Lemma arange_view_returns T dev :
  0 <= T -> fits T ->
  exists positions reshaped : Tensor A,
    TensorUtils.arange T dev = Ret positions
    /\ TensorUtils.view positions [1; T; 1] = Ret reshaped.
Proof.
  intros HT Hfit. unfold TensorUtils.arange. rewrite newArray_nonneg by done.
  cbn [bind]. eexists. eexists. split; [reflexivity|].
  unfold TensorUtils.view. rewrite scanShape_none.
  2:{ intros Hin. repeat (apply elem_of_cons in Hin as [Hin|Hin]; [lia|]).
      by apply elem_of_nil in Hin. }
  cbn [bind fst snd data].
  rewrite for_length by (intros; apply length_set).
  unfold newArrayOfLength. rewrite length_replicate, Z2Nat.id by done.
  unfold TensorUtils.resolveShape. cbn [Z.eqb Pos.eqb negb bind].
  replace (product [1; T; 1]) with T by (unfold product; simpl; lia).
  by rewrite Z.eqb_refl.
Qed.

Lemma scale_shape_length (t : Tensor A) scalar :
  shape (TensorUtils.scale t scalar) = shape t
  /\ length (data (TensorUtils.scale t scalar)) = length (data t).
Proof.
  unfold TensorUtils.scale. cbn [shape data]. split; [done|].
  rewrite for_length by (intros; apply length_set). apply length_replicate.
Qed.

Lemma add_returns (a b : Tensor A) :
  length (data a) = length (data b) ->
  exists r, TensorUtils.add a b = Ret r
            /\ shape r = shape a /\ length (data r) = length (data a)
            /\ device r = device a.
Proof.
  intros Hlen. unfold TensorUtils.add.
  destruct (Nat.eqb_spec (length (data a)) (length (data b))); [|done].
  cbn [negb]. eexists. split; [reflexivity|]. cbn [shape data device].
  repeat split. rewrite for_length by (intros; apply length_set).
  apply length_replicate.
Qed.

Lemma layers_identity (layers : list Identity.t) (x : Tensor A) :
  fold_left (fun x layer => Identity.forward layer x) layers x = x.
Proof.
  induction layers as [|l layers IH]; [done|]. cbn [fold_left].
  replace (Identity.forward l x) with x by (by destruct x). apply IH.
Qed.

(** On a well-formed input of rank 3 the shell returns, whatever its
    configuration, when the engine can hold the positions and the
    embedding that a sinusoidal shell builds; the output has the shape, the
    device and the element type of the input.  With a sinusoidal embedding
    the output is the sum of the input and of the scaled embedding of the
    expanded positions; without, it is the input. *)
Lemma forward_returns (tr : StreamingTransformer.t A) (x : Tensor A) B T C :
  shape x = [B; T; C] -> wellFormed x ->
  (StreamingTransformer.sinusoidal tr = true -> shellFits B T C) ->
  exists offsets y,
    StreamingTransformer.baseOffsets (StreamingTransformer.streamingState tr) x
    = Ret offsets
    /\ StreamingTransformer.forward tr x
       = Ret (y, StreamingTransformer.attach tr (StreamingTransformer.advanced tr T))
    /\ shape y = shape x /\ length (data y) = length (data x)
    /\ device y = device x /\ dtype y = dtype x
    /\ (StreamingTransformer.sinusoidal tr = true ->
        exists positions posEmb r,
          StreamingTransformer.expandedPositions B T offsets (device x)
          = Ret positions
          /\ PositionalEmbedding.createSinEmbedding positions C
               (Some (StreamingTransformer.maxPeriod tr)) = Ret posEmb
          /\ TensorUtils.add x
               (TensorUtils.scale posEmb (StreamingTransformer.positionalScale tr))
             = Ret r
          /\ y = mkTensor (data r) (shape r) (device r) (dtype x))
    /\ (StreamingTransformer.sinusoidal tr = false -> y = x).
Proof.
  intros Hs Hwf Hfits.
  destruct (wellFormed_3 x B T C Hwf Hs) as (HB & HT & HC & Hlen).
  unfold StreamingTransformer.forward. rewrite Hs.
  assert (exists offsets,
            StreamingTransformer.baseOffsets
              (StreamingTransformer.streamingState tr) x = Ret offsets)
    as [offsets Hoff].
  { unfold StreamingTransformer.baseOffsets.
    destruct (StreamingTransformer.streamingState tr); [by eexists|].
    rewrite zeros_nonneg; [by eexists|done|].
    rewrite product_1. apply fits_one. }
  exists offsets. rewrite Hoff.
  cbn [bind]. fold (StreamingTransformer.advanced tr T). fold (StreamingTransformer.sinusoidal tr).
  destruct (StreamingTransformer.sinusoidal tr).
  - destruct (Hfits eq_refl) as (HfT & HfBT & HfBTC).
    destruct (arange_view_returns T (device x) HT HfT)
      as (pos & resh & -> & Hview).
    cbn [bind]. rewrite Hview. cbn [bind].
    destruct (expandedPositions_returns B T offsets (device x) HB HT HfBT)
      as (pdata & -> & Hplen & _).
    cbn [bind].
    destruct (createSinEmbedding_patched
                (mkTensor pdata [B; T] (Some (orCpu (device x))) (Some "float32"))
                B T C (Some (StreamingTransformer.maxPeriod tr)) [] eq_refl
                ltac:(nia) HfBTC) as (edata & E & P).
    rewrite E. cbn [bind].
    assert (length edata = Z.to_nat (B * T * C)) as Hel.
    { rewrite (patched_length _ _ _ _ P). apply length_replicate. }
    destruct (add_returns x
                (TensorUtils.scale
                   (mkTensor edata [B; T; C] (Some "cpu") (Some "float32"))
                   (StreamingTransformer.positionalScale tr)))
      as (r & Er & Hrs & Hrl & Hrd).
    { rewrite (proj2 (scale_shape_length _ _)). cbn [data]. lia. }
    rewrite Er. cbn [bind]. rewrite layers_identity.
    eexists. split; [done|]. split; [reflexivity|].
    cbn [shape data device dtype].
    repeat split; try done; try congruence.
    intros _. by eexists _, _, _.
  - cbn [bind]. rewrite layers_identity.
    eexists. split; [done|]. split; [reflexivity|].
    cbn [shape data device dtype].
    repeat split; try done; try congruence. intros _. by destruct x.
Qed.

End ForwardFacts.

(** ** The shell: offsets *)

Section ShellTheorems.
Context {A : Type} `{JsNumber A} `{JsEngine}.

Lemma advance_lookup (state : TransformerState.t A) T k :
  data (TransformerState.offsets (StreamingTransformer.advance state T)) !! k
  = if executes (TransformerState.execMask state) k
    then (fun o => fround (nadd o (of_Z T)))
           <$> data (TransformerState.offsets state) !! k
    else data (TransformerState.offsets state) !! k.
Proof.
  unfold StreamingTransformer.advance. cbn [TransformerState.withOffsets
    TransformerState.offsets withData data].
  pose proof (for_update
    (Z.of_nat (length (data (TransformerState.offsets state))))
    (fun i => match TransformerState.execMask state with
              | None => true
              | Some execMask => default false (execMask !! Z.to_nat i)
              end)
    (fun o => fround (nadd o (of_Z T)))
    (data (TransformerState.offsets state)) k) as Hk.
  cbv beta in Hk. rewrite Hk. rewrite Nat2Z.id. fold (executes (TransformerState.execMask state) k).
  destruct (data (TransformerState.offsets state) !! k) eqn:E.
  - replace (inRange _ _) with true; [done|].
    symmetry. apply inRange_true. apply lookup_lt_Some in E. lia.
  - by destruct (inRange _ _), (executes _ _).
Qed.

(** C1, as the code has it.  A forward call of the shell on a well-formed
    input of shape [[B, T, C]], with a streaming state attached, returns
    (the engine holding the arrays that a sinusoidal embedding builds), and
    leaves a state attached in which every offset whose row is not excluded by [execMask]
    ([execMask] absent, or [execMask[row] == true]) is [round(o + T)]: the
    old offset plus [T], as stored in the [Float32Array] of the offsets;
    every offset with [execMask[row] == false] is the old offset.  The
    store keeps the integers of magnitude at most [2^24]: when the old
    offset is the integer [n] and both [n] and [n + T] are within that
    bound, the new offset is exactly [n + T]. *)
Theorem forward_advances_offsets (tr : StreamingTransformer.t A)
    (state : TransformerState.t A) (x : Tensor A) (B T C : Z) :
  StreamingTransformer.streamingState tr = Some state ->
  shape x = [B; T; C] -> wellFormed x ->
  (StreamingTransformer.sinusoidal tr = true -> shellFits B T C) ->
  exists y tr' state',
    StreamingTransformer.forward tr x = Ret (y, tr')
    /\ StreamingTransformer.streamingState tr' = Some state'
    /\ length (data (TransformerState.offsets state'))
       = length (data (TransformerState.offsets state))
    /\ (forall row o,
          data (TransformerState.offsets state) !! row = Some o ->
          (TransformerState.execMask state = None
           \/ (exists execMask, TransformerState.execMask state = Some execMask
                                /\ execMask !! row = Some true) ->
           data (TransformerState.offsets state') !! row
           = Some (fround (nadd o (of_Z T))))
          /\ ((exists execMask, TransformerState.execMask state = Some execMask
                                /\ execMask !! row = Some false) ->
              data (TransformerState.offsets state') !! row = Some o))
    /\ (ExactIntegers A ->
        forall row n,
          data (TransformerState.offsets state) !! row = Some (of_Z n) ->
          TransformerState.execMask state = None
          \/ (exists execMask, TransformerState.execMask state = Some execMask
                               /\ execMask !! row = Some true) ->
          Z.abs n <= 2 ^ 24 -> Z.abs (n + T) <= 2 ^ 24 ->
          data (TransformerState.offsets state') !! row = Some (of_Z (n + T))).
Proof.
  intros Hst Hs Hwf Hfits.
  destruct (forward_returns tr x B T C Hs Hwf Hfits)
    as (offsets & y & _ & E & _).
  unfold StreamingTransformer.advanced in E. rewrite Hst in E.
  assert (forall row o,
            data (TransformerState.offsets state) !! row = Some o ->
            TransformerState.execMask state = None
            \/ (exists execMask, TransformerState.execMask state = Some execMask
                                 /\ execMask !! row = Some true) ->
            data (TransformerState.offsets
                    (StreamingTransformer.advance state T)) !! row
            = Some (fround (nadd o (of_Z T)))) as Hrun.
  { intros row o Ho Hex. rewrite advance_lookup, Ho.
    destruct Hex as [Hnone|(m & Hm & Hrow)].
    - by rewrite Hnone.
    - rewrite Hm. cbn. by rewrite Hrow. }
  eexists y, _, _. split; [exact E|]. split; [reflexivity|].
  split; [|split].
  - unfold StreamingTransformer.advance. cbn.
    rewrite for_length; [done|].
    intros i l _. destruct (match TransformerState.execMask state with
                            | Some _ => _ | None => _ end); [apply length_set|done].
  - intros row o Ho. split; [by apply Hrun|].
    intros (m & Hm & Hrow). rewrite advance_lookup, Ho, Hm. cbn.
    by rewrite Hrow.
  - intros Hexact row n Ho Hex Hn HnT.
    rewrite (Hrun row _ Ho Hex).
    rewrite nadd_exact, fround_exact by lia. done.
Qed.

(** C7, as the code has it.  In a forward call of the shell on an input
    of shape [[B, T, C]] the offsets read are a single zero when no
    streaming state is attached, and the offsets of the state when one is;
    the position of step [t] of row [b] is [round(t + o)], for the offset
    [o] at [min(b, offsets.length - 1)]: the sum as stored in the
    [Float32Array] of the positions.  So without a state the base offset of
    every row is zero, and with a state of [batchSize > 0] offsets it is
    the offset at [min(b, batchSize - 1)], which is the offset of row [b]
    when [b < batchSize].  The store keeps the integers of magnitude at
    most [2^24]: when the offset is the integer [n] and both [n] and
    [t + n] are within that bound, the position is exactly [t + n].  With a
    sinusoidal embedding the output of the call is the sum of the input and
    of the scaled embedding of these positions. *)
Theorem forward_positions (tr : StreamingTransformer.t A) (x : Tensor A)
    (B T C : Z) :
  shape x = [B; T; C] -> wellFormed x -> shellFits B T C ->
  exists offsets positions,
    StreamingTransformer.baseOffsets (StreamingTransformer.streamingState tr) x
    = Ret offsets
    /\ StreamingTransformer.expandedPositions B T offsets (device x)
       = Ret positions
    /\ shape positions = [B; T]
    /\ (forall b t, 0 <= b < B -> 0 <= t < T ->
          (StreamingTransformer.streamingState tr = None ->
           get (data positions) (b * T + t) = fround (nadd (of_Z t) (of_Z 0)))
          /\ (forall state,
                StreamingTransformer.streamingState tr = Some state ->
                Z.of_nat (length (data (TransformerState.offsets state)))
                = TransformerState.batchSize state ->
                0 < TransformerState.batchSize state ->
                get (data positions) (b * T + t)
                = fround (nadd (of_Z t)
                            (get (data (TransformerState.offsets state))
                               (Z.min b (TransformerState.batchSize state - 1))))
                /\ (b < TransformerState.batchSize state ->
                    data (TransformerState.offsets state) !! Z.to_nat b
                    = Some (get (data (TransformerState.offsets state))
                              (Z.min b (TransformerState.batchSize state - 1))))))
    /\ (ExactIntegers A ->
        forall b t n, 0 <= b < B -> 0 <= t < T ->
          get (data offsets) (Z.min b (Z.of_nat (length (data offsets)) - 1))
          = of_Z n ->
          Z.abs n <= 2 ^ 24 -> Z.abs (t + n) <= 2 ^ 24 ->
          get (data positions) (b * T + t) = of_Z (t + n))
    /\ (StreamingTransformer.sinusoidal tr = true ->
        exists posEmb r y tr',
          PositionalEmbedding.createSinEmbedding positions C
            (Some (StreamingTransformer.maxPeriod tr)) = Ret posEmb
          /\ TensorUtils.add x
               (TensorUtils.scale posEmb (StreamingTransformer.positionalScale tr))
             = Ret r
          /\ StreamingTransformer.forward tr x = Ret (y, tr')
          /\ data y = data r).
Proof.
  intros Hs Hwf Hfits.
  destruct (wellFormed_3 x B T C Hwf Hs) as (HB & HT & HC & Hlen).
  destruct (forward_returns tr x B T C Hs Hwf (fun _ => Hfits))
    as (offsets & y & Hoff & E & _ & _ & _ & _ & Hsin & _).
  destruct (expandedPositions_returns B T offsets (device x) HB HT
              (proj1 (proj2 Hfits)))
    as (pdata & Epos & Hplen & Hget).
  exists offsets. eexists. split; [exact Hoff|]. split; [exact Epos|].
  split; [done|]. split; [|split].
  - intros b t Hb Ht. cbn [data]. rewrite (Hget b t Hb Ht). split.
    + intros Hnone. rewrite Hnone in Hoff.
      unfold StreamingTransformer.baseOffsets in Hoff.
      rewrite zeros_nonneg in Hoff; [|done|rewrite product_1; apply fits_one].
      injection Hoff as <-.
      cbn [data].
      change (newArrayOfLength (Z.to_nat (product [1]))) with [of_Z (A := A) 0].
      cbn [length]. replace (Z.min b (Z.of_nat 1 - 1)) with 0 by lia. reflexivity.
    + intros state Hst Hwfst Hpos. rewrite Hst in Hoff. cbn in Hoff.
      injection Hoff as <-. rewrite Hwfst. split; [done|].
      intros Hlt. replace (Z.min b (TransformerState.batchSize state - 1)) with b by lia.
      unfold get. destruct (Z.leb_spec 0 b); [|lia].
      destruct (lookup_lt_is_Some_2 (data (TransformerState.offsets state)) (Z.to_nat b))
        as [o Ho]; [lia|]. by rewrite Ho.
  - intros Hexact b t n Hb Ht Ho Hn Htn. cbn [data].
    rewrite (Hget b t Hb Ht), Ho.
    rewrite nadd_exact, fround_exact by lia. done.
  - intros Hsinus.
    destruct (Hsin Hsinus) as (positions & posEmb & r & Epos' & Eemb & Eadd & ->).
    rewrite Epos in Epos'. injection Epos' as <-.
    by eexists _, _, _, _.
Qed.

End ShellTheorems.

(** C1, as stated, fails from the offset [2^24] on: the offsets are a
    [Float32Array], in which [16777216 + 1] is stored as 16777216 and
    [16777216 + 3] as 16777220. *)
Lemma offsets_stall_at_2_24 :
  data (TransformerState.offsets longState) = [Int 16777216]
  /\ (exists y tr' state',
        StreamingTransformer.forward
          (StreamingTransformer.attach numShell (Some longState)) oneStep
        = Ret (y, tr')
        /\ StreamingTransformer.streamingState tr' = Some state'
        /\ data (TransformerState.offsets state') = [Int 16777216])
  /\ (exists y tr' state',
        StreamingTransformer.forward
          (StreamingTransformer.attach numShell (Some longState)) threeSteps
        = Ret (y, tr')
        /\ StreamingTransformer.streamingState tr' = Some state'
        /\ data (TransformerState.offsets state') = [Int 16777220])
  /\ Int 16777216 <> Int (16777216 + 1)
  /\ Int 16777220 <> Int (16777216 + 3).
Proof.
  split; [reflexivity|].
  split; [do 3 eexists; split; [vm_compute; reflexivity|split; reflexivity]|].
  split; [do 3 eexists; split; [vm_compute; reflexivity|split; reflexivity]|].
  split; discriminate.
Qed.

(** C7, as stated, fails from the offset [2^24] on: the positions are a
    [Float32Array], in which the position of the step 1 of a row at the
    offset 16777216 is stored as 16777216, the position of the step 0. *)
Lemma positions_collide_at_2_24 :
  exists offsets positions,
    StreamingTransformer.baseOffsets (Some longState) twoSteps = Ret offsets
    /\ StreamingTransformer.expandedPositions 1 2 offsets (device twoSteps)
       = Ret positions
    /\ data offsets = [Int 16777216]
    /\ get (data positions) (0 * 2 + 1) = Int 16777216
    /\ Int 16777216 <> Int (1 + 16777216).
Proof.
  do 2 eexists. split; [reflexivity|]. split; [vm_compute; reflexivity|].
  split; [reflexivity|]. split; [reflexivity|discriminate].
Qed.

(** ** The projected transformer *)

Lemma bind_Ret {T U : Type} (r : result T) (k : T -> result U) v :
  bind r k = Ret v -> exists a, r = Ret a /\ k a = Ret v.
Proof. destruct r; cbn; [by eexists|done..]. Qed.

Lemma mapM_Forall2 {T U : Type} (f : T -> result U) l rs :
  mapM f l = Ret rs -> Forall2 (fun a b => f a = Ret b) l rs.
Proof.
  revert rs. induction l as [|a l IH]; intros rs Hm; cbn in Hm.
  - injection Hm as <-. constructor.
  - apply bind_Ret in Hm as (b & Hb & Hm).
    apply bind_Ret in Hm as (bs & Hbs & Hm). injection Hm as <-.
    constructor; [done|by apply IH].
Qed.

Lemma mapM_returns {T U : Type} (f : T -> result U) l :
  Forall (fun a => exists b, f a = Ret b) l -> exists rs, mapM f l = Ret rs.
Proof.
  induction 1 as [|a l [b Hb] _ [rs IH]]; cbn.
  - by eexists.
  - rewrite Hb, IH. cbn. by eexists.
Qed.

Section LinearFacts.
Context {A : Type} `{JsNumber A} `{JsEngine}.

Lemma Linear_new_inv inF outF draw (l : Linear.t A) :
  Linear.new inF outF (Some false) draw = Ret l ->
  Linear.inFeatures l = inF /\ Linear.outFeatures l = outF
  /\ Linear.bias l = None /\ shape (Linear.weight l) = [outF; inF].
Proof.
  unfold Linear.new. intros Hn.
  apply bind_Ret in Hn as (w & _ & Hn). cbn in Hn. by injection Hn as <-.
Qed.

Lemma Linear_forward_returns (l : Linear.t A) (x : Tensor A) :
  0 <= product (removelast (shape x) ++ [Linear.outFeatures l]) ->
  fits (product (removelast (shape x) ++ [Linear.outFeatures l])) ->
  exists r,
    Linear.forward l x = Ret r
    /\ shape r = removelast (shape x) ++ [Linear.outFeatures l]
    /\ Z.of_nat (length (data r))
       = product (removelast (shape x) ++ [Linear.outFeatures l]).
Proof.
  intros Hp Hfit. unfold Linear.forward. rewrite zeros_nonneg by done.
  cbn [bind]. eexists. split; [reflexivity|].
  unfold withData. cbn [shape data]. split; [done|].
  rewrite for_length.
  - unfold newArrayOfLength. rewrite length_replicate. lia.
  - intros b r _. apply for_length. intros out r' _. apply length_set.
Qed.

End LinearFacts.

Section ProjectedFacts.
Context {A : Type} `{JsNumber A} `{JsEngine}.

(** What the constructor builds. *)
Lemma ProjectedTransformer_new_inv o draws (pt : ProjectedTransformer.t A) :
  ProjectedTransformer.new o draws = Ret pt ->
  ProjectedTransformer.convLayout pt
  = default false (ProjectedTransformer.o_convLayout o)
  /\ match ProjectedTransformer.inputProj pt with
     | Some l => Linear.inFeatures l = ProjectedTransformer.o_inputDimension o
                 /\ Linear.outFeatures l = ProjectedTransformer.o_dModel o
     | None => ProjectedTransformer.o_inputDimension o
               = ProjectedTransformer.o_dModel o
     end
  /\ Forall2 (projectionFor (ProjectedTransformer.o_dModel o))
       (ProjectedTransformer.o_outputDimensions o)
       (ProjectedTransformer.outputProjs pt).
Proof.
  unfold ProjectedTransformer.new. intros Hn.
  apply bind_Ret in Hn as (tr & _ & Hn).
  apply bind_Ret in Hn as (ip & Hip & Hn).
  apply bind_Ret in Hn as (ops & Hops & Hn).
  injection Hn as <-. cbn. split; [done|]. split.
  - destruct (Z.eqb_spec (ProjectedTransformer.o_dModel o)
                (ProjectedTransformer.o_inputDimension o)) as [Heq|Hne];
      cbn in Hip.
    + by injection Hip as <-.
    + apply bind_Ret in Hip as (l & Hl & Hip). injection Hip as <-.
      by destruct (Linear_new_inv _ _ _ _ Hl) as (-> & -> & _).
  - apply mapM_Forall2 in Hops.
    apply Forall2_same_length_lookup. split.
    + rewrite <- (Forall2_length _ _ _ Hops). by rewrite length_imap.
    + intros j w p Hw Hp.
      pose proof (Forall2_lookup_lr _ _ _ j (j, w) p Hops) as Hjp.
      rewrite list_lookup_imap, Hw in Hjp. specialize (Hjp eq_refl Hp).
      unfold ProjectedTransformer.outputProj in Hjp. cbn [fst snd] in Hjp.
      destruct (Z.eqb_spec (ProjectedTransformer.o_dModel o) w) as [Heq|Hne].
      * by injection Hjp as <-.
      * apply bind_Ret in Hjp as (l & Hl & Hjp). injection Hjp as <-.
        destruct (Linear_new_inv _ _ _ _ Hl) as (Hi & Ho & _).
        cbn. repeat split; try done; congruence.
Qed.

Lemma wellFormed_intro (t : Tensor A) B T C :
  shape t = [B; T; C] -> 0 <= B -> 0 <= T -> 0 <= C ->
  Z.of_nat (length (data t)) = B * T * C -> wellFormed t.
Proof.
  intros Hs HB HT HC Hl. split.
  - rewrite Hs. by repeat constructor.
  - by rewrite Hs, product_3.
Qed.

(** [transpose(_, 1, 2)] on a well-formed tensor of rank 3. *)
Lemma transpose_12_wellFormed (t : Tensor A) B T C :
  shape t = [B; T; C] -> wellFormed t ->
  exists u, TensorUtils.transpose t 1 2 = Ret u
            /\ shape u = [B; C; T] /\ wellFormed u.
Proof.
  intros Hs Hwf.
  destruct (wellFormed_3 t B T C Hwf Hs) as (HB & HT & HC & Hlen).
  destruct (transpose_12 t B T C Hs) as (d & E & P).
  eexists. split; [exact E|]. split; [done|].
  apply (wellFormed_intro _ B C T); try done. cbn [data].
  rewrite (patched_length _ _ _ _ P). unfold newArrayOfLength.
  rewrite length_replicate. lia.
Qed.

(** A linear projection of a well-formed tensor of shape [[B, T, C]]. *)
Lemma Linear_forward_wellFormed (l : Linear.t A) (x : Tensor A) B T C :
  shape x = [B; T; C] -> 0 <= B -> 0 <= T -> 0 <= Linear.outFeatures l ->
  fits (B * T * Linear.outFeatures l) ->
  exists r, Linear.forward l x = Ret r
            /\ shape r = [B; T; Linear.outFeatures l] /\ wellFormed r.
Proof.
  intros Hs HB HT HO Hfit.
  assert (removelast (shape x) ++ [Linear.outFeatures l]
          = [B; T; Linear.outFeatures l]) as Hshape by (by rewrite Hs).
  destruct (Linear_forward_returns l x) as (r & E & Hrs & Hrl).
  { rewrite Hshape, product_3. nia. }
  { by rewrite Hshape, product_3. }
  exists r. split; [done|]. rewrite Hshape in Hrs, Hrl. split; [done|].
  apply (wellFormed_intro _ B T (Linear.outFeatures l)); try done.
  by rewrite Hrl, product_3.
Qed.

End ProjectedFacts.

Section ProjectedTheorem.
Context {A : Type} `{JsNumber A} `{JsEngine}.

Lemma outputRound_returns conv (z : Tensor A) B T dModel w p :
  shape z = [B; T; dModel] -> wellFormed z ->
  projectionFor dModel w p -> 0 <= w -> fits (B * T * w) ->
  exists y,
    ProjectedTransformer.outputRound conv z p = Ret y
    /\ shape y = (if conv then [B; w; T] else [B; T; w])
    /\ (w = dModel ->
        p = inr Identity.mk
        /\ (if conv then TensorUtils.transpose z 1 2 else Ret z) = Ret y).
Proof.
  intros Hs Hwf Hp Hw Hfit.
  destruct (wellFormed_3 z B T dModel Hwf Hs) as (HB & HT & HC & Hlen).
  unfold ProjectedTransformer.outputRound. destruct p as [l|i]; cbn in Hp.
  - destruct Hp as (Hne & Hin & Hout).
    destruct (Linear_forward_wellFormed l z B T dModel Hs HB HT ltac:(lia)
                ltac:(by rewrite Hout))
      as (r & E & Hrs & Hrwf).
    cbn [ProjectedTransformer.projForward]. rewrite E. cbn [bind].
    rewrite Hout in Hrs. destruct conv.
    + destruct (transpose_12_wellFormed r B T w Hrs Hrwf) as (u & Eu & Hus & _).
      exists u. repeat split; try done; congruence.
    + exists r. repeat split; try done; congruence.
  - subst w. cbn [ProjectedTransformer.projForward bind].
    replace (Identity.forward i z) with z by (by destruct z).
    destruct conv.
    + destruct (transpose_12_wellFormed z B T dModel Hs Hwf) as (u & Eu & Hus & _).
      exists u. repeat split; try done. by destruct i.
    + exists z. repeat split; try done. by destruct i.
Qed.

(** C9.  On a well-formed input, [forward] of a projected transformer
    built by the constructor returns (the engine holding the arrays it
    builds) one tensor for each configured output
    width, in the order of the configuration; the projection of a width
    equal to the width of the model is the identity, so that its output is
    the output of the shell (transposed back in the channel-first layout);
    the output for the width [w] has the shape [[B, T, w]] in the
    sequence-first layout and [[B, w, T]] in the channel-first one. *)
Theorem projected_forward_outputs (o : ProjectedTransformer.options A)
    (draws : nat -> Z -> A) (pt : ProjectedTransformer.t A) (x : Tensor A)
    (B T : Z) :
  ProjectedTransformer.new o draws = Ret pt ->
  shape x = (if ProjectedTransformer.convLayout pt
             then [B; ProjectedTransformer.o_inputDimension o; T]
             else [B; T; ProjectedTransformer.o_inputDimension o]) ->
  wellFormed x ->
  0 <= ProjectedTransformer.o_dModel o ->
  Forall (fun w => 0 <= w) (ProjectedTransformer.o_outputDimensions o) ->
  shellFits B T (ProjectedTransformer.o_dModel o) ->
  Forall (fun w => fits (B * T * w)) (ProjectedTransformer.o_outputDimensions o) ->
  exists ys pt' x' z tr',
    ProjectedTransformer.shellInput pt x = Ret x'
    /\ StreamingTransformer.forward (ProjectedTransformer.transformer pt) x'
       = Ret (z, tr')
    /\ ProjectedTransformer.forward pt x = Ret (ys, pt')
    /\ length ys = length (ProjectedTransformer.o_outputDimensions o)
    /\ forall j w,
         ProjectedTransformer.o_outputDimensions o !! j = Some w ->
         exists p y,
           ProjectedTransformer.outputProjs pt !! j = Some p
           /\ ys !! j = Some y
           /\ ProjectedTransformer.outputRound (ProjectedTransformer.convLayout pt) z p = Ret y
           /\ shape y = (if ProjectedTransformer.convLayout pt
                         then [B; w; T] else [B; T; w])
           /\ (w = ProjectedTransformer.o_dModel o ->
               p = inr Identity.mk
               /\ (if ProjectedTransformer.convLayout pt
                   then TensorUtils.transpose z 1 2 else Ret z) = Ret y).
Proof.
  intros Hnew Hs Hwf HdM Hows Hfits Hofits.
  destruct (ProjectedTransformer_new_inv o draws pt Hnew) as (_ & Hip & Hops).
  set (iw := ProjectedTransformer.o_inputDimension o) in *.
  set (dM := ProjectedTransformer.o_dModel o) in *.
  (* the layout conversion of the input *)
  assert (exists x1, (if ProjectedTransformer.convLayout pt
                      then TensorUtils.transpose x 1 2 else Ret x) = Ret x1
                     /\ shape x1 = [B; T; iw] /\ wellFormed x1)
    as (x1 & Ex1 & Hs1 & Hwf1).
  { destruct (ProjectedTransformer.convLayout pt).
    - destruct (transpose_12_wellFormed x B iw T Hs Hwf) as (u & Eu & Hus & Huwf).
      by exists u.
    - by exists x. }
  destruct (wellFormed_3 x1 B T iw Hwf1 Hs1) as (HB & HT & Hiw & Hlen1).
  (* the input projection *)
  assert (exists x', ProjectedTransformer.shellInput pt x = Ret x'
                     /\ shape x' = [B; T; dM] /\ wellFormed x')
    as (x' & Ex' & Hs' & Hwf').
  { unfold ProjectedTransformer.shellInput. rewrite Ex1. cbn [bind].
    destruct (ProjectedTransformer.inputProj pt) as [l|].
    - destruct Hip as [Hin Hout].
      destruct (Linear_forward_wellFormed l x1 B T iw Hs1 HB HT ltac:(lia)
                  ltac:(rewrite Hout; apply Hfits))
        as (r & E & Hrs & Hrwf).
      exists r. rewrite Hout in Hrs. done.
    - exists x1. rewrite <- Hip. done. }
  (* the shell *)
  destruct (forward_returns (ProjectedTransformer.transformer pt) x' B T dM Hs' Hwf'
              (fun _ => Hfits))
    as (offsets & z & _ & Ez & Hzs & Hzl & _).
  assert (wellFormed z) as Hzwf.
  { destruct Hwf' as [Hpos Hlen']. split; rewrite Hzs; [done|]. by rewrite Hzl. }
  rewrite Hs' in Hzs.
  (* the output projections *)
  assert (Forall (fun p => exists y,
            ProjectedTransformer.outputRound (ProjectedTransformer.convLayout pt) z p = Ret y)
            (ProjectedTransformer.outputProjs pt)) as Hall.
  { apply Forall_lookup. intros j p Hp.
    destruct (Forall2_lookup_r _ _ _ j p Hops Hp) as (w & Hw & Hpw).
    destruct (outputRound_returns (ProjectedTransformer.convLayout pt)
                z B T dM w p Hzs Hzwf Hpw) as (y & Ey & _).
    { by apply (Forall_lookup_1 _ _ _ _ Hows Hw). }
    { by apply (Forall_lookup_1 _ _ _ _ Hofits Hw). }
    by exists y. }
  destruct (mapM_returns _ _ Hall) as (ys & Eys).
  pose proof (mapM_Forall2 _ _ _ Eys) as Hys.
  exists ys. eexists. exists x', z. eexists.
  split; [exact Ex'|]. split; [exact Ez|]. split.
  { unfold ProjectedTransformer.forward. rewrite Ex'. cbn [bind].
    rewrite Ez. cbn [bind fst snd].
    rewrite Eys. cbn [bind]. reflexivity. }
  split.
  { rewrite <- (Forall2_length _ _ _ Hys). symmetry.
    apply (Forall2_length _ _ _ Hops). }
  intros j w Hw.
  destruct (Forall2_lookup_l _ _ _ j w Hops Hw) as (p & Hp & Hpw).
  destruct (Forall2_lookup_l _ _ _ j p Hys Hp) as (y & Hy & Ey).
  destruct (outputRound_returns (ProjectedTransformer.convLayout pt)
              z B T dM w p Hzs Hzwf Hpw) as (y' & Ey' & Hshape & Hid).
  { by apply (Forall_lookup_1 _ _ _ _ Hows Hw). }
  { by apply (Forall_lookup_1 _ _ _ _ Hofits Hw). }
  rewrite Ey in Ey'. injection Ey' as <-.
  by exists p, y.
Qed.

End ProjectedTheorem.

(** * Concrete runs

    Each theorem above that has a hypothesis is applied here to a concrete
    input, over the term model or the integer model of the numbers. *)

Lemma sampleTensor_wellFormed : wellFormed sampleTensor.
Proof. split; [repeat constructor; lia|reflexivity]. Defined.

Lemma transpose_round_trip_witness :
  wellFormed sampleTensor /\ length (shape sampleTensor) = 3%nat
  /\ exists u, TensorUtils.transpose sampleTensor 1 2 = Ret u
               /\ TensorUtils.transpose u 1 2 = Ret sampleTensor.
Proof.
  split; [exact sampleTensor_wellFormed|]. split; [reflexivity|].
  apply (transpose_round_trip sampleTensor sampleTensor_wellFormed eq_refl).
Defined.

Lemma transpose_reversed_axes_witness :
  length (shape sampleTensor) = 3%nat
  /\ exists r,
       TensorUtils.transpose sampleTensor 2 1 = Ret r
       /\ shape r = [2; 2; 3]
       /\ get (data r) (0 * 2 * 3 + 0 * 3 + 1) = TInt 3
       /\ get (data r) (1 * 2 * 3 + 1 * 3 + 0) = TInt 8
       /\ exists u, TensorUtils.transpose r 1 2 = Ret u
                    /\ data u = data sampleTensor.
Proof.
  split; [reflexivity|].
  destruct (transpose_reversed_axes sampleTensor eq_refl)
    as (r & E & Hs & _ & _ & _ & Hinv).
  destruct (Hinv sampleTensor_wellFormed) as (Hel & Hback & _).
  exists r. split; [exact E|]. split; [exact Hs|].
  split; [|split; [|exact Hback]].
  - rewrite (Hel 2 2 3 eq_refl 0 0 1) by lia. reflexivity.
  - rewrite (Hel 2 2 3 eq_refl 1 1 0) by lia. reflexivity.
Defined.

Lemma add_outcome_witness :
  let a := mkTensor (TInt <$> [1; 2; 3]) [3] None None in
  let b := mkTensor (TInt <$> [4; 5; 6; 7]) [4] None None in
  wellFormed a /\ wellFormed b
  /\ exists e1 e2 e3,
       TensorUtils.add a b = Throw e1 /\ ServerTensorUtils.add a b = Throw e2
       /\ WebTensorUtils.add a b = Throw e3
       /\ kind_of e1 = ShapeMismatch /\ kind_of e2 = ShapeMismatch
       /\ kind_of e3 = ShapeMismatch.
Proof.
  cbv zeta.
  assert (wellFormed (mkTensor (TInt <$> [1; 2; 3]) [3] None None)) as Ha
    by (split; [repeat constructor; lia|reflexivity]).
  assert (wellFormed (mkTensor (TInt <$> [4; 5; 6; 7]) [4] None None)) as Hb
    by (split; [repeat constructor; lia|reflexivity]).
  split; [exact Ha|]. split; [exact Hb|].
  exact (proj2 (proj2 (proj2 (add_outcome _ _))) Ha Hb eq_refl eq_refl).
Defined.

Lemma view_and_reshape_outcome_witness :
  ((-1) ∉ [2]) /\ ((-1) ∉ [3; 5])
  /\ product ([2] ++ [2]) <> 0
  /\ Z.of_nat (length (data sampleTensor)) mod product ([2] ++ [2]) = 0
  /\ TensorUtils.view sampleTensor ([2] ++ -1 :: [2])
     = Ret (mkTensor (data sampleTensor) [2; 3; 2] (Some "cpu") (Some "float32"))
  /\ TensorUtils.view sampleTensor ([2] ++ -1 :: [] ++ -1 :: [2])
     = Throw OnlyOneDimensionInferred
  /\ TensorUtils.view sampleTensor [3; 5] = Throw CannotReshape.
Proof.
  assert ((-1) ∉ [2]) as H2 by absent.
  assert ((-1) ∉ [3; 5]) as H35 by absent.
  destruct (view_and_reshape_outcome sampleTensor) as (Htwo & Hone & Hnone & _).
  split; [exact H2|]. split; [exact H35|].
  split; [discriminate|]. split; [reflexivity|].
  split; [|split].
  - apply (proj1 (Hone [2] [2] H2 H2)); [discriminate|reflexivity].
  - apply (Htwo [2] [] [2] H2).
  - apply (Hnone [3; 5] H35).
Defined.

Lemma reset_outcome_witness :
  Z.of_nat (length (data (NodeStreamingState.offsets sampleNodeState)))
  = NodeStreamingState.batchSize sampleNodeState
  /\ data (NodeStreamingState.offsets
             (NodeStreamingState.reset sampleNodeState (Some [true; false; true])))
     !! 0%nat = Some (TInt 0)
  /\ data (NodeStreamingState.offsets
             (NodeStreamingState.reset sampleNodeState (Some [true; false; true])))
     !! 1%nat = Some (TInt 10)
  /\ data (NodeStreamingState.offsets
             (NodeStreamingState.reset sampleNodeState (Some [true])))
     !! 2%nat = Some (TInt 15)
  /\ Forall (fun x => x = TInt 0)
       (data (NodeStreamingState.offsets
                (NodeStreamingState.reset sampleNodeState None)))
  /\ TransformerState.resetCall sampleState None = TypeError.
Proof.
  destruct (reset_outcome (A := term)) as (Hnode & _ & _ & Hcall).
  destruct (Hnode sampleNodeState eq_refl) as ((_ & Hall) & Hmask).
  split; [reflexivity|]. split; [|split; [|split; [|split]]];
    [| | | |exact (proj1 (Hcall sampleState))].
  - apply (proj1 (Hmask [true; false; true] 0%nat (TInt 5) eq_refl));
      [reflexivity|reflexivity].
  - apply (proj2 (Hmask [true; false; true] 1%nat (TInt 10) eq_refl)).
    intros [_ Hm]. discriminate Hm.
  - apply (proj2 (Hmask [true] 2%nat (TInt 15) eq_refl)).
    intros [_ Hm]. discriminate Hm.
  - exact Hall.
Defined.

Lemma createSinEmbedding_elements_witness :
  shape samplePositions = [1; 2] /\ wellFormed samplePositions /\ 0 <= 3
  /\ fits (1 * 2 * 3)
  /\ exists e,
       PositionalEmbedding.createSinEmbedding samplePositions 3 None = Ret e
       /\ shape e = [1; 2; 3]
       /\ get (data e) 5
          = TRound (TSin (TDiv (TInt 1)
                            (TPow (TInt 10000) (TDiv (TInt 2) (TInt 3)))))
       /\ get (data e) 4
          = TRound (TCos (TDiv (TInt 1)
                            (TPow (TInt 10000) (TDiv (TInt 0) (TInt 3))))).
Proof.
  assert (wellFormed samplePositions) as Hwf
    by (split; [repeat constructor; lia|reflexivity]).
  assert (fits (1 * 2 * 3)) as Hfits by fitting.
  split; [reflexivity|]. split; [exact Hwf|]. split; [lia|].
  split; [exact Hfits|].
  destruct (createSinEmbedding_elements samplePositions 1 2 3 None eq_refl Hwf
              ltac:(lia) Hfits) as (e & E & Hs & _ & Hel & _ & Hodd).
  exists e. split; [exact E|]. split; [exact Hs|]. split.
  - exact (Hodd eq_refl 0 1 ltac:(lia) ltac:(lia)).
  - exact (proj2 (Hel 0 1 0 ltac:(lia) ltac:(lia) ltac:(lia) eq_refl)
             ltac:(lia)).
Defined.

Lemma sampleShell_built :
  StreamingTransformer.new
    (StreamingTransformer.mkOptions 2 (Some 1) (Some 1) None None None None
       None None None)
  = Ret sampleShell.
Proof. reflexivity. Qed.

Lemma sampleChunk_wellFormed : wellFormed sampleChunk.
Proof. split; [repeat constructor; lia|reflexivity]. Defined.

Lemma numChunk_wellFormed : wellFormed numChunk.
Proof. split; [repeat constructor; lia|reflexivity]. Defined.

Lemma forward_advances_offsets_witness :
  StreamingTransformer.streamingState
    (StreamingTransformer.attach numShell (Some numState)) = Some numState
  /\ shape numChunk = [3; 2; 2] /\ wellFormed numChunk /\ shellFits 3 2 2
  /\ exists y tr' state',
       StreamingTransformer.forward
         (StreamingTransformer.attach numShell (Some numState)) numChunk
       = Ret (y, tr')
       /\ StreamingTransformer.streamingState tr' = Some state'
       /\ data (TransformerState.offsets state') !! 0%nat = Some (Int 7)
       /\ data (TransformerState.offsets state') !! 1%nat = Some (Int 7).
Proof.
  assert (shellFits 3 2 2) as Hfits by fitting.
  split; [reflexivity|]. split; [reflexivity|].
  split; [exact numChunk_wellFormed|]. split; [exact Hfits|].
  destruct (forward_advances_offsets
              (StreamingTransformer.attach numShell (Some numState))
              numState numChunk 3 2 2 eq_refl eq_refl numChunk_wellFormed
              (fun _ => Hfits))
    as (y & tr' & state' & E & Hst & _ & Hrow & Hexact).
  exists y, tr', state'. split; [exact E|]. split; [exact Hst|]. split.
  - apply (Hexact num_exact 0%nat 5 eq_refl); [|cbn; lia|cbn; lia].
    right. exists [true; false]. split; reflexivity.
  - apply (proj2 (Hrow 1%nat (Int 7) eq_refl)).
    exists [true; false]. split; reflexivity.
Defined.

Lemma forward_positions_witness :
  shape numChunk = [3; 2; 2] /\ wellFormed numChunk /\ shellFits 3 2 2
  /\ exists offsets positions,
       StreamingTransformer.baseOffsets (Some numState) numChunk = Ret offsets
       /\ StreamingTransformer.expandedPositions 3 2 offsets (device numChunk)
          = Ret positions
       /\ get (data positions) (0 * 2 + 1) = Int 6
       /\ get (data positions) (2 * 2 + 0) = Int 7.
Proof.
  assert (shellFits 3 2 2) as Hfits by fitting.
  split; [reflexivity|]. split; [exact numChunk_wellFormed|].
  split; [exact Hfits|].
  destruct (forward_positions
              (StreamingTransformer.attach numShell (Some numState))
              numChunk 3 2 2 eq_refl numChunk_wellFormed Hfits)
    as (offsets & positions & Eo & Ep & _ & _ & Hexact & _).
  injection Eo as <-.
  eexists _, positions. split; [reflexivity|]. split; [exact Ep|]. split.
  - apply (Hexact num_exact 0 1 5); [lia|lia|reflexivity|cbn; lia|cbn; lia].
  - apply (Hexact num_exact 2 0 7); [lia|lia|reflexivity|cbn; lia|cbn; lia].
Defined.

Lemma projected_forward_outputs_witness :
  ProjectedTransformer.new sampleOptions sampleDraws = Ret sampleProjected
  /\ wellFormed sampleInput
  /\ exists y0 y1 pt',
       ProjectedTransformer.forward sampleProjected sampleInput
       = Ret ([y0; y1], pt')
       /\ shape y0 = [2; 3; 4] /\ shape y1 = [2; 3; 8].
Proof.
  assert (ProjectedTransformer.new sampleOptions sampleDraws = Ret sampleProjected)
    as Hnew by (vm_compute; reflexivity).
  assert (wellFormed sampleInput) as Hwf
    by (split; [repeat constructor; lia|reflexivity]).
  split; [exact Hnew|]. split; [exact Hwf|].
  destruct (projected_forward_outputs sampleOptions sampleDraws sampleProjected
              sampleInput 2 3 Hnew eq_refl Hwf ltac:(cbn; lia)
              ltac:(repeat constructor; lia) ltac:(fitting)
              ltac:(repeat constructor; fitting))
    as (ys & pt' & x' & z & tr' & _ & _ & E & Hlen & Hout).
  destruct (Hout 0%nat 4 eq_refl) as (p0 & y0 & _ & Hy0 & _ & Hs0 & _).
  destruct (Hout 1%nat 8 eq_refl) as (p1 & y1 & _ & Hy1 & _ & Hs1 & _).
  destruct ys as [|a [|b [|c ys]]]; try discriminate Hlen.
  cbn in Hy0, Hy1. injection Hy0 as ->. injection Hy1 as ->.
  exists y0, y1, pt'. split; [exact E|]. split; [exact Hs0|exact Hs1].
Defined.

(** * Further properties

    Properties of the functions around those above: the other tensor
    utilities, the layers, the constructors, the streaming of several
    chunks, the placeholder transformers and the messages. *)

(** ** Ranges and scaling *)


Section RangeTheorems.
Context {A : Type} `{JsNumber A} `{JsEngine}.

(** [for (i = 0; i < n; i++) arr[i] = g(i)] on a fresh array of [n] elements,
    for an integer [n] that is not negative. *)
Lemma fill_fresh n (g : Z -> A) :
  0 <= n ->
  let r := for_ n (fun i arr => set arr i (g i)) (newArrayOfLength (Z.to_nat n)) in
  Z.of_nat (length r) = n
  /\ forall k, Z.of_nat k < n -> r !! k = Some (g (Z.of_nat k)).
Proof.
  intros Hn. cbv zeta.
  destruct (for_fill (Z.to_nat n) g) as [Hl Hk].
  rewrite Z2Nat.id in Hl, Hk by done. split; [lia|].
  intros k Hlt. apply Hk. lia.
Qed.

(** X1.  [arange(end)] of the transliterated transformer returns, for every
    [end] from zero to the largest length of a typed array, the tensor of
    shape [[end]] holding [0, 1, ..., end - 1] (each as stored in a
    [Float32Array]), which is empty for [end = 0]; for a negative [end] and
    for an [end] above that length it throws the [RangeError] of the array
    constructor. *)
Theorem arange_outcome (end_ : Z) (dev : option string) :
  match TensorUtils.arange (A := A) end_ dev with
  | Ret t => 0 <= end_ <= Z.pos maxLength /\ shape t = [end_]
             /\ Z.of_nat (length (data t)) = end_
             /\ forall k, Z.of_nat k < end_ ->
                  data t !! k = Some (fround (of_Z (Z.of_nat k)))
  | Throw e => (end_ < 0 \/ Z.pos maxLength < end_) /\ e = InvalidArrayLength
  | NonInteger => False
  end.
Proof.
  unfold TensorUtils.arange.
  destruct (newArray_cases (A := A) end_) as [(Hpos & Hfit & ->)|(Hbad & ->)];
    cbn [bind]; unfold fits in *; [|split; [lia|done]].
  cbn [shape data].
  destruct (fill_fresh end_ (fun i => fround (of_Z i)) Hpos) as [Hl Hk].
  done.
Qed.

Lemma scale_loop (tensor : Tensor A) scalar dt :
  isScaled tensor scalar
    (mkTensor
       (for_ (Z.of_nat (length (data tensor)))
          (fun i result =>
             set result i (fround (nmul (get (data tensor) i) scalar)))
          (newArrayOfLength (length (data tensor))))
       (shape tensor) (device tensor) dt).
Proof.
  destruct (for_fill (length (data tensor))
              (fun i => fround (nmul (get (data tensor) i) scalar))) as [Hl Hk].
  repeat split; try done.
  intros k x Hx. cbn [data]. rewrite Hk by (by apply lookup_lt_Some in Hx).
  by rewrite (get_lookup _ _ _ Hx).
Qed.

(** X2.  [scale(tensor, scalar)] never fails, whatever the shape and the
    buffer: the three variants return a tensor of the same shape, device
    and number of elements, each element being the product of the element
    of the input and of the scalar, as stored in a [Float32Array].  The
    transliterated transformer and the server keep the [dtype] tag, the
    client sets it to "float32". *)
Theorem scale_elements (tensor : Tensor A) (scalar : A) :
  (isScaled tensor scalar (TensorUtils.scale tensor scalar)
   /\ dtype (TensorUtils.scale tensor scalar) = dtype tensor)
  /\ (isScaled tensor scalar (ServerTensorUtils.scale tensor scalar)
      /\ dtype (ServerTensorUtils.scale tensor scalar) = dtype tensor)
  /\ (isScaled tensor scalar (WebTensorUtils.scale tensor scalar)
      /\ dtype (WebTensorUtils.scale tensor scalar) = Some "float32").
Proof.
  repeat split; try apply scale_loop; apply (scale_loop tensor scalar).
Qed.

End RangeTheorems.

Section ServerRangeTheorems.
Context {A : Type} `{JsNumber A} `{JsEngine}.


End ServerRangeTheorems.

(** ** Transposition and views *)

Section MoreTransposeTheorems.
Context {A : Type} `{JsNumber A} `{JsEngine}.

(** X4.  On a well-formed tensor of shape [[B, T, C]], [transpose(t, 1, 2)]
    returns a tensor of shape [[B, C, T]] with the device and the element
    type of [t], whose element [(b, c, t)] is the element [(b, t, c)] of
    [t]. *)
Theorem transpose_12_elements (tensor : Tensor A) (B T C : Z) :
  shape tensor = [B; T; C] -> wellFormed tensor ->
  exists u,
    TensorUtils.transpose tensor 1 2 = Ret u
    /\ shape u = [B; C; T] /\ device u = device tensor /\ dtype u = dtype tensor
    /\ length (data u) = length (data tensor)
    /\ forall b t c, 0 <= b < B -> 0 <= t < T -> 0 <= c < C ->
         get (data u) (b * C * T + c * T + t)
         = get (data tensor) (b * T * C + t * C + c).
Proof.
  intros Hs Hwf.
  destruct (wellFormed_3 tensor B T C Hwf Hs) as (HB & HT & HC & Hlen).
  destruct (transpose_12 tensor B T C Hs) as (d & E & P).
  eexists. split; [exact E|]. cbn [shape device dtype data].
  assert (forall k, (k < length (data tensor))%nat ->
            inRange B (Z.of_nat k / T / C) && inRange T (Z.of_nat k mod T)
            && inRange C ((Z.of_nat k / T) mod C) = true) as Hcond.
  { intros k Hk.
    destruct (radix_inRange B C T (Z.of_nat k)) as (Hb & Hc & Ht);
      [lia|done..|].
    rewrite !andb_true_iff, !inRange_true. done. }
  destruct (patched_full _ _ _ _ P Hcond) as [Hl _].
  repeat split; try done.
  intros b t c Hb Ht Hc.
  pose proof (dstIdx_bound B T C b t c Hb Ht Hc) as Hd.
  destruct (dstIdx_digits T C b t c Ht Hc) as (E1 & E2 & E3).
  unfold TensorUtils.dstIdx in *.
  rewrite (get_patched_full _ _ _ _ _ P Hcond) by lia.
  rewrite Z2Nat.id by lia. by rewrite E1, E2, E3.
Qed.

(** X5.  [transpose] returns exactly for a tensor of rank 3 and the axes
    (1, 2) or (2, 1).  The rank is tested first: on any other rank it throws
    "only supports 3D tensors" whatever the axes, and on rank 3 with any
    other pair of axes, equal axes and the batch axis included, it throws
    "not implemented".  Both are unsupported transposes. *)
Theorem transpose_returns_iff (tensor : Tensor A) (dim0 dim1 : Z) :
  let supported := (dim0 = 1 /\ dim1 = 2) \/ (dim0 = 2 /\ dim1 = 1) in
  match TensorUtils.transpose tensor dim0 dim1 with
  | Ret u => length (shape tensor) = 3%nat /\ supported
             /\ length (data u) = length (data tensor)
  | Throw e => kind_of e = UnsupportedTranspose
               /\ (length (shape tensor) <> 3%nat /\ e = TransposeOnly3D
                   \/ length (shape tensor) = 3%nat /\ ~ supported
                      /\ e = TransposeNotImplemented)
  | NonInteger => False
  end.
Proof.
  cbv zeta. unfold TensorUtils.transpose.
  destruct (shape tensor) as [|B [|T [|C [|? ?]]]] eqn:Hs;
    try (split; [done|]; left; split; [cbn; lia|done]).
  destruct (Z.eqb_spec dim0 1), (Z.eqb_spec dim1 2), (Z.eqb_spec dim0 2),
    (Z.eqb_spec dim1 1); cbn [andb orb];
    try (split; [done|]; right; split; [done|]; split; [lia|done]);
    (split; [done|]; split; [lia|]);
    cbn [data]; (rewrite !for_length; [apply length_replicate|..]);
    intros; repeat (apply for_length; intros); apply length_set.
Qed.

End MoreTransposeTheorems.

Section ViewTheorems.
Context {A : Type} `{JsNumber A} `{JsEngine}.

(** X6.  A tensor returned by [view] or by one of the two [reshape] shares
    the buffer of its argument and keeps its device and element type, and
    the product of its shape is the length of that buffer.  Viewing or
    reshaping it again gives what the same call gives on the original
    tensor: the shape held in between plays no part. *)
Theorem view_of_view (t u : Tensor A) (s1 s2 : list Z) :
  TensorUtils.view t s1 = Ret u
  \/ ServerTensorUtils.reshape t s1 = Ret u
  \/ WebTensorUtils.reshape t s1 = Ret u ->
  data u = data t /\ device u = device t /\ dtype u = dtype t
  /\ product (shape u) = Z.of_nat (length (data t))
  /\ TensorUtils.view u s2 = TensorUtils.view t s2
  /\ ServerTensorUtils.reshape u s2 = ServerTensorUtils.reshape t s2
  /\ WebTensorUtils.reshape u s2 = WebTensorUtils.reshape t s2.
Proof.
  intros Hu.
  assert (data u = data t /\ device u = device t /\ dtype u = dtype t
          /\ product (shape u) = Z.of_nat (length (data t)))
    as (Hd & Hdev & Hdt & Hp).
  { destruct Hu as [Hu|[Hu|Hu]].
    - unfold TensorUtils.view in Hu.
      apply bind_Ret in Hu as (scanned & _ & Hu).
      apply bind_Ret in Hu as (resolved & _ & Hu).
      destruct (Z.eqb_spec (product resolved) (Z.of_nat (length (data t))))
        as [E|E]; [|done].
      cbn in Hu. by injection Hu as <-.
    - unfold ServerTensorUtils.reshape in Hu.
      destruct (Z.eqb_spec (product s1) (Z.of_nat (length (data t))))
        as [E|E]; [|done].
      cbn in Hu. by injection Hu as <-.
    - unfold WebTensorUtils.reshape in Hu.
      destruct (Z.eqb_spec (Z.of_nat (length (data t))) (product s1))
        as [E|E]; [|done].
      cbn in Hu. by injection Hu as <-. }
  repeat split; try done.
  - unfold TensorUtils.view. by rewrite Hd, Hdev, Hdt.
  - unfold ServerTensorUtils.reshape. by rewrite Hd, Hdev, Hdt.
  - unfold WebTensorUtils.reshape. by rewrite Hd, Hdev, Hdt.
Qed.

End ViewTheorems.

(** ** The linear layer *)

Section LinearTheorems.
Context {A : Type} `{JsNumber A} `{JsEngine}.

(** X7.  [Linear.forward] treats its input as [rows] rows, the product of
    all dimensions but the last.  When [rows] and [outFeatures] are not
    negative (and a typed array can hold the [rows * outFeatures] elements
    of the result) it returns a fresh float32 tensor on the cpu whose shape is
    that of the input with the last dimension replaced by [outFeatures];
    its element [(b, out)] is the rounded sum, over [inp] from the left, of
    [x[b * inFeatures + inp] * weight[out * inFeatures + inp]], plus the
    bias of [out] when there is one.  The last dimension of the input is
    never compared with [inFeatures]. *)
Theorem Linear_forward_elements (l : Linear.t A) (x : Tensor A) :
  let rows := product (removelast (shape x)) in
  let O := Linear.outFeatures l in
  0 <= rows -> 0 <= O -> fits (rows * O) ->
  exists r,
    Linear.forward l x = Ret r
    /\ shape r = removelast (shape x) ++ [O]
    /\ device r = Some "cpu" /\ dtype r = Some "float32"
    /\ Z.of_nat (length (data r)) = rows * O
    /\ forall b out, 0 <= b < rows -> 0 <= out < O ->
         get (data r) (b * O + out) = fround (dotRow l x b out).
Proof.
  cbv zeta. intros Hrows HO Hfits.
  assert (product (removelast (shape x) ++ [Linear.outFeatures l])
          = product (removelast (shape x)) * Linear.outFeatures l) as Hp.
  { by rewrite product_app, product_1. }
  unfold Linear.forward.
  rewrite zeros_nonneg; [|rewrite Hp; nia|by rewrite Hp].
  cbn [bind]. eexists. split; [reflexivity|].
  unfold withData. cbn [shape data device dtype]. rewrite Hp.
  set (rows := product (removelast (shape x))) in *.
  set (O := Linear.outFeatures l) in *.
  set (n := Z.to_nat (rows * O)).
  match goal with
  | |- context [for_ rows ?body (newArrayOfLength n)] =>
      assert (patched
                (fun k => inRange rows (Z.of_nat k / O)
                          && inRange O (Z.of_nat k mod O) && true)
                (fun k => fround (dotRow l x (Z.of_nat k / O) (Z.of_nat k mod O)))
                (newArrayOfLength n) (for_ rows body (newArrayOfLength n))) as P
  end.
  { apply (patched_for2 rows O
      (fun b out rdata => set rdata (b * O + out) (fround (dotRow l x b out)))
      (fun k => Z.of_nat k / O) (fun k => Z.of_nat k mod O) (fun _ => true)).
    intros b out l' Hb Hout.
    eapply patched_ext; [| |apply (patched_set _ l' (b * O + out)
                                     (fround (dotRow l x b out)))].
    - intros k _. cbv beta. rewrite andb_true_r. apply eq_true_iff_eq.
      rewrite andb_true_iff, !Z.eqb_eq. split.
      + intros E. by apply (div_mod_row b out O).
      + intros [E1 E2]. pose proof (Z.div_mod (Z.of_nat k) O ltac:(lia)). nia.
    - done.
    - intros Hpos. cbv beta. rewrite Z2Nat.id by done.
      by destruct (div_mod_row b out O (b * O + out) Hout eq_refl) as [-> ->]. }
  assert (forall k, (k < n)%nat ->
            inRange rows (Z.of_nat k / O) && inRange O (Z.of_nat k mod O) && true
            = true) as Hc.
  { intros k Hk. rewrite andb_true_r, andb_true_iff, !inRange_true.
    assert (0 < O) by nia.
    pose proof (Z.mod_pos_bound (Z.of_nat k) O ltac:(lia)).
    split; [|done]. split; [apply Z.div_pos; lia|].
    apply Z.div_lt_upper_bound; [lia|]. nia. }
  destruct (patched_full _ _ _ _ P Hc) as [Hl _].
  repeat split; try done; [lia|].
  intros b out Hb Hout.
  rewrite (get_patched_full _ _ _ _ _ P Hc) by nia.
  rewrite Z2Nat.id by nia.
  by destruct (div_mod_row b out O (b * O + out) Hout eq_refl) as [-> ->].
Qed.

End LinearTheorems.

Section LinearNewTheorems.
Context {A : Type} `{JsNumber A} `{JsEngine}.

(** X8.  [new Linear(inFeatures, outFeatures, bias)] checks nothing itself:
    it fails only where an array cannot be allocated, that is when
    [inFeatures * outFeatures] is negative or above the largest length of a
    typed array, or when a bias is asked for (the default) and
    [outFeatures] is negative or above that length.  Otherwise the layer
    records the two widths, its weight has the shape
    [[outFeatures, inFeatures]] and holds the rounded draws in their order,
    and its bias is a zero tensor of shape [[outFeatures]], or is absent
    when [bias] is false. *)
Theorem Linear_new_outcome (inF outF : Z) (bias : option bool) (draw : Z -> A) :
  match Linear.new inF outF bias draw with
  | Ret l =>
      0 <= inF * outF <= Z.pos maxLength
      /\ Linear.inFeatures l = inF /\ Linear.outFeatures l = outF
      /\ shape (Linear.weight l) = [outF; inF]
      /\ Z.of_nat (length (data (Linear.weight l))) = inF * outF
      /\ (forall k, Z.of_nat k < inF * outF ->
            data (Linear.weight l) !! k = Some (fround (draw (Z.of_nat k))))
      /\ match Linear.bias l with
         | Some b => bias <> Some false /\ 0 <= outF <= Z.pos maxLength
                     /\ shape b = [outF]
                     /\ data b = replicate (Z.to_nat outF) (of_Z 0)
         | None => bias = Some false
         end
  | Throw e =>
      e = InvalidArrayLength
      /\ (inF * outF < 0 \/ Z.pos maxLength < inF * outF
          \/ (bias <> Some false /\ (outF < 0 \/ Z.pos maxLength < outF)))
  | NonInteger => False
  end.
Proof.
  unfold Linear.new.
  destruct (newArray_cases (A := A) (inF * outF))
    as [(Hpos & Hfit & ->)|(Hbad & ->)]; unfold fits in *;
    [|cbn; split; [done|lia]].
  cbn [bind].
  unfold newArrayOfLength at 1. rewrite length_replicate.
  rewrite Z2Nat.id by lia.
  destruct (fill_fresh (inF * outF) (fun i => fround (draw i)) ltac:(lia))
    as [Hl Hk].
  assert (default true bias = true <-> bias <> Some false) as Hb.
  { destruct bias as [[|]|]; cbn; split; congruence. }
  destruct (default true bias) eqn:Eb.
  - unfold TensorUtils.zeros. rewrite product_1.
    destruct (newArray_cases (A := A) outF)
      as [(Hp & Hf & ->)|(Hbad & ->)]; unfold fits in *.
    + cbn. repeat split; try done; try lia. by apply Hb.
    + cbn. split; [done|]. right. right. split; [by apply Hb|lia].
  - cbn. repeat split; try done; try lia.
    destruct bias as [[|]|]; done.
Qed.

End LinearNewTheorems.

(** ** The constructor of the shell *)

Lemma push_loop_length {T : Type} (n : Z) (x : T) :
  length (for_ n (fun _ layers => layers ++ [x]) []) = Z.to_nat n.
Proof.
  pose proof (for_invariant (fun i r => length r = Z.to_nat i) n
                (fun _ layers => layers ++ [x]) []) as Hinv.
  rewrite Hinv; [lia|done|].
  intros i r Hi Hr. rewrite length_app, Hr. cbn. lia.
Qed.

Section ShellNewTheorems.
Context {A : Type} `{JsNumber A} `{JsEngine}.

(** X9.  The constructor of the shell throws exactly when the option
    [positionalEmbedding] is a string other than the empty string, "sin",
    "rope", "sin_rope" and "none"; that error is an invalid configuration.
    A missing or an empty name counts as "sin".  The shell built has one
    placeholder layer for each of [numLayers] (none when that is missing or
    negative) and no streaming state, and a [maxPeriod] or a
    [positionalScale] that is missing gets its default, 10000 and 1. *)
Theorem StreamingTransformer_new_outcome (o : StreamingTransformer.options A) :
  let given := StreamingTransformer.o_positionalEmbedding o in
  match StreamingTransformer.new o with
  | Ret tr =>
      given ∈ [None; Some ""; Some "sin"; Some "rope"; Some "sin_rope";
               Some "none"]
      /\ (given ∈ [None; Some ""] ->
          StreamingTransformer.positionalEmbedding tr = "sin")
      /\ (forall s, given = Some s -> s <> "" ->
          StreamingTransformer.positionalEmbedding tr = s)
      /\ (StreamingTransformer.sinusoidal tr = true <->
          given ∈ [None; Some ""; Some "sin"; Some "sin_rope"])
      /\ length (StreamingTransformer.layers tr)
         = Z.to_nat (default 0 (StreamingTransformer.o_numLayers o))
      /\ StreamingTransformer.streamingState tr = None
      /\ StreamingTransformer.dModel tr = StreamingTransformer.o_dModel o
      /\ (StreamingTransformer.o_maxPeriod o = None ->
          StreamingTransformer.maxPeriod tr = of_Z 10000)
      /\ (StreamingTransformer.o_positionalScale o = None ->
          StreamingTransformer.positionalScale tr = of_Z 1)
  | Throw e =>
      e = InvalidPositionalEmbedding /\ kind_of e = InvalidConfiguration
      /\ given ∉ [None; Some ""; Some "sin"; Some "rope"; Some "sin_rope";
                  Some "none"]
  | NonInteger => False
  end.
Proof.
  cbv zeta. unfold StreamingTransformer.new.
  destruct (StreamingTransformer.o_positionalEmbedding o) as [s|].
  2:{ cbn. rewrite push_loop_length.
      repeat split; try done; try (by intros ->);
        rewrite ?elem_of_cons; tauto. }
  destruct (String.eqb_spec s "") as [->|Hne].
  { cbn. rewrite push_loop_length.
    repeat split; try done; try (by intros ->);
      rewrite ?elem_of_cons; try tauto.
    intros s' E' Hs'. congruence. }
  unfold StreamingTransformer.validEmbeddings. cbn [existsb].
  destruct (String.eqb_spec s "sin") as [->|H1];
    [|destruct (String.eqb_spec s "rope") as [->|H2];
      [|destruct (String.eqb_spec s "sin_rope") as [->|H3];
        [|destruct (String.eqb_spec s "none") as [->|H4]]]];
    cbn [orb negb].
  5:{ repeat split; try done.
      rewrite !elem_of_cons, elem_of_nil.
      intros [E|[E|[E|[E|[E|[E|[]]]]]]]; congruence. }
  all: unfold StreamingTransformer.sinusoidal;
    cbn [StreamingTransformer.positionalEmbedding
         StreamingTransformer.layers StreamingTransformer.streamingState
         StreamingTransformer.dModel StreamingTransformer.maxPeriod
         StreamingTransformer.positionalScale];
    rewrite push_loop_length;
    repeat split; try done; try (by intros ->);
    try (intros s' E' _; congruence);
    rewrite ?elem_of_cons, ?elem_of_nil; try tauto;
    try (intros [E|[E|[]]]; congruence);
    try (intros E; decompose [or] E; done).
Qed.

End ShellNewTheorems.

(** ** The output of the shell *)

Section ShellOutputTheorems.
Context {A : Type} `{JsNumber A} `{JsEngine}.



(** X11.  With a sinusoidal embedding, the element [(b, t, c)] of the output
    of a forward call on a well-formed input of shape [[B, T, C]] (of which
    a typed array can hold the positions and the embedding) is the
    input element plus the scaled embedding of the position of step [t] of
    row [b], every intermediate tensor being a [Float32Array]: the position
    is [round(t + offset)], the embedding is the rounded sine of the angle
    of [c] when [c] is even and the rounded cosine of the angle of [c - 1]
    when [c] is odd, the scaled embedding is [round(embedding * scale)] and
    the output is [round(x + scaled)]. *)
Theorem forward_sinusoidal_elements (tr : StreamingTransformer.t A)
    (x : Tensor A) (B T C : Z) :
  shape x = [B; T; C] -> wellFormed x ->
  StreamingTransformer.sinusoidal tr = true -> shellFits B T C ->
  exists offsets y tr',
    StreamingTransformer.baseOffsets (StreamingTransformer.streamingState tr) x
    = Ret offsets
    /\ StreamingTransformer.forward tr x = Ret (y, tr')
    /\ forall b t c, 0 <= b < B -> 0 <= t < T -> 0 <= c < C ->
         let i := b * T * C + t * C + c in
         let p :=
           fround (nadd (of_Z t)
                     (get (data offsets)
                        (Z.min b (Z.of_nat (length (data offsets)) - 1)))) in
         let maxPeriod := StreamingTransformer.maxPeriod tr in
         let e :=
           if Z.even c
           then fround (nsin (PositionalEmbedding.angle p maxPeriod c C))
           else fround (ncos (PositionalEmbedding.angle p maxPeriod (c - 1) C)) in
         get (data y) i
         = fround (nadd (get (data x) i)
                     (fround (nmul e (StreamingTransformer.positionalScale tr)))).
Proof.
  intros Hs Hwf Hsin Hfits.
  destruct (wellFormed_3 x B T C Hwf Hs) as (HB & HT & HC & Hlen).
  destruct (forward_returns tr x B T C Hs Hwf (fun _ => Hfits))
    as (offsets & y & Hoff & E & _ & _ & _ & _ & Hy & _).
  destruct (Hy Hsin) as (positions & posEmb & r & Epos & Eemb & Eadd & ->).
  exists offsets. eexists _, _. split; [done|]. split; [exact E|].
  intros b t c Hb Ht Hc. cbv zeta. cbn [data].
  destruct (expandedPositions_returns B T offsets (device x) HB HT
              (proj1 (proj2 Hfits)))
    as (pdata & Epos' & Hplen & Hp).
  rewrite Epos' in Epos. injection Epos as <-.
  destruct (createSinEmbedding_patched
              (mkTensor pdata [B; T] (Some (orCpu (device x))) (Some "float32"))
              B T C (Some (StreamingTransformer.maxPeriod tr)) [] eq_refl
              ltac:(nia) (proj2 (proj2 Hfits))) as (edata & Eemb' & P).
  rewrite Eemb' in Eemb. injection Eemb as <-.
  cbn [data default] in P.
  assert (forall k, (k < Z.to_nat (B * T * C))%nat ->
            inRange B (Z.of_nat k / C / T)
            && inRange T ((Z.of_nat k / C) mod T) && (0 <? C) = true) as Hc'.
  { intros k Hk.
    destruct (radix_inRange B T C (Z.of_nat k)) as (H1 & H2 & H3);
      [lia|done..|].
    rewrite !andb_true_iff, !inRange_true, Z.ltb_lt. lia. }
  destruct (patched_full _ _ _ _ P Hc') as [Hel Hek].
  pose proof (srcIdx_bound B T C b t c Hb Ht Hc) as Hi.
  destruct (srcIdx_digits T C b t c Ht Hc) as (D1 & D2 & D3).
  unfold TensorUtils.srcIdx in Hi, D1, D2, D3.
  set (i := b * T * C + t * C + c) in *.
  assert (i / C = b * T + t) as Hq.
  { apply (div_mod_row (b * T + t) c C); [done|]. unfold i. ring. }
  set (scale := StreamingTransformer.positionalScale tr) in *.
  set (posEmb := mkTensor edata [B; T; C] (Some "cpu") (Some "float32")) in *.
  assert (isScaled posEmb scale (TensorUtils.scale posEmb scale))
    as (_ & _ & _ & Hsc) by apply scale_loop.
  assert (isSum x (TensorUtils.scale posEmb scale) r) as (_ & _ & Hsum).
  { unfold TensorUtils.add in Eadd.
    destruct (length (data x) =? length (data (TensorUtils.scale posEmb scale)))%nat;
      [|done].
    cbn [negb] in Eadd. injection Eadd as <-. apply sum_loop. }
  destruct (lookup_lt_is_Some_2 (data x) (Z.to_nat i)) as [xi Hxi]; [lia|].
  pose proof (get_lookup _ _ _ (Hsum _ _ Hxi)) as Hg.
  pose proof (get_lookup _ _ _ Hxi) as Hgx.
  pose proof (get_lookup _ _ _
                (Hsc (Z.to_nat i) _ (Hek (Z.to_nat i) ltac:(lia)))) as Hgs.
  rewrite Z2Nat.id in Hg, Hgx, Hgs by lia.
  rewrite Hg, Hgx, Hgs. do 3 f_equal.
  unfold sinCosAt. rewrite Z2Nat.id by lia. rewrite D3, Hq, Hp by done.
  done.
Qed.

End ShellOutputTheorems.

(** ** Streaming over several chunks *)

Section StreamingTheorems.
Context {A : Type} `{JsNumber A} `{JsEngine}.

(** X12.  Two forward calls in a row on a shell with a streaming state
    (typed arrays holding what a sinusoidal embedding builds): both
    return, the second call reads as base offsets the offsets left by the
    first, and after the two calls the offset of every row that executes
    is [round(round(o + T1) + T2)] for the lengths [T1] and [T2] of the two
    chunks, while a row that does not execute, because its entry of
    [execMask] is false or because [execMask] is too short to have one,
    keeps its offset.  The mask itself is never changed. *)
Theorem forward_two_chunks (tr : StreamingTransformer.t A)
    (state : TransformerState.t A) (x1 x2 : Tensor A)
    (B1 T1 C1 B2 T2 C2 : Z) :
  StreamingTransformer.streamingState tr = Some state ->
  shape x1 = [B1; T1; C1] -> wellFormed x1 ->
  shape x2 = [B2; T2; C2] -> wellFormed x2 ->
  (StreamingTransformer.sinusoidal tr = true ->
   shellFits B1 T1 C1 /\ shellFits B2 T2 C2) ->
  exists y1 tr1 y2 tr2 state1 state2,
    StreamingTransformer.forward tr x1 = Ret (y1, tr1)
    /\ StreamingTransformer.forward tr1 x2 = Ret (y2, tr2)
    /\ StreamingTransformer.streamingState tr1 = Some state1
    /\ StreamingTransformer.baseOffsets (StreamingTransformer.streamingState tr1) x2
       = Ret (TransformerState.offsets state1)
    /\ StreamingTransformer.streamingState tr2 = Some state2
    /\ TransformerState.execMask state2 = TransformerState.execMask state
    /\ forall row o,
         data (TransformerState.offsets state) !! row = Some o ->
         let runs := executes (TransformerState.execMask state) row in
         data (TransformerState.offsets state1) !! row
         = Some (if runs then fround (nadd o (of_Z T1)) else o)
         /\ data (TransformerState.offsets state2) !! row
            = Some (if runs
                    then fround (nadd (fround (nadd o (of_Z T1))) (of_Z T2))
                    else o).
Proof.
  intros Hst Hs1 Hwf1 Hs2 Hwf2 Hfits.
  destruct (forward_returns tr x1 B1 T1 C1 Hs1 Hwf1
              (fun Hsin => proj1 (Hfits Hsin))) as (? & y1 & _ & E1 & _).
  set (tr1 := StreamingTransformer.attach tr (StreamingTransformer.advanced tr T1))
    in *.
  destruct (forward_returns tr1 x2 B2 T2 C2 Hs2 Hwf2
              (fun Hsin => proj2 (Hfits Hsin))) as (? & y2 & _ & E2 & _).
  assert (StreamingTransformer.streamingState tr1
          = Some (StreamingTransformer.advance state T1)) as Hst1.
  { unfold tr1, StreamingTransformer.advanced. by rewrite Hst. }
  unfold StreamingTransformer.advanced in E2 at 1. rewrite Hst1 in E2.
  eexists y1, tr1, y2, _, _, _.
  split; [exact E1|]. split; [exact E2|]. split; [exact Hst1|].
  split; [by rewrite Hst1|]. split; [reflexivity|]. split; [done|].
  intros row o Ho. cbv zeta.
  rewrite !advance_lookup. cbn [StreamingTransformer.advance
    TransformerState.withOffsets TransformerState.execMask].
  rewrite Ho.
  by destruct (executes (TransformerState.execMask state) row).
Qed.

(** X13.  The three constructors of a streaming state fail exactly where
    the array of offsets cannot be allocated: on a negative [batchSize],
    and on a [batchSize] above the largest length of a typed array.
    Otherwise the state holds [batchSize] offsets, all zero, in a tensor of
    shape [[batchSize]] (of element type float32, int32 on the server), has
    no [execMask], and is on the device given, "cpu" by default.  The
    constructor of the transliterated transformer, given a tensor of
    offsets, takes it as it is, whatever its length and [batchSize]. *)
Theorem new_state_outcome (batchSize : Z) (dev : option string) :
  let zero : list A := replicate (Z.to_nat batchSize) (of_Z 0) in
  match TransformerState.new (A := A) batchSize dev None with
  | Ret st =>
      0 <= batchSize <= Z.pos maxLength
      /\ st = TransformerState.mk batchSize (default "cpu" dev)
                (mkTensor zero [batchSize] (Some (orCpu dev)) (Some "float32"))
                None
  | Throw e => (batchSize < 0 \/ Z.pos maxLength < batchSize)
               /\ e = InvalidArrayLength
  | NonInteger => False
  end
  /\ match NodeStreamingState.new (A := A) batchSize dev with
     | Ret st =>
         0 <= batchSize <= Z.pos maxLength
         /\ st = NodeStreamingState.mk batchSize
                   (mkTensor zero [batchSize] (Some (default "cpu" dev))
                      (Some "int32")) None
     | Throw e => (batchSize < 0 \/ Z.pos maxLength < batchSize)
                  /\ e = InvalidArrayLength
     | NonInteger => False
     end
  /\ match WebStreamingState.new (A := A) batchSize dev with
     | Ret st =>
         0 <= batchSize <= Z.pos maxLength
         /\ WebStreamingState.offsets st
            = mkTensor zero [batchSize] (Some (default "cpu" dev))
                (Some "float32")
         /\ WebStreamingState.batchSize st = batchSize
     | Throw e => (batchSize < 0 \/ Z.pos maxLength < batchSize)
                  /\ e = InvalidArrayLength
     | NonInteger => False
     end
  /\ forall offsets : Tensor A,
       TransformerState.new batchSize dev (Some offsets)
       = Ret (TransformerState.mk batchSize (default "cpu" dev) offsets None).
Proof.
  cbv zeta.
  unfold TransformerState.new, NodeStreamingState.new, WebStreamingState.new,
    TensorUtils.zeros, ServerTensorUtils.zeros.
  rewrite !product_1.
  destruct (newArray_cases (A := A) batchSize)
    as [(Hp & Hf & ->)|(Hbad & ->)]; unfold fits in *.
  - cbn. repeat split; try done.
    destruct dev as [d|]; [|done]. cbn.
    by destruct (String.eqb_spec d "") as [->|].
  - cbn. repeat split; try done; lia.
Qed.

End StreamingTheorems.

Section ResetCompositionTheorems.
Context {A : Type} `{JsNumber A} `{JsEngine}.

Lemma resetWhere_commute (m1 m2 : list bool) n (arr : list A) :
  resetWhere m1 n (resetWhere m2 n arr) = resetWhere m2 n (resetWhere m1 n arr).
Proof.
  apply list_eq. intros k. rewrite !resetWhere_lookup.
  destruct (inRange _ _ && default false (m1 !! k)),
    (inRange _ _ && default false (m2 !! k)); done.
Qed.

Lemma resetWhere_idempotent (m : list bool) n (arr : list A) :
  resetWhere m n (resetWhere m n arr) = resetWhere m n arr.
Proof.
  apply list_eq. intros k. rewrite !resetWhere_lookup.
  destruct (inRange _ _ && default false (m !! k)); [|done].
  by destruct (arr !! k).
Qed.

Lemma resetWhere_fillZero (m : list bool) n (arr : list A) :
  resetWhere m n (fillZero arr) = fillZero arr
  /\ fillZero (resetWhere m n arr) = fillZero arr.
Proof.
  split.
  - apply list_eq. intros k. rewrite resetWhere_lookup.
    destruct (inRange _ _ && default false (m !! k)); [|done].
    unfold fillZero. destruct (decide (k < length arr)%nat).
    + by rewrite lookup_replicate_2.
    + by rewrite lookup_ge_None_2 by (rewrite length_replicate; lia).
  - unfold fillZero. by rewrite resetWhere_length.
Qed.

(** X14.  Resets compose as set operations on the rows.  For each of the
    three states, a reset with a mask done twice is the reset done once,
    and two masked resets give the same state in either order.  On the
    server and on the client, where the mask may be left out, the reset of
    every row absorbs a masked reset done before it or after it. *)
Theorem reset_composition :
  (forall (st : TransformerState.t A) m1 m2,
     TransformerState.reset (TransformerState.reset st m1) m1
     = TransformerState.reset st m1
     /\ TransformerState.reset (TransformerState.reset st m1) m2
        = TransformerState.reset (TransformerState.reset st m2) m1)
  /\ (forall (st : NodeStreamingState.t A) m1 m2,
        NodeStreamingState.reset (NodeStreamingState.reset st m1) m1
        = NodeStreamingState.reset st m1
        /\ NodeStreamingState.reset (NodeStreamingState.reset st m1) m2
           = NodeStreamingState.reset (NodeStreamingState.reset st m2) m1
        /\ NodeStreamingState.reset (NodeStreamingState.reset st m1) None
           = NodeStreamingState.reset st None)
  /\ (forall (st : WebStreamingState.t A) m1 m2,
        WebStreamingState.reset (WebStreamingState.reset st m1) m1
        = WebStreamingState.reset st m1
        /\ WebStreamingState.reset (WebStreamingState.reset st m1) m2
           = WebStreamingState.reset (WebStreamingState.reset st m2) m1
        /\ WebStreamingState.reset (WebStreamingState.reset st m1) None
           = WebStreamingState.reset st None).
Proof.
  split; [|split].
  - intros st m1 m2.
    unfold TransformerState.reset, TransformerState.withOffsets, withData.
    cbn [TransformerState.offsets data shape device dtype
         TransformerState.batchSize TransformerState.device
         TransformerState.execMask].
    rewrite !resetWhere_length. split.
    + by rewrite resetWhere_idempotent.
    + by rewrite resetWhere_commute.
  - intros st m1 m2.
    unfold NodeStreamingState.reset, NodeStreamingState.withOffsets, withData.
    destruct m1 as [m1|], m2 as [m2|];
      cbn [NodeStreamingState.offsets data shape device dtype
           NodeStreamingState.batchSize NodeStreamingState.execMask];
      rewrite ?resetWhere_length;
      rewrite ?(proj1 (fillZero_all _));
      rewrite ?resetWhere_idempotent;
      rewrite ?(proj1 (resetWhere_fillZero _ _ _));
      rewrite ?(proj2 (resetWhere_fillZero _ _ _));
      repeat split; try done;
      try (by rewrite resetWhere_commute);
      unfold fillZero; by rewrite length_replicate.
  - intros st m1 m2. unfold WebStreamingState.reset.
    destruct m1 as [m1|], m2 as [m2|];
      cbn [WebStreamingState._offsets WebStreamingState.batchSize
           WebStreamingState.device];
      rewrite ?resetWhere_idempotent;
      rewrite ?(proj1 (resetWhere_fillZero _ _ _));
      rewrite ?(proj2 (resetWhere_fillZero _ _ _));
      repeat split; try done;
      try (by rewrite resetWhere_commute);
      unfold fillZero; by rewrite length_replicate.
Qed.

End ResetCompositionTheorems.

(** ** The channel-first layout *)

Section ConvLayoutTheorems.
Context {A : Type} `{JsNumber A} `{JsEngine}.



End ConvLayoutTheorems.

(** ** The messages of the protocol *)

Section ProtocolTheorems.
Context {Text : Type} (textEncode : Text -> list byte).

(** X16.  A message is its type in one byte followed by its payload, so
    decoding what was encoded gives back the code of the type and the
    payload: the bytes given, or the encoding of the string given.  The
    three types have different codes, so the type is recovered too.  An
    encoded message is one byte longer than its payload and is never
    empty; [decodeMessage] throws on the empty message and on no other, and
    otherwise loses nothing, whatever the first byte is: it is not checked
    against the known types.  The server-information message decodes as
    metadata carrying the encoded description. *)
Theorem decode_encode :
  let payload (content : list byte + Text) :=
    match content with inl bytes => bytes | inr text => textEncode text end in
  (forall type content,
     Protocol.decodeMessage (Protocol.encodeMessage textEncode type content)
     = Protocol.Decoded (Protocol.code type) (payload content)
     /\ length (Protocol.encodeMessage textEncode type content)
        = S (length (payload content)))
  /\ (forall t1 t2, Protocol.code t1 = Protocol.code t2 <-> t1 = t2)
  /\ (forall message,
        match Protocol.decodeMessage message with
        | Protocol.Decoded type rest => message = type :: rest
        | Protocol.EmptyMessage => message = []
        end)
  /\ (forall json,
        Protocol.decodeMessage (Protocol.createServerInfoMessage textEncode json)
        = Protocol.Decoded (Protocol.code Protocol.METADATA) (textEncode json)).
Proof.
  cbv zeta. split; [|split; [|split]].
  - by intros type [bytes|text].
  - intros t1 t2. split; [by destruct t1, t2|by intros ->].
  - intros message. by destruct message.
  - done.
Qed.

End ProtocolTheorems.

(** ** The placeholder transformers *)

Section PlaceholderTheorems.
Context {A : Type} `{JsNumber A} `{JsEngine}.

Lemma map_loop (g : Z -> A -> A) (input : Tensor A) :
  isMapped (fun k x => g (Z.of_nat k) x) input
    (withData input
       (for_ (Z.of_nat (length (data input)))
          (fun i outputData => set outputData i (fround (g i (get (data input) i))))
          (newArrayOfLength (length (data input))))).
Proof.
  destruct (for_fill (length (data input))
              (fun i => fround (g i (get (data input) i)))) as [Hl Hk].
  unfold withData. repeat split; try done.
  intros k x Hx. cbn [data]. rewrite Hk by (by apply lookup_lt_Some in Hx).
  by rewrite (get_lookup _ _ _ Hx).
Qed.

(** X17.  The life cycle of the server's transformer.  [forward] throws
    "not initialized" on a transformer just constructed and on one that was
    disposed of; after [initialize], which is idempotent and gives a
    disposed transformer its use back, it returns for every input a tensor
    of the same shape, device and declared element type whose element [k]
    is [round(x + sin(k * 0.1) * 0.1)]: the result depends on the input
    alone, not on the configuration.  [createStreamingState] asks for no
    initialisation: at every stage it builds the state of the configured
    device. *)
Theorem NodeTransformer_life_cycle (c : NodeTransformer.config)
    (tr : NodeTransformer.t) (input : Tensor A) (batchSize : Z) :
  NodeTransformer.forward (NodeTransformer.new c) input = NotInitialized
  /\ NodeTransformer.forward (NodeTransformer.dispose tr) input = NotInitialized
  /\ NodeTransformer.initialize (NodeTransformer.initialize tr)
     = NodeTransformer.initialize tr
  /\ (exists out,
        NodeTransformer.forward (NodeTransformer.initialize tr) input
        = Forwarded out
        /\ NodeTransformer.forward
             (NodeTransformer.initialize (NodeTransformer.dispose tr)) input
           = Forwarded out
        /\ NodeTransformer.forward (NodeTransformer.createServerTransformer c)
             input = Forwarded out
        /\ isMapped
             (fun k x => nadd x (nmul (nsin (nmul (of_Z (Z.of_nat k)) tenth)) tenth))
             input out)
  /\ NodeTransformer.createStreamingState (A := A) (NodeTransformer.initialize tr)
       batchSize
     = NodeTransformer.createStreamingState tr batchSize
  /\ NodeTransformer.createStreamingState (A := A) (NodeTransformer.dispose tr)
       batchSize
     = NodeTransformer.createStreamingState tr batchSize
  /\ NodeTransformer.createStreamingState (A := A) (NodeTransformer.new c)
       batchSize
     = NodeStreamingState.new batchSize (Some (NodeTransformer.device c)).
Proof.
  split; [done|]. split; [done|]. split.
  { unfold NodeTransformer.initialize.
    destruct (NodeTransformer.initialized tr) eqn:E; [by rewrite E|done]. }
  split.
  { assert (forall tr' : NodeTransformer.t,
              NodeTransformer.initialized (NodeTransformer.initialize tr') = true)
      as Hready.
    { intros tr'. unfold NodeTransformer.initialize.
      by destruct (NodeTransformer.initialized tr') eqn:E. }
    eexists. split; [|split; [|split]].
    - unfold NodeTransformer.forward. rewrite Hready. reflexivity.
    - unfold NodeTransformer.forward. by rewrite Hready.
    - done.
    - apply (map_loop
               (fun i x => nadd x (nmul (nsin (nmul (of_Z i) tenth)) tenth))). }
  unfold NodeTransformer.initialize, NodeTransformer.createStreamingState.
  by destruct (NodeTransformer.initialized tr).
Qed.

(** X18.  The life cycle of the client's transformer.  [forward] throws
    "not initialized" before [initialize]; after it, it returns for every
    input a tensor of the same shape, device and declared element type
    whose element is [round(x * 1)].  [initialize] changes the configured
    device in one case only: the device is "gpu", the browser has the [gpu]
    key, and the request for an adapter fails or finds none; the device is
    then "cpu".  A browser without the key leaves "gpu" as it is.  A second
    [initialize] changes nothing, whatever the browser then answers, and
    the state built by [createStreamingState] is on the device so
    configured, "cpu" when none is. *)
Theorem WebTransformer_life_cycle (c : WebTransformer.config)
    (nav nav' : WebTransformer.navigator) (input : Tensor A) (batchSize : Z) :
  let ready := WebTransformer.createTransformer nav c in
  let fallsBack :=
    WebTransformer.device c = Some "gpu"
    /\ (nav = WebTransformer.AdapterRequest false
        \/ nav = WebTransformer.RequestFails) in
  WebTransformer.forward (WebTransformer.new c) input = NotInitialized
  /\ (exists out,
        WebTransformer.forward ready input = Forwarded out
        /\ isMapped (fun _ x => nmul x (of_Z 1)) input out)
  /\ WebTransformer.initialize nav' ready = ready
  /\ (fallsBack ->
      WebTransformer.config_ ready = WebTransformer.fallBackToCpu c)
  /\ (~ fallsBack -> WebTransformer.config_ ready = c)
  /\ WebTransformer.createStreamingState (A := A) ready batchSize
     = WebStreamingState.new batchSize
         (Some (orCpu (WebTransformer.device (WebTransformer.config_ ready)))).
Proof.
  cbv zeta. split; [done|]. split.
  { eexists. split; [reflexivity|].
    apply (map_loop (fun _ x => nmul x (of_Z 1))). }
  split; [done|]. split.
  - intros [Hgpu Hnav].
    unfold WebTransformer.createTransformer, WebTransformer.initialize.
    cbn. rewrite Hgpu. by destruct Hnav as [-> | ->].
  - split; [|done]. intros Hno.
    unfold WebTransformer.createTransformer, WebTransformer.initialize.
    cbn. destruct (WebTransformer.device c) as [d|] eqn:Ed; [|done].
    destruct (String.eqb_spec d "gpu") as [->|]; destruct nav as [|[|]|];
      try done; exfalso; apply Hno; (split; [done|]); [by left|by right].
Qed.

End PlaceholderTheorems.

(** ** The constructor of the projected transformer *)

(** The first failure of a loop of fallible rounds is the failure of the
    loop. *)
Lemma mapM_fails {T U : Type} (f : T -> result U) (l : list T) :
  match mapM f l with
  | Ret rs => True
  | Throw e => exists j a, l !! j = Some a /\ f a = Throw e
  | NonInteger => exists j a, l !! j = Some a /\ f a = NonInteger
  end.
Proof.
  induction l as [|a l IH]; [done|]. cbn [mapM].
  destruct (f a) as [b|e|] eqn:Ea; cbn [bind].
  - destruct (mapM f l) as [bs|e|]; cbn [bind]; [done|..];
      destruct IH as (j & a' & Hj & Ha'); by exists (S j), a'.
  - by exists 0%nat, a.
  - by exists 0%nat, a.
Qed.

Section ProjectedNewTheorems.
Context {A : Type} `{JsNumber A} `{JsEngine}.

Lemma Linear_new_without_bias inF outF (draw : Z -> A) :
  match Linear.new inF outF (Some false) draw with
  | Ret _ => 0 <= inF * outF <= Z.pos maxLength
  | Throw e => e = InvalidArrayLength
               /\ (inF * outF < 0 \/ Z.pos maxLength < inF * outF)
  | NonInteger => False
  end.
Proof.
  unfold Linear.new.
  destruct (newArray_cases (A := A) (inF * outF))
    as [(Hp & Hf & ->)|(Hbad & ->)]; unfold fits in *; cbn; [lia|].
  split; [done|lia].
Qed.

(** X19.  The constructor of the projected transformer builds the shell
    first, from [{ dModel, ...transformerOptions }], and fails with the
    error of the shell when the embedding is not a known one.  After that
    it fails only where the weights of a projection cannot be allocated:
    the input projection when [inputDimension] differs from [dModel] and
    their product is negative or above the largest length of a typed
    array, or an output projection of a width [w] that differs from
    [dModel] with [dModel * w] negative or above that length.  Otherwise
    the result
    has an input projection exactly when the two widths differ, and one
    output projection for each output width, in order: the identity for a
    width equal to [dModel], a linear map otherwise.  A [dModel] among the
    transformer options replaces the width of the shell, and of the shell
    only. *)
Theorem ProjectedTransformer_new_outcome (o : ProjectedTransformer.options A)
    (draws : nat -> Z -> A) :
  let dM := ProjectedTransformer.o_dModel o in
  let topts := default ProjectedTransformer.noOptions
                 (ProjectedTransformer.o_transformerOptions o) in
  let shell := StreamingTransformer.new (ProjectedTransformer.spread dM topts) in
  match ProjectedTransformer.new o draws with
  | Ret pt =>
      shell = Ret (ProjectedTransformer.transformer pt)
      /\ StreamingTransformer.dModel (ProjectedTransformer.transformer pt)
         = default dM (ProjectedTransformer.to_dModel topts)
      /\ ProjectedTransformer.convLayout pt
         = default false (ProjectedTransformer.o_convLayout o)
      /\ (ProjectedTransformer.inputProj pt = None
          <-> ProjectedTransformer.o_inputDimension o = dM)
      /\ Forall2 (projectionFor dM) (ProjectedTransformer.o_outputDimensions o)
           (ProjectedTransformer.outputProjs pt)
  | Throw e =>
      (e = InvalidPositionalEmbedding /\ shell = Throw e)
      \/ (e = InvalidArrayLength
          /\ (exists tr, shell = Ret tr)
          /\ (ProjectedTransformer.o_inputDimension o <> dM
              /\ (ProjectedTransformer.o_inputDimension o * dM < 0
                  \/ Z.pos maxLength
                     < ProjectedTransformer.o_inputDimension o * dM)
              \/ exists j w,
                   ProjectedTransformer.o_outputDimensions o !! j = Some w
                   /\ w <> dM
                   /\ (dM * w < 0 \/ Z.pos maxLength < dM * w)))
  | NonInteger => False
  end.
Proof.
  cbv zeta.
  destruct (ProjectedTransformer.new o draws) as [pt|e|] eqn:Enew.
  - destruct (ProjectedTransformer_new_inv o draws pt Enew) as (Hc & Hip & Hops).
    unfold ProjectedTransformer.new in Enew.
    apply bind_Ret in Enew as (tr & Etr & Enew).
    apply bind_Ret in Enew as (ip & Eip & Enew).
    apply bind_Ret in Enew as (ops & _ & Enew).
    injection Enew as <-. cbn [ProjectedTransformer.transformer
      ProjectedTransformer.inputProj ProjectedTransformer.outputProjs
      ProjectedTransformer.convLayout] in *.
    split; [done|]. split.
    { unfold StreamingTransformer.new in Etr.
      destruct (negb _) in Etr; [done|]. by injection Etr as <-. }
    split; [done|]. split; [|done].
    destruct ip as [l|]; [|done].
    split; [done|]. intros Heq. exfalso.
    rewrite Heq, Z.eqb_refl in Eip. done.
  - unfold ProjectedTransformer.new in Enew.
    destruct (StreamingTransformer.new _) as [tr|e'|] eqn:Etr; cbn [bind] in Enew.
    + right.
      destruct (Z.eqb_spec (ProjectedTransformer.o_dModel o)
                  (ProjectedTransformer.o_inputDimension o)) as [Heq|Hne];
        cbn [negb bind] in Enew.
      * pose proof (mapM_fails
          (ProjectedTransformer.outputProj (ProjectedTransformer.o_dModel o) draws)
          (imap (fun j d => (j, d)) (ProjectedTransformer.o_outputDimensions o)))
          as Hm.
        destruct (mapM _ _) as [ops|e''|]; cbn [bind] in Enew; try done.
        injection Enew as ->. destruct Hm as (j & [j' w] & Hj & Hf).
        apply list_lookup_imap_Some in Hj as (w' & Hw & [= -> ->]).
        unfold ProjectedTransformer.outputProj in Hf. cbn [fst snd] in Hf.
        destruct (Z.eqb_spec (ProjectedTransformer.o_dModel o) w'); [done|].
        pose proof (Linear_new_without_bias (ProjectedTransformer.o_dModel o)
                      w' (draws (S j))) as Hl.
        destruct (Linear.new _ _ _ _); cbn [bind] in Hf; try done.
        injection Hf as ->. destruct Hl as [-> Hneg].
        split; [done|]. split; [by eexists|]. right. exists j, w'.
        split; [done|]. split; [congruence|done].
      * pose proof (Linear_new_without_bias
                      (ProjectedTransformer.o_inputDimension o)
                      (ProjectedTransformer.o_dModel o) (draws 0%nat)) as Hl.
        destruct (Linear.new _ _ _ _) as [l|e''|]; cbn [bind] in Enew.
        -- pose proof (mapM_fails
             (ProjectedTransformer.outputProj (ProjectedTransformer.o_dModel o) draws)
             (imap (fun j d => (j, d)) (ProjectedTransformer.o_outputDimensions o)))
             as Hm.
           destruct (mapM _ _) as [ops|e3|]; cbn [bind] in Enew; try done.
           injection Enew as ->. destruct Hm as (j & [j' w] & Hj & Hf).
           apply list_lookup_imap_Some in Hj as (w' & Hw & [= -> ->]).
           unfold ProjectedTransformer.outputProj in Hf. cbn [fst snd] in Hf.
           destruct (Z.eqb_spec (ProjectedTransformer.o_dModel o) w'); [done|].
           pose proof (Linear_new_without_bias (ProjectedTransformer.o_dModel o)
                         w' (draws (S j))) as Hl'.
           destruct (Linear.new _ _ _ _); cbn [bind] in Hf; try done.
           injection Hf as ->. destruct Hl' as [-> Hneg].
           split; [done|]. split; [by eexists|]. right. exists j, w'.
           split; [done|]. split; [congruence|done].
        -- injection Enew as ->. destruct Hl as [-> Hneg].
           split; [done|]. split; [by eexists|]. left. split; [congruence|done].
        -- done.
    + left. injection Enew as ->. split; [|done].
      unfold StreamingTransformer.new in Etr.
      destruct (negb _) in Etr; [|done]. by injection Etr as <-.
    + unfold StreamingTransformer.new in Etr. by destruct (negb _) in Etr.
  - exfalso. unfold ProjectedTransformer.new in Enew.
    destruct (StreamingTransformer.new _) as [tr|e'|] eqn:Etr; cbn [bind] in Enew;
      [|done|unfold StreamingTransformer.new in Etr; by destruct (negb _) in Etr].
    assert (forall r : result (option (Linear.t A)),
              r <> NonInteger ->
              (let* inputProj := r in
               let* outputProjs :=
                 mapM (ProjectedTransformer.outputProj
                         (ProjectedTransformer.o_dModel o) draws)
                   (imap (fun j d => (j, d))
                      (ProjectedTransformer.o_outputDimensions o)) in
               Ret (ProjectedTransformer.mk tr inputProj outputProjs
                      (default false (ProjectedTransformer.o_convLayout o))))
              <> NonInteger) as Hrest.
    { intros r Hr. destruct r as [ip|e|]; cbn [bind]; [|done|done].
      pose proof (mapM_fails
        (ProjectedTransformer.outputProj (ProjectedTransformer.o_dModel o) draws)
        (imap (fun j d => (j, d)) (ProjectedTransformer.o_outputDimensions o)))
        as Hm.
      destruct (mapM _ _) as [ops|e3|]; cbn [bind]; try done.
      destruct Hm as (j & [j' w] & _ & Hf).
      unfold ProjectedTransformer.outputProj in Hf. cbn [fst snd] in Hf.
      destruct (_ =? _) in Hf; [done|].
      pose proof (Linear_new_without_bias (ProjectedTransformer.o_dModel o)
                    w (draws (S j'))) as Hl.
      exfalso.
      by destruct (Linear.new (ProjectedTransformer.o_dModel o) w (Some false)
                     (draws (S j'))); cbn [bind] in Hf. }
    eapply Hrest; [|exact Enew].
    destruct (negb _); [|done].
    pose proof (Linear_new_without_bias
                  (ProjectedTransformer.o_inputDimension o)
                  (ProjectedTransformer.o_dModel o) (draws 0%nat)) as Hl.
    by destruct (Linear.new _ _ _ _).
Qed.

End ProjectedNewTheorems.

(** ** Zero tensors of the client *)

Section WebZerosTheorems.
Context {A : Type} `{JsNumber A} `{JsEngine}.

(** X20.  [zeros] of the client fails exactly when the product of the shape
    is negative or above the largest length of a typed array; otherwise it
    returns that many zeros under the shape given, always on the "cpu" and
    with the element type asked for.
    Reshaping the result to its own shape changes nothing, and reshaping it
    to another shape succeeds exactly when the two products agree, the
    result sharing the buffer of zeros. *)
Theorem zeros_then_reshape (dims dims' : list Z) (elementType : string) :
  match WebTensorUtils.zeros (A := A) dims elementType with
  | Ret z =>
      0 <= product dims <= Z.pos maxLength
      /\ z = mkTensor (replicate (Z.to_nat (product dims)) (of_Z 0)) dims
               (Some "cpu") (Some elementType)
      /\ WebTensorUtils.reshape z dims = Ret z
      /\ match WebTensorUtils.reshape z dims' with
         | Ret r => product dims' = product dims
                    /\ r = mkTensor (data z) dims' (Some "cpu") (Some elementType)
         | Throw e => product dims' <> product dims /\ e = CannotReshape
         | NonInteger => False
         end
  | Throw e => (product dims < 0 \/ Z.pos maxLength < product dims)
               /\ e = InvalidArrayLength
  | NonInteger => False
  end.
Proof.
  unfold WebTensorUtils.zeros.
  destruct (newArray_cases (A := A) (product dims))
    as [(Hp & Hf & ->)|(Hbad & ->)]; unfold fits in *;
    [|cbn; split; [lia|done]].
  cbn [bind]. unfold newArrayOfLength.
  split; [lia|]. split; [done|].
  unfold WebTensorUtils.reshape. cbn [data shape device dtype].
  rewrite length_replicate, Z2Nat.id by lia. rewrite Z.eqb_refl. cbn [negb].
  split; [done|].
  destruct (Z.eqb_spec (product dims) (product dims')) as [E|E]; cbn [negb];
    split; done.
Qed.

End WebZerosTheorems.

(** ** The embedding on any positions *)

Section SinEmbeddingOutcome.
Context {A : Type} `{JsNumber A} `{JsEngine}.

(** X21.  [createSinEmbedding] reads the first two dimensions [B] and [S]
    of the shape of the positions and nothing else of it.  It fails exactly
    where the buffer cannot be allocated, when [B * S * dim] is negative or
    above the largest length of a typed array; otherwise it returns a float32 tensor of shape [[B, S, dim]] with
    [B * S * dim] elements that is always on the "cpu", whatever the device
    of the positions.  When [B] or [S] is negative no row is written: the
    embedding is all zero. *)
Theorem createSinEmbedding_outcome (positions : Tensor A) (B S : Z)
    (rest : list Z) (dim : Z) (maxPeriod : option A) :
  shape positions = B :: S :: rest ->
  match PositionalEmbedding.createSinEmbedding positions dim maxPeriod with
  | Ret e =>
      0 <= B * S * dim <= Z.pos maxLength
      /\ shape e = [B; S; dim]
      /\ device e = Some "cpu" /\ dtype e = Some "float32"
      /\ Z.of_nat (length (data e)) = B * S * dim
      /\ (B < 0 \/ S < 0 -> Forall (fun v => v = of_Z 0) (data e))
  | Throw err => (B * S * dim < 0 \/ Z.pos maxLength < B * S * dim)
                 /\ err = InvalidArrayLength
  | NonInteger => False
  end.
Proof.
  intros Hs.
  destruct (newArray_cases (A := A) (B * S * dim))
    as [(Hp & Hf & _)|(Hbad & Hthrow)].
  2:{ unfold PositionalEmbedding.createSinEmbedding, TensorUtils.zeros.
      rewrite Hs, product_3, Hthrow. unfold fits in Hbad. cbn.
      split; [lia|done]. }
  destruct (createSinEmbedding_patched positions B S dim maxPeriod rest Hs
              ltac:(lia) Hf) as (edata & -> & P).
  unfold fits in Hf.
  cbn [shape device dtype data].
  pose proof (patched_length _ _ _ _ P) as Hl.
  unfold newArrayOfLength in Hl. rewrite length_replicate in Hl.
  repeat split; try done; try lia.
  intros Hneg. apply Forall_lookup. intros k v Hk.
  rewrite (P k) in Hk.
  assert (inRange B (Z.of_nat k / dim / S)
          && inRange S ((Z.of_nat k / dim) mod S) && (0 <? dim) = false) as Hc.
  { destruct (inRange B (Z.of_nat k / dim / S)) eqn:E1; [|done].
    destruct (inRange S ((Z.of_nat k / dim) mod S)) eqn:E2; [|done].
    apply inRange_true in E1, E2. lia. }
  rewrite Hc in Hk. unfold newArrayOfLength in Hk.
  by apply lookup_replicate in Hk as [-> _].
Qed.

End SinEmbeddingOutcome.

(** ** A fresh streaming state *)

Section FreshStateTheorems.
Context {A : Type} `{JsNumber A} `{JsEngine}.

(** The positions depend on the offsets through the offset read for each
    row only. *)
Lemma fillPositions_ext B T (offsets offsets' : Tensor A) (arr : list A) :
  (forall b, 0 <= b < B ->
     get (data offsets) (Z.min b (Z.of_nat (length (data offsets)) - 1))
     = get (data offsets') (Z.min b (Z.of_nat (length (data offsets')) - 1))) ->
  StreamingTransformer.fillPositions B T offsets arr
  = StreamingTransformer.fillPositions B T offsets' arr.
Proof.
  intros Hb. unfold StreamingTransformer.fillPositions.
  apply for_ext. intros b l Hrange.
  apply for_ext. intros t l' _. cbv zeta. by rewrite Hb.
Qed.

(** X22.  A state made by [initStreamingState(n)] for [n > 0] rows (that a
    typed array can hold) holds
    [n] zero offsets, and attaching it does not change the first chunk: on
    a well-formed input of shape [[B, T, C]] the shell returns the same
    output with the fresh state as with no state at all.  Without a state
    the shell is left exactly as it was, so the call can be repeated;
    with the fresh state every offset is [round(0 + T)] afterwards. *)
Theorem forward_fresh_state (tr : StreamingTransformer.t A) (x : Tensor A)
    (B T C n : Z) :
  StreamingTransformer.streamingState tr = None ->
  shape x = [B; T; C] -> wellFormed x -> 0 < n -> fits n ->
  (StreamingTransformer.sinusoidal tr = true -> shellFits B T C) ->
  exists state y tr' state',
    StreamingTransformer.initStreamingState tr n = Ret state
    /\ data (TransformerState.offsets state) = replicate (Z.to_nat n) (of_Z 0)
    /\ StreamingTransformer.forward tr x = Ret (y, tr)
    /\ StreamingTransformer.forward
         (StreamingTransformer.attach tr (Some state)) x = Ret (y, tr')
    /\ StreamingTransformer.streamingState tr' = Some state'
    /\ data (TransformerState.offsets state')
       = replicate (Z.to_nat n) (fround (nadd (of_Z 0) (of_Z T))).
Proof.
  intros Hnone Hs Hwf Hn Hfn Hfits.
  destruct (wellFormed_3 x B T C Hwf Hs) as (HB & HT & HC & Hlen).
  set (state := TransformerState.mk n "cpu"
                  (mkTensor (replicate (Z.to_nat n) (of_Z 0)) [n] (Some "cpu")
                     (Some "float32")) None).
  set (tr2 := StreamingTransformer.attach tr (Some state)).
  assert (StreamingTransformer.attach tr None = tr) as Hsame.
  { destruct tr. cbn in Hnone. by subst. }
  destruct (forward_returns tr x B T C Hs Hwf Hfits)
    as (offsets & y & Hoff & E & _ & _ & _ & _ & Hsin & Hplain).
  destruct (forward_returns tr2 x B T C Hs Hwf Hfits)
    as (offsets2 & y2 & Hoff2 & E2 & _ & _ & _ & _ & Hsin2 & Hplain2).
  unfold StreamingTransformer.advanced in E. rewrite Hnone, Hsame in E.
  rewrite Hnone in Hoff. cbn in Hoff2. injection Hoff2 as <-.
  unfold StreamingTransformer.baseOffsets in Hoff.
  rewrite zeros_nonneg in Hoff; [|done|rewrite product_1; apply fits_one].
  injection Hoff as <-.
  assert (StreamingTransformer.expandedPositions B T
            (mkTensor (newArrayOfLength (Z.to_nat (product [1]))) [1]
               (Some (orCpu (device x))) (Some "float32")) (device x)
          = StreamingTransformer.expandedPositions B T
              (TransformerState.offsets state) (device x)) as Hpos.
  { unfold StreamingTransformer.expandedPositions.
    destruct (TensorUtils.zeros [B; T] (device x)) as [z| |]; cbn [bind]; try done.
    f_equal. f_equal. apply fillPositions_ext. intros b Hb.
    cbn [data TransformerState.offsets state]. unfold newArrayOfLength.
    rewrite !length_replicate, product_1. change (Z.to_nat 1) with 1%nat.
    transitivity (of_Z (A := A) 0).
    - by replace (Z.min b (Z.of_nat 1 - 1)) with 0 by lia.
    - unfold get.
      destruct (Z.leb_spec 0 (Z.min b (Z.of_nat (Z.to_nat n) - 1))); [|lia].
      by rewrite lookup_replicate_2 by lia. }
  assert (y2 = y) as ->.
  { destruct (StreamingTransformer.sinusoidal tr) eqn:Esin.
    - destruct (Hsin eq_refl) as (p & e & r & Ep & Ee & Er & ->).
      destruct (Hsin2 Esin) as (p2 & e2 & r2 & Ep2 & Ee2 & Er2 & ->).
      rewrite Hpos in Ep.
      pose proof (eq_trans (eq_sym Ep) Ep2) as Hp. injection Hp as <-.
      pose proof (eq_trans (eq_sym Ee) Ee2) as He. injection He as <-.
      pose proof (eq_trans (eq_sym Er) Er2) as Hr. by injection Hr as <-.
    - rewrite (Hplain eq_refl). by rewrite (Hplain2 Esin). }
  exists state, y. eexists _, _.
  split; [|split; [done|split; [exact E|split; [exact E2|split; [reflexivity|]]]]].
  { unfold StreamingTransformer.initStreamingState, TransformerState.new,
      TensorUtils.zeros.
    rewrite product_1, newArray_nonneg; [done|lia|done]. }
  apply list_eq. intros k. rewrite advance_lookup.
  cbn [TransformerState.execMask TransformerState.offsets state executes data].
  destruct (decide (k < Z.to_nat n)%nat).
  - by rewrite !lookup_replicate_2.
  - by rewrite !lookup_ge_None_2 by (rewrite length_replicate; lia).
Qed.

End FreshStateTheorems.

(** ** Streaming through the projected transformer *)

Section ProjectedStreamingTheorems.
Context {A : Type} `{JsNumber A} `{JsEngine}.

(** X23.  A forward call of a projected transformer built by the
    constructor, with or without a streaming state then assigned to its
    shell, on a well-formed input (typed arrays holding what the call
    builds), changes nothing of the projected transformer but that state:
    the projections and the layout stay, and with a state attached every
    offset of a row that executes becomes [round(o + T)] while the others
    stay, for the number [T] of time steps, which is the second dimension
    of the input in the sequence-first layout and the third in the
    channel-first one.  Without a state the shell stays without one. *)
Theorem projected_forward_state (o : ProjectedTransformer.options A)
    (draws : nat -> Z -> A) (built : ProjectedTransformer.t A)
    (st : option (TransformerState.t A)) (x : Tensor A) (B T : Z) :
  ProjectedTransformer.new o draws = Ret built ->
  let pt := ProjectedTransformer.withState built st in
  shape x = (if ProjectedTransformer.convLayout pt
             then [B; ProjectedTransformer.o_inputDimension o; T]
             else [B; T; ProjectedTransformer.o_inputDimension o]) ->
  wellFormed x ->
  0 <= ProjectedTransformer.o_dModel o ->
  Forall (fun w => 0 <= w) (ProjectedTransformer.o_outputDimensions o) ->
  shellFits B T (ProjectedTransformer.o_dModel o) ->
  Forall (fun w => fits (B * T * w)) (ProjectedTransformer.o_outputDimensions o) ->
  let shell := ProjectedTransformer.transformer pt in
  exists ys,
    ProjectedTransformer.forward pt x
    = Ret (ys,
           ProjectedTransformer.mk
             (StreamingTransformer.attach shell
                (StreamingTransformer.advanced shell T))
             (ProjectedTransformer.inputProj built)
             (ProjectedTransformer.outputProjs built)
             (ProjectedTransformer.convLayout built))
    /\ match st with
       | Some state =>
           StreamingTransformer.advanced shell T
           = Some (StreamingTransformer.advance state T)
           /\ TransformerState.execMask (StreamingTransformer.advance state T)
              = TransformerState.execMask state
           /\ forall row off,
                data (TransformerState.offsets state) !! row = Some off ->
                data (TransformerState.offsets
                        (StreamingTransformer.advance state T)) !! row
                = Some (if executes (TransformerState.execMask state) row
                        then fround (nadd off (of_Z T)) else off)
       | None => StreamingTransformer.advanced shell T = None
       end.
Proof.
  intros Hnew. cbv zeta. intros Hs Hwf HdM Hows Hfits Hofits.
  destruct (ProjectedTransformer_new_inv o draws built Hnew) as (_ & Hip & Hops).
  set (pt := ProjectedTransformer.withState built st) in *.
  set (iw := ProjectedTransformer.o_inputDimension o) in *.
  set (dM := ProjectedTransformer.o_dModel o) in *.
  change (ProjectedTransformer.inputProj built)
    with (ProjectedTransformer.inputProj pt) in *.
  change (ProjectedTransformer.outputProjs built)
    with (ProjectedTransformer.outputProjs pt) in *.
  change (ProjectedTransformer.convLayout built)
    with (ProjectedTransformer.convLayout pt).
  assert (exists x1, (if ProjectedTransformer.convLayout pt
                      then TensorUtils.transpose x 1 2 else Ret x) = Ret x1
                     /\ shape x1 = [B; T; iw] /\ wellFormed x1)
    as (x1 & Ex1 & Hs1 & Hwf1).
  { destruct (ProjectedTransformer.convLayout pt).
    - destruct (transpose_12_wellFormed x B iw T Hs Hwf) as (u & Eu & Hus & Huwf).
      by exists u.
    - by exists x. }
  destruct (wellFormed_3 x1 B T iw Hwf1 Hs1) as (HB & HT & Hiw & Hlen1).
  assert (exists x', ProjectedTransformer.shellInput pt x = Ret x'
                     /\ shape x' = [B; T; dM] /\ wellFormed x')
    as (x' & Ex' & Hs' & Hwf').
  { unfold ProjectedTransformer.shellInput. rewrite Ex1. cbn [bind].
    destruct (ProjectedTransformer.inputProj pt) as [l|].
    - destruct Hip as [Hin Hout].
      destruct (Linear_forward_wellFormed l x1 B T iw Hs1 HB HT ltac:(lia))
        as (r & E & Hrs & Hrwf).
      { rewrite Hout. apply Hfits. }
      exists r. rewrite Hout in Hrs. done.
    - exists x1. rewrite <- Hip. done. }
  destruct (forward_returns (ProjectedTransformer.transformer pt) x' B T dM Hs' Hwf'
              (fun _ => Hfits))
    as (offsets & z & _ & Ez & Hzs & Hzl & _).
  assert (wellFormed z) as Hzwf.
  { destruct Hwf' as [Hpos Hlen']. split; rewrite Hzs; [done|]. by rewrite Hzl. }
  rewrite Hs' in Hzs.
  assert (Forall (fun p => exists y,
            ProjectedTransformer.outputRound (ProjectedTransformer.convLayout pt) z p = Ret y)
            (ProjectedTransformer.outputProjs pt)) as Hall.
  { apply Forall_lookup. intros j p Hp.
    destruct (Forall2_lookup_r _ _ _ j p Hops Hp) as (w & Hw & Hpw).
    destruct (outputRound_returns (ProjectedTransformer.convLayout pt)
                z B T dM w p Hzs Hzwf Hpw) as (y & Ey & _).
    { by apply (Forall_lookup_1 _ _ _ _ Hows Hw). }
    { by apply (Forall_lookup_1 _ _ _ _ Hofits Hw). }
    by exists y. }
  destruct (mapM_returns _ _ Hall) as (ys & Eys).
  exists ys. split.
  - unfold ProjectedTransformer.forward. rewrite Ex'. cbn [bind].
    rewrite Ez. cbn [bind fst snd]. rewrite Eys. done.
  - destruct st as [state|]; [|done].
    split; [done|]. split; [done|].
    intros row off Hoff. rewrite advance_lookup, Hoff.
    by destruct (executes (TransformerState.execMask state) row).
Qed.

End ProjectedStreamingTheorems.

(** ** Resets between chunks, and what the shell ignores *)

Section ResetForwardTheorems.
Context {A : Type} `{JsNumber A} `{JsEngine}.

(** X24.  A reset restarts the positions of the rows it selects.  After
    [reset(mask)] on the streaming state of a shell, a forward call on a
    well-formed input of shape [[B, T, C]] (typed arrays holding the
    positions and the embedding) reads the offsets of the state
    that was reset, and the position of step [t] of a row [b] that has an
    offset is [round(t + 0)] when [mask[b]] is true and [round(t + o)], for
    the offset [o] the row had before the reset, otherwise. *)
Theorem forward_after_reset (tr : StreamingTransformer.t A)
    (state : TransformerState.t A) (mask : list bool) (x : Tensor A)
    (B T C : Z) :
  shape x = [B; T; C] -> wellFormed x -> shellFits B T C ->
  let state' := TransformerState.reset state mask in
  let tr' := StreamingTransformer.attach tr (Some state') in
  exists positions y tr'',
    StreamingTransformer.baseOffsets (StreamingTransformer.streamingState tr') x
    = Ret (TransformerState.offsets state')
    /\ StreamingTransformer.expandedPositions B T
         (TransformerState.offsets state') (device x) = Ret positions
    /\ StreamingTransformer.forward tr' x = Ret (y, tr'')
    /\ forall b t o,
         0 <= t < T -> Z.of_nat b < B ->
         data (TransformerState.offsets state) !! b = Some o ->
         get (data positions) (Z.of_nat b * T + t)
         = fround (nadd (of_Z t)
                     (if default false (mask !! b) then of_Z 0 else o)).
Proof.
  intros Hs Hwf Hfits. cbv zeta.
  destruct (wellFormed_3 x B T C Hwf Hs) as (HB & HT & HC & Hlen).
  set (state' := TransformerState.reset state mask).
  destruct (forward_returns
              (StreamingTransformer.attach tr (Some state')) x B T C Hs Hwf
              (fun _ => Hfits))
    as (offsets & y & Hoff & E & _).
  destruct (expandedPositions_returns B T (TransformerState.offsets state')
              (device x) HB HT (proj1 (proj2 Hfits))) as (pdata & Epos & _ & Hp).
  eexists _, y, _. split; [done|]. split; [exact Epos|]. split; [exact E|].
  intros b t o Ht Hb Ho. cbn [data]. rewrite Hp by lia. do 2 f_equal.
  assert (b < length (data (TransformerState.offsets state)))%nat as Hlt
    by (by apply lookup_lt_Some in Ho).
  pose proof (TransformerState_reset_length state mask) as [Hl _].
  fold state' in Hl. rewrite Hl.
  replace (Z.min (Z.of_nat b)
             (Z.of_nat (length (data (TransformerState.offsets state))) - 1))
    with (Z.of_nat b) by lia.
  apply get_lookup. unfold state', TransformerState.reset.
  cbn [TransformerState.withOffsets TransformerState.offsets withData data].
  rewrite resetWhere_lookup, Ho.
  destruct (mask !! b) as [[|]|] eqn:Em; cbn [default];
    rewrite ?andb_false_r; try done.
  replace (inRange _ _) with true; [done|].
  symmetry. apply inRange_true. apply lookup_lt_Some in Em. lia.
Qed.


End ResetForwardTheorems.

(** ** The invariant of the streaming states *)

Lemma fold_left_invariant {St M : Type} (P : St -> Prop) (f : St -> M -> St)
    (l : list M) (s : St) :
  P s -> (forall s m, P s -> P (f s m)) -> P (fold_left f l s).
Proof.
  intros Hs Hf. revert s Hs.
  induction l as [|m l IH]; intros s Hs; [done|]. cbn. apply IH. by apply Hf.
Qed.

Section StateInvariantTheorems.
Context {A : Type} `{JsNumber A} `{JsEngine}.

(** X26.  The offsets of a streaming state stay as many as its
    [batchSize]: a state made by one of the three constructors, after any
    sequence of resets, with or without masks and with masks of any
    lengths, still has [batchSize] offsets in a tensor of shape
    [[batchSize]], and an [execMask] that was never set. *)
Theorem state_invariant (batchSize : Z) (dev : option string)
    (masks : list (list bool)) (optionalMasks : list (option (list bool))) :
  match TransformerState.new (A := A) batchSize dev None with
  | Ret st =>
      let st' := fold_left TransformerState.reset masks st in
      TransformerState.batchSize st' = batchSize
      /\ Z.of_nat (length (data (TransformerState.offsets st'))) = batchSize
      /\ shape (TransformerState.offsets st') = [batchSize]
      /\ TransformerState.execMask st' = None
  | _ => batchSize < 0 \/ Z.pos maxLength < batchSize
  end
  /\ match NodeStreamingState.new (A := A) batchSize dev with
     | Ret st =>
         let st' := fold_left NodeStreamingState.reset optionalMasks st in
         NodeStreamingState.batchSize st' = batchSize
         /\ Z.of_nat (length (data (NodeStreamingState.offsets st'))) = batchSize
         /\ shape (NodeStreamingState.offsets st') = [batchSize]
         /\ NodeStreamingState.execMask st' = None
     | _ => batchSize < 0 \/ Z.pos maxLength < batchSize
     end
  /\ match WebStreamingState.new (A := A) batchSize dev with
     | Ret st =>
         let st' := fold_left WebStreamingState.reset optionalMasks st in
         WebStreamingState.batchSize st' = batchSize
         /\ Z.of_nat (length (data (WebStreamingState.offsets st'))) = batchSize
         /\ shape (WebStreamingState.offsets st') = [batchSize]
     | _ => batchSize < 0 \/ Z.pos maxLength < batchSize
     end.
Proof.
  unfold TransformerState.new, NodeStreamingState.new, WebStreamingState.new,
    TensorUtils.zeros, ServerTensorUtils.zeros.
  rewrite !product_1.
  destruct (newArray_cases (A := A) batchSize)
    as [(Hp & Hf & ->)|(Hbad & ->)]; unfold fits in *;
    [|cbn; repeat split; lia].
  cbn [bind]. cbv zeta.
  split; [|split].
  - apply (fold_left_invariant
             (fun st : TransformerState.t A =>
                TransformerState.batchSize st = batchSize
                /\ Z.of_nat (length (data (TransformerState.offsets st))) = batchSize
                /\ shape (TransformerState.offsets st) = [batchSize]
                /\ TransformerState.execMask st = None)).
    + cbn. unfold newArrayOfLength. rewrite length_replicate.
      repeat split; lia.
    + intros st m (H1 & H2 & H3 & H4).
      unfold TransformerState.reset, TransformerState.withOffsets, withData.
      cbn [TransformerState.batchSize TransformerState.offsets
           TransformerState.execMask data shape].
      by rewrite resetWhere_length.
  - apply (fold_left_invariant
             (fun st : NodeStreamingState.t A =>
                NodeStreamingState.batchSize st = batchSize
                /\ Z.of_nat (length (data (NodeStreamingState.offsets st))) = batchSize
                /\ shape (NodeStreamingState.offsets st) = [batchSize]
                /\ NodeStreamingState.execMask st = None)).
    + cbn. unfold newArrayOfLength. rewrite length_replicate.
      repeat split; lia.
    + intros st m (H1 & H2 & H3 & H4).
      destruct (NodeStreamingState_reset_length st m) as [Hl Hb].
      rewrite Hl, Hb. repeat split; try done; by destruct m.
  - apply (fold_left_invariant
             (fun st : WebStreamingState.t A =>
                WebStreamingState.batchSize st = batchSize
                /\ Z.of_nat (length (data (WebStreamingState.offsets st))) = batchSize
                /\ shape (WebStreamingState.offsets st) = [batchSize])).
    + cbn. unfold newArrayOfLength. rewrite length_replicate.
      repeat split; lia.
    + intros st m (H1 & H2 & H3). cbn [WebStreamingState.offsets data shape] in *.
      destruct m as [m|]; cbn [WebStreamingState.reset WebStreamingState._offsets
        WebStreamingState.batchSize].
      * by rewrite resetWhere_length.
      * unfold fillZero. by rewrite length_replicate.
Qed.

End StateInvariantTheorems.

(** * Concrete runs of the further properties

    Each of the further theorems that has a hypothesis, applied to a
    concrete input over the term model of the numbers. *)

Lemma transpose_12_elements_witness :
  shape sampleTensor = [2; 2; 3] /\ wellFormed sampleTensor
  /\ exists u,
       TensorUtils.transpose sampleTensor 1 2 = Ret u
       /\ shape u = [2; 3; 2]
       /\ get (data u) 1 = TInt 4.
Proof.
  split; [reflexivity|]. split; [exact sampleTensor_wellFormed|].
  destruct (transpose_12_elements sampleTensor 2 2 3 eq_refl
              sampleTensor_wellFormed) as (u & E & Hs & _ & _ & _ & Hel).
  exists u. split; [exact E|]. split; [exact Hs|].
  exact (Hel 0 1 0 ltac:(lia) ltac:(lia) ltac:(lia)).
Defined.

Lemma view_of_view_witness :
  TensorUtils.view sampleTensor [3; -1]
  = Ret (mkTensor (data sampleTensor) [3; 4] (Some "cpu") (Some "float32"))
  /\ TensorUtils.view
       (mkTensor (data sampleTensor) [3; 4] (Some "cpu") (Some "float32")) [12]
     = TensorUtils.view sampleTensor [12].
Proof.
  split; [reflexivity|].
  destruct (view_of_view sampleTensor
              (mkTensor (data sampleTensor) [3; 4] (Some "cpu") (Some "float32"))
              [3; -1] [12] (or_introl eq_refl)) as (_ & _ & _ & _ & Hv & _).
  exact Hv.
Defined.

Lemma Linear_forward_elements_witness :
  0 <= product (removelast (shape sampleTensor))
  /\ 0 <= Linear.outFeatures sampleLinear
  /\ fits (product (removelast (shape sampleTensor))
           * Linear.outFeatures sampleLinear)
  /\ exists r,
       Linear.forward sampleLinear sampleTensor = Ret r
       /\ shape r = [2; 2; 2]
       /\ get (data r) 3
          = TRound (TAdd (TAdd (TAdd (TAdd (TInt 0) (TMul (TInt 4) (TInt 4)))
                                  (TMul (TInt 5) (TInt 5)))
                            (TMul (TInt 6) (TInt 6)))
                      (TInt 20)).
Proof.
  assert (0 <= product (removelast (shape sampleTensor))) as Hrows
    by (cbn; lia).
  assert (0 <= Linear.outFeatures sampleLinear) as Hout by (cbn; lia).
  assert (fits (product (removelast (shape sampleTensor))
                * Linear.outFeatures sampleLinear)) as Hfits by fitting.
  split; [exact Hrows|]. split; [exact Hout|]. split; [exact Hfits|].
  destruct (Linear_forward_elements sampleLinear sampleTensor Hrows Hout Hfits)
    as (r & E & Hs & _ & _ & _ & Hel).
  exists r. split; [exact E|]. split; [exact Hs|].
  exact (Hel 1 1 ltac:(cbn; lia) ltac:(cbn; lia)).
Defined.


Lemma forward_sinusoidal_elements_witness :
  shape sampleChunk = [3; 2; 2] /\ wellFormed sampleChunk
  /\ StreamingTransformer.sinusoidal sampleShell = true
  /\ shellFits 3 2 2
  /\ exists y tr',
       StreamingTransformer.forward sampleShell sampleChunk = Ret (y, tr')
       /\ get (data y) 7
          = TRound
              (TAdd (TInt 8)
                 (TRound
                    (TMul
                       (TRound
                          (TCos
                             (TDiv (TRound (TAdd (TInt 1) (TInt 0)))
                                (TPow (TInt 10000) (TDiv (TInt 0) (TInt 2))))))
                       (TInt 1)))).
Proof.
  assert (shellFits 3 2 2) as Hfits by fitting.
  split; [reflexivity|]. split; [exact sampleChunk_wellFormed|].
  split; [reflexivity|]. split; [exact Hfits|].
  destruct (forward_sinusoidal_elements sampleShell sampleChunk 3 2 2 eq_refl
              sampleChunk_wellFormed eq_refl Hfits)
    as (offsets & y & tr' & Hoff & E & Hel).
  injection Hoff as <-.
  exists y, tr'. split; [exact E|].
  exact (Hel 1 1 1 ltac:(lia) ltac:(lia) ltac:(lia)).
Defined.

Lemma forward_two_chunks_witness :
  StreamingTransformer.streamingState
    (StreamingTransformer.attach sampleShell (Some sampleState)) = Some sampleState
  /\ wellFormed sampleChunk /\ wellFormed sampleTensor
  /\ shellFits 3 2 2 /\ shellFits 2 2 3
  /\ exists y1 tr1 y2 tr2 state2,
       StreamingTransformer.forward
         (StreamingTransformer.attach sampleShell (Some sampleState)) sampleChunk
       = Ret (y1, tr1)
       /\ StreamingTransformer.forward tr1 sampleTensor = Ret (y2, tr2)
       /\ StreamingTransformer.streamingState tr2 = Some state2
       /\ data (TransformerState.offsets state2) !! 0%nat
          = Some (TRound (TAdd (TRound (TAdd (TInt 5) (TInt 2))) (TInt 2)))
       /\ data (TransformerState.offsets state2) !! 1%nat = Some (TInt 7).
Proof.
  assert (shellFits 3 2 2 /\ shellFits 2 2 3) as Hfits by (split; fitting).
  split; [reflexivity|]. split; [exact sampleChunk_wellFormed|].
  split; [exact sampleTensor_wellFormed|].
  split; [exact (proj1 Hfits)|]. split; [exact (proj2 Hfits)|].
  destruct (forward_two_chunks
              (StreamingTransformer.attach sampleShell (Some sampleState))
              sampleState sampleChunk sampleTensor 3 2 2 2 2 3 eq_refl eq_refl
              sampleChunk_wellFormed eq_refl sampleTensor_wellFormed
              (fun _ => Hfits))
    as (y1 & tr1 & y2 & tr2 & st1 & st2 & E1 & E2 & _ & _ & Hst2 & _ & Hrow).
  exists y1, tr1, y2, tr2, st2.
  split; [exact E1|]. split; [exact E2|]. split; [exact Hst2|]. split.
  - exact (proj2 (Hrow 0%nat (TInt 5) eq_refl)).
  - exact (proj2 (Hrow 1%nat (TInt 7) eq_refl)).
Defined.


Lemma createSinEmbedding_outcome_witness :
  shape samplePositions = [1; 2]
  /\ match PositionalEmbedding.createSinEmbedding samplePositions 2 None with
     | Ret e => shape e = [1; 2; 2] /\ device e = Some "cpu"
     | _ => False
     end.
Proof.
  split; [reflexivity|].
  pose proof (createSinEmbedding_outcome samplePositions 1 2 [] 2 None eq_refl)
    as Ho.
  destruct (PositionalEmbedding.createSinEmbedding samplePositions 2 None)
    as [e|err|].
  - destruct Ho as (_ & Hs & Hd & _). split; [exact Hs|exact Hd].
  - destruct Ho as [Hneg _]. cbn in Hneg. lia.
  - exact Ho.
Defined.

Lemma forward_fresh_state_witness :
  StreamingTransformer.streamingState sampleShell = None
  /\ wellFormed sampleChunk /\ fits 3 /\ shellFits 3 2 2
  /\ exists state y tr' state',
       StreamingTransformer.initStreamingState sampleShell 3 = Ret state
       /\ StreamingTransformer.forward sampleShell sampleChunk
          = Ret (y, sampleShell)
       /\ StreamingTransformer.forward
            (StreamingTransformer.attach sampleShell (Some state)) sampleChunk
          = Ret (y, tr')
       /\ StreamingTransformer.streamingState tr' = Some state'
       /\ data (TransformerState.offsets state')
          = [TRound (TAdd (TInt 0) (TInt 2));
             TRound (TAdd (TInt 0) (TInt 2));
             TRound (TAdd (TInt 0) (TInt 2))].
Proof.
  assert (fits 3) as Hfn by fitting.
  assert (shellFits 3 2 2) as Hfits by fitting.
  split; [reflexivity|]. split; [exact sampleChunk_wellFormed|].
  split; [exact Hfn|]. split; [exact Hfits|].
  destruct (forward_fresh_state sampleShell sampleChunk 3 2 2 3 eq_refl eq_refl
              sampleChunk_wellFormed ltac:(lia) Hfn (fun _ => Hfits))
    as (state & y & tr' & state' & Hinit & _ & E & E' & Hst & Hoff).
  exists state, y, tr', state'.
  split; [exact Hinit|]. split; [exact E|]. split; [exact E'|].
  split; [exact Hst|exact Hoff].
Defined.

Lemma projected_forward_state_witness :
  ProjectedTransformer.new sampleOptions sampleDraws = Ret sampleProjected
  /\ wellFormed sampleInput
  /\ exists ys pt' state',
       ProjectedTransformer.forward
         (ProjectedTransformer.withState sampleProjected (Some sampleState))
         sampleInput = Ret (ys, pt')
       /\ ProjectedTransformer.outputProjs pt'
          = ProjectedTransformer.outputProjs sampleProjected
       /\ ProjectedTransformer.inputProj pt'
          = ProjectedTransformer.inputProj sampleProjected
       /\ StreamingTransformer.streamingState
            (ProjectedTransformer.transformer pt') = Some state'
       /\ data (TransformerState.offsets sampleState) = [TInt 5; TInt 7]
       /\ data (TransformerState.offsets state') !! 0%nat
          = Some (TRound (TAdd (TInt 5) (TInt 3)))
       /\ data (TransformerState.offsets state') !! 1%nat = Some (TInt 7).
Proof.
  assert (ProjectedTransformer.new sampleOptions sampleDraws = Ret sampleProjected)
    as Hnew by (vm_compute; reflexivity).
  assert (wellFormed sampleInput) as Hwf
    by (split; [repeat constructor; lia|reflexivity]).
  split; [exact Hnew|]. split; [exact Hwf|].
  destruct (projected_forward_state sampleOptions sampleDraws sampleProjected
              (Some sampleState) sampleInput 2 3 Hnew eq_refl Hwf
              ltac:(cbn; lia) ltac:(repeat constructor; lia) ltac:(fitting)
              ltac:(repeat constructor; fitting))
    as (ys & E & Hadv & _ & Hrow).
  exists ys. eexists _, _. split; [exact E|].
  split; [reflexivity|]. split; [reflexivity|]. split; [exact Hadv|].
  split; [reflexivity|]. split.
  - exact (Hrow 0%nat (TInt 5) eq_refl).
  - exact (Hrow 1%nat (TInt 7) eq_refl).
Defined.

Lemma forward_after_reset_witness :
  wellFormed sampleChunk /\ shellFits 3 2 2
  /\ exists positions y tr'',
       StreamingTransformer.expandedPositions 3 2
         (TransformerState.offsets
            (TransformerState.reset sampleState [false; true]))
         (device sampleChunk) = Ret positions
       /\ StreamingTransformer.forward
            (StreamingTransformer.attach sampleShell
               (Some (TransformerState.reset sampleState [false; true])))
            sampleChunk = Ret (y, tr'')
       /\ get (data positions) 1 = TRound (TAdd (TInt 1) (TInt 5))
       /\ get (data positions) 3 = TRound (TAdd (TInt 1) (TInt 0)).
Proof.
  assert (shellFits 3 2 2) as Hfits by fitting.
  split; [exact sampleChunk_wellFormed|]. split; [exact Hfits|].
  destruct (forward_after_reset sampleShell sampleState [false; true]
              sampleChunk 3 2 2 eq_refl sampleChunk_wellFormed Hfits)
    as (positions & y & tr'' & _ & Epos & E & Hp).
  exists positions, y, tr''. split; [exact Epos|]. split; [exact E|]. split.
  - exact (Hp 0%nat 1 (TInt 5) ltac:(lia) ltac:(lia) eq_refl).
  - exact (Hp 1%nat 1 (TInt 7) ltac:(lia) ltac:(lia) eq_refl).
Defined.

